(** * Procedural asteroid generation: a shallow embedding of AAsteroidActor

    The development follows AsteroidActor.cpp function by function:
    icosphere construction and subdivision with the edge-midpoint cache,
    multi-layer noise displacement with its clamp, re-normalisation and
    scaling, the statistics, and the orchestrating [GenerateAsteroid].

    Conventions of the model.
    - [float] and [double] values are real numbers: rounding is not modelled,
      comparisons and constants are those of the code.
    - [int32] and [int64] values are integers of [Z]; where the code casts or
      shifts, the wrap-around is written out.
    - [TArray] is a list, [TMap<int64,int32>] a finite map.  An access
      [A[i]] outside the array is a fatal check of the engine: the functions
      that index return [option] and yield [None] there.  The capacity limit
      of a [TArray] (its size is an [int32]) is not modelled.
    - Calls into the engine that the actor source does not define (the
      process-wide random source, [FRandomStream], [FMath::PerlinNoise3D])
      are the fields of an [Engine] record; the general statements hold for
      an arbitrary engine, and concrete runs use a small executable stand-in.
      The engine's [FVector] methods and [FMath::Clamp] are written out from
      their definitions in the engine.  The mesh component is written to
      through a trace of [Event]s. *)

From Stdlib Require Import Reals Lra Lia ZArith List.
From stdpp Require Import base gmap list.

Open Scope R_scope.

(** ** Vectors *)

Record FVector := MkVector { VX : R; VY : R; VZ : R }.

Module FVec.

Definition ZeroVector : FVector := MkVector 0 0 0.

Definition Add (a b : FVector) : FVector :=
  MkVector (VX a + VX b) (VY a + VY b) (VZ a + VZ b).

Definition Sub (a b : FVector) : FVector :=
  MkVector (VX a - VX b) (VY a - VY b) (VZ a - VZ b).

(** [V * s] *)
Definition Mul (a : FVector) (s : R) : FVector :=
  MkVector (VX a * s) (VY a * s) (VZ a * s).

Definition DotProduct (a b : FVector) : R :=
  VX a * VX b + VY a * VY b + VZ a * VZ b.

Definition CrossProduct (a b : FVector) : FVector :=
  MkVector (VY a * VZ b - VZ a * VY b)
           (VZ a * VX b - VX a * VZ b)
           (VX a * VY b - VY a * VX b).

Definition SizeSquared (a : FVector) : R :=
  VX a * VX a + VY a * VY a + VZ a * VZ a.

Definition Size (a : FVector) : R := sqrt (SizeSquared a).

(** The engine's [SMALL_NUMBER], the default tolerance of [Normalize] and
    [GetSafeNormal].  The engine writes it as the single-precision literal
    [1.e-8f], whose exact value is 11258999 * 2^-50, a little below 1e-8
    (about 9.99999994e-9). *)
Definition SMALL_NUMBER : R := 11258999 / 1125899906842624.

Definition InvSqrt (x : R) : R := / sqrt x.

(** [FVector::Normalize()]: scales the vector to unit length when its
    squared length exceeds the tolerance and leaves it unchanged otherwise
    (the boolean result is dropped by every caller in the actor). *)
Definition Normalize (a : FVector) : FVector :=
  let SquareSum := SizeSquared a in
  if Rgt_dec SquareSum SMALL_NUMBER
  then Mul a (InvSqrt SquareSum)
  else a.

(** [FVector::GetSafeNormal()]. *)
Definition GetSafeNormal (a : FVector) : FVector :=
  let SquareSum := SizeSquared a in
  if Req_dec_T SquareSum 1 then a
  else if Rlt_dec SquareSum SMALL_NUMBER then ZeroVector
  else Mul a (InvSqrt SquareSum).

End FVec.

(** ** Scalar helpers of [FMath] *)

(** [FMath::Clamp(X, Min, Max)] is [X < Min ? Min : X < Max ? X : Max]. *)
Definition Clamp (X Min Max : R) : R :=
  if Rlt_dec X Min then Min else if Rlt_dec X Max then X else Max.

Definition INT32_MAX : Z := 2147483647.

(** ** The engine services the actor calls *)

Record Engine := MkEngine {
  (** state of the process-wide generator behind [FMath::Rand] and
      [FMath::FRand] *)
  GlobalRand : Type;
  FMath_Rand : GlobalRand -> Z * GlobalRand;
  FMath_FRand : GlobalRand -> R * GlobalRand;
  (** [FRandomStream]: construction from a seed, [FRand], [RandRange] *)
  FRandomStream : Type;
  FRandomStream_Init : Z -> FRandomStream;
  FRandomStream_FRand : FRandomStream -> R * FRandomStream;
  FRandomStream_RandRange : Z -> Z -> FRandomStream -> Z * FRandomStream;
  (** [FMath::PerlinNoise3D] *)
  PerlinNoise3D : FVector -> R
}.

(** [FMath::RandRange(float InMin, float InMax)], which the engine defines as
    [InMin + (InMax - InMin) * FRand()]. *)
Definition FMath_RandRange (E : Engine) (InMin InMax : R) (g : GlobalRand E)
  : R * GlobalRand E :=
  let (u, g') := FMath_FRand E g in
  (InMin + (InMax - InMin) * u, g').

(** ** Data of the actor *)

Record FNoiseLayer := MkNoiseLayer {
  Scale : R;
  Intensity : R;
  Seed : Z
}.

Record FAsteroidStats := MkStats {
  Radius : R;
  Volume : R;
  Mass : R;
  NoiseLayerSeeds : list Z
}.

Record AAsteroidActor := MkActor {
  Subdivisions : Z;
  MinRadius : R;
  MaxRadius : R;
  Density : R;
  GlobalSeed : Z;
  NoiseLayers : list FNoiseLayer;
  MaxDisplacementFraction : R;
  bEnablePhysics : bool;
  AsteroidStats : FAsteroidStats
}.

(** Calls into the procedural mesh component, the delegate and the log, in
    the order the actor makes them.  [CreateMeshSection] also receives UVs,
    colours and tangents, which the actor fills with zeros; they are left
    out. *)
Inductive Event :=
| CreateMeshSection (SectionIndex : Z) (Vertices : list FVector)
    (Triangles : list Z) (Normals : list FVector) (bCreateCollision : bool)
| SetCollisionEnabled
| SetCollisionObjectType
| ClearCollisionConvexMeshes
| AddCollisionConvexMesh (Vertices : list FVector)
| SetSimulatePhysics (bSimulate : bool)
| SetMassOverrideInKg (MassInKg : R)
| Broadcast (Stats : FAsteroidStats)
| LogGenerated (LogRadius LogVolume LogMass : R).

(** ** Geometry generation *)

(** [A[i]] for an [int32] index: [None] outside the array. *)
Definition Index {A : Type} (l : list A) (i : Z) : option A :=
  if (i <? 0)%Z then None else l !! Z.to_nat i.

Definition NormalizeVertices (Vertices : list FVector) : list FVector :=
  map FVec.Normalize Vertices.

(** Two's-complement reading of an integer as [int64] and as [uint32]. *)
Definition wrap_int64 (x : Z) : Z :=
  ((x + 2 ^ 63) mod 2 ^ 64 - 2 ^ 63)%Z.

Definition to_uint32 (x : Z) : Z := (x mod 2 ^ 32)%Z.

(** The cache key [((int64)small << 32) | (uint32)large]. *)
Definition MakeKey (a b : Z) : Z :=
  let small := Z.min a b in
  let large := Z.max a b in
  Z.lor (wrap_int64 (Z.shiftl small 32)) (to_uint32 large).

(** [GetMiddlePoint]: the index of the midpoint of edge (p1,p2), the vertex
    buffer and the cache after the call. *)
Definition GetMiddlePoint (p1 p2 : Z) (Vertices : list FVector)
    (Cache : gmap Z Z) : option (Z * (list FVector * gmap Z Z)) :=
  let key := MakeKey p1 p2 in
  match Cache !! key with
  | Some Found => Some (Found, (Vertices, Cache))
  | None =>
      match Index Vertices p1, Index Vertices p2 with
      | Some point1, Some point2 =>
          let middle := FVec.Normalize (FVec.Mul (FVec.Add point1 point2) (1 / 2)) in
          let i := Z.of_nat (length Vertices) in
          Some (i, (Vertices ++ [middle], <[key := i]> Cache))
      | _, _ => None
      end
  end.

(** The loop of [SubdivideIcosphere], [for (i = 0; i + 2 < Num; i += 3)]:
    [Triangles] is what is left to read, [newTriangles] what was added. *)
Fixpoint SubdivideLoop (Triangles : list Z) (Vertices : list FVector)
    (Cache : gmap Z Z) (newTriangles : list Z)
  : option (list FVector * list Z) :=
  match Triangles with
  | v1 :: v2 :: v3 :: rest =>
      match GetMiddlePoint v1 v2 Vertices Cache with
      | None => None
      | Some (a, (Vertices1, Cache1)) =>
          match GetMiddlePoint v2 v3 Vertices1 Cache1 with
          | None => None
          | Some (b, (Vertices2, Cache2)) =>
              match GetMiddlePoint v3 v1 Vertices2 Cache2 with
              | None => None
              | Some (c, (Vertices3, Cache3)) =>
                  SubdivideLoop rest Vertices3 Cache3
                    (newTriangles ++
                       [v1; a; c; v2; b; a; v3; c; b; a; b; c])
              end
          end
      end
  | _ => Some (Vertices, newTriangles)
  end.

Definition SubdivideIcosphere (Vertices : list FVector) (Triangles : list Z)
  : option (list FVector * list Z) :=
  SubdivideLoop Triangles Vertices ∅ [].

(** The golden ratio [t] and the twelve vertices of the icosahedron. *)
Definition t : R := (1 + sqrt 5) / 2.

Definition IcosahedronVertices : list FVector :=
  [ MkVector (-1) t 0; MkVector 1 t 0; MkVector (-1) (- t) 0;
    MkVector 1 (- t) 0;
    MkVector 0 (-1) t; MkVector 0 1 t; MkVector 0 (-1) (- t);
    MkVector 0 1 (- t);
    MkVector t 0 (-1); MkVector t 0 1; MkVector (- t) 0 (-1);
    MkVector (- t) 0 1 ].

Definition faceIndices : list Z :=
  [ 0;11;5;  0;5;1;  0;1;7;  0;7;10;  0;10;11;
    1;5;9;  5;11;4;  11;10;2;  10;7;6;  7;1;8;
    3;9;4;  3;4;2;  3;2;6;  3;6;8;  3;8;9;
    4;9;5;  2;4;11;  6;2;10;  8;6;7;  9;8;1 ]%Z.

(** [n] rounds of [SubdivideIcosphere]. *)
Fixpoint SubdivideTimes (n : nat) (Vertices : list FVector)
    (Triangles : list Z) : option (list FVector * list Z) :=
  match n with
  | O => Some (Vertices, Triangles)
  | S n' =>
      match SubdivideIcosphere Vertices Triangles with
      | None => None
      | Some (Vertices', Triangles') => SubdivideTimes n' Vertices' Triangles'
      end
  end.

(** [BuildBaseIcosphere]: the loop [for (i = 0; i < SubdivisionsLevel; ++i)]
    runs [Z.to_nat SubdivisionsLevel] times (not at all for a negative
    level). *)
Definition BuildBaseIcosphere (SubdivisionsLevel : Z)
  : option (list FVector * list Z) :=
  match SubdivideTimes (Z.to_nat SubdivisionsLevel)
          (NormalizeVertices IcosahedronVertices) faceIndices with
  | None => None
  | Some (Vertices, Triangles) => Some (NormalizeVertices Vertices, Triangles)
  end.

(** ** Noise displacement, mesh upload, statistics and the orchestrator *)

Section Generation.

Context (E : Engine).

(** The three offsets [ox, oy, oz] of a layer, drawn from a stream seeded
    with the layer's seed. *)
Definition LayerOffsets (seed : Z) : FVector :=
  let layerRand := FRandomStream_Init E seed in
  let (fx, layerRand1) := FRandomStream_FRand E layerRand in
  let (fy, layerRand2) := FRandomStream_FRand E layerRand1 in
  let (fz, _) := FRandomStream_FRand E layerRand2 in
  MkVector (fx * 1000) (fy * 1000) (fz * 1000).

(** The scalar displacement of one vertex for one layer, after the clamp. *)
Definition Displacement (Layer : FNoiseLayer) (o : FVector)
    (maxDisplacement : R) (V : FVector) : R :=
  let samplePoint := FVec.Add (FVec.Mul V (Scale Layer)) o in
  let nx := PerlinNoise3D E (FVec.Add samplePoint (MkVector 0 0 0)) in
  let ny := PerlinNoise3D E
              (FVec.Add samplePoint (MkVector (1313 / 100) (3737 / 100) (773 / 100))) in
  let nz := PerlinNoise3D E
              (FVec.Add samplePoint (MkVector (9797 / 100) (2121 / 100) (5555 / 100))) in
  let offset := FVec.Mul (FVec.Mul (MkVector nx ny nz) (Intensity Layer)) (1 / 2) in
  let normal := FVec.Normalize V in
  let displacement := FVec.DotProduct offset normal in
  Clamp displacement (- maxDisplacement) maxDisplacement.

(** The body of the per-vertex loop: [V = V + normal * displacement]. *)
Definition DisplaceVertex (Layer : FNoiseLayer) (o : FVector)
    (maxDisplacement : R) (V : FVector) : FVector :=
  let normal := FVec.Normalize V in
  FVec.Add V (FVec.Mul normal (Displacement Layer o maxDisplacement V)).

(** The seed of layer [layerIndex]:
    [LayerSeeds.IsValidIndex(layerIndex) ? LayerSeeds[layerIndex] : FMath::Rand()]. *)
Definition LayerSeed (LayerSeeds : list Z) (layerIndex : nat)
    (g : GlobalRand E) : Z * GlobalRand E :=
  match LayerSeeds !! layerIndex with
  | Some seed => (seed, g)
  | None => FMath_Rand E g
  end.

(** The loop over the layers; the inner loop updates every vertex from its
    own value only, so it is a [map]. *)
Fixpoint ApplyNoiseLoop (Layers : list FNoiseLayer) (layerIndex : nat)
    (LayerSeeds : list Z) (MaxDisplacementFrac : R)
    (Vertices : list FVector) (g : GlobalRand E)
  : list FVector * GlobalRand E :=
  match Layers with
  | [] => (Vertices, g)
  | Layer :: rest =>
      let (seed, g') := LayerSeed LayerSeeds layerIndex g in
      let o := LayerOffsets seed in
      ApplyNoiseLoop rest (S layerIndex) LayerSeeds MaxDisplacementFrac
        (map (DisplaceVertex Layer o MaxDisplacementFrac) Vertices) g'
  end.

Definition ApplyNoiseLayers (Layers : list FNoiseLayer) (LayerSeeds : list Z)
    (MaxDisplacementFrac : R) (Vertices : list FVector) (g : GlobalRand E)
  : list FVector * GlobalRand E :=
  match Vertices with
  | [] => ([], g)
  | _ => ApplyNoiseLoop Layers 0 LayerSeeds MaxDisplacementFrac Vertices g
  end.

(** The accumulation loop of [CreateMeshFromData]; a triangle with an index
    outside the vertex buffer is skipped. *)
Fixpoint AccumulateNormals (Triangles : list Z) (Vertices : list FVector)
    (Normals : list FVector) : list FVector :=
  match Triangles with
  | i0 :: i1 :: i2 :: rest =>
      match Index Vertices i0, Index Vertices i1, Index Vertices i2 with
      | Some v0, Some v1, Some v2 =>
          let faceNormal :=
            FVec.GetSafeNormal
              (FVec.CrossProduct (FVec.Sub v1 v0) (FVec.Sub v2 v0)) in
          let bump := fun N => FVec.Add N faceNormal in
          AccumulateNormals rest Vertices
            (alter bump (Z.to_nat i2)
               (alter bump (Z.to_nat i1)
                  (alter bump (Z.to_nat i0) Normals)))
      | _, _, _ => AccumulateNormals rest Vertices Normals
      end
  | _ => Normals
  end.

Definition CreateMeshFromData (Vertices : list FVector) (Triangles : list Z)
    (bCreateCollision : bool) : list Event :=
  let Normals :=
    map FVec.Normalize
      (AccumulateNormals Triangles Vertices
         (replicate (length Vertices) FVec.ZeroVector)) in
  CreateMeshSection 0 Vertices Triangles Normals bCreateCollision
  :: (if bCreateCollision
      then [SetCollisionEnabled; SetCollisionObjectType]
      else []).

(** [CalculateVolumeFromRadius]; the engine's constant [PI] is read as the
    real number pi. *)
Definition CalculateVolumeFromRadius (Radius : R) : R :=
  (4 / 3) * PI * Radius * Radius * Radius.

(** [CalculateStats] fills radius, volume and mass and empties the seeds. *)
Definition CalculateStats (Density : R) (ChosenRadius : R) : FAsteroidStats :=
  let Volume := CalculateVolumeFromRadius ChosenRadius in
  {| Radius := ChosenRadius;
     Volume := Volume;
     Mass := Volume * Density;
     NoiseLayerSeeds := [] |}.

(** The resolved global seed. *)
Definition PickGlobalSeed (GlobalSeed : Z) (g : GlobalRand E)
  : Z * GlobalRand E :=
  if (GlobalSeed <? 0)%Z then FMath_Rand E g else (GlobalSeed, g).

(** The loop that prepares the per-layer seeds. *)
Fixpoint PrepareLayerSeeds (Layers : list FNoiseLayer)
    (GlobalRandStream : FRandomStream E) (LayerSeeds : list Z) : list Z :=
  match Layers with
  | [] => LayerSeeds
  | Layer :: rest =>
      if (Seed Layer <? 0)%Z
      then
        let (seed, GlobalRandStream') :=
          FRandomStream_RandRange E 0 INT32_MAX GlobalRandStream in
        PrepareLayerSeeds rest GlobalRandStream' (LayerSeeds ++ [seed])
      else PrepareLayerSeeds rest GlobalRandStream (LayerSeeds ++ [Seed Layer])
  end.

Definition ScaleVertices (ChosenRadius : R) (Vertices : list FVector)
  : list FVector :=
  map (fun V => FVec.Mul V ChosenRadius) Vertices.

Definition SetStats (A : AAsteroidActor) (Stats : FAsteroidStats)
  : AAsteroidActor :=
  {| Subdivisions := Subdivisions A;
     MinRadius := MinRadius A;
     MaxRadius := MaxRadius A;
     Density := Density A;
     GlobalSeed := GlobalSeed A;
     NoiseLayers := NoiseLayers A;
     MaxDisplacementFraction := MaxDisplacementFraction A;
     bEnablePhysics := bEnablePhysics A;
     AsteroidStats := Stats |}.

Definition SetSeeds (Stats : FAsteroidStats) (LayerSeeds : list Z)
  : FAsteroidStats :=
  {| Radius := Radius Stats;
     Volume := Volume Stats;
     Mass := Mass Stats;
     NoiseLayerSeeds := LayerSeeds |}.

(** [GenerateAsteroid]: the actor after the call, the state of the
    process-wide generator, and the calls made, in order. *)
Definition GenerateAsteroid (A : AAsteroidActor) (g : GlobalRand E)
  : option (AAsteroidActor * GlobalRand E * list Event) :=
  let (UsedGlobalSeed, g1) := PickGlobalSeed (GlobalSeed A) g in
  let LayerSeeds :=
    PrepareLayerSeeds (NoiseLayers A) (FRandomStream_Init E UsedGlobalSeed) [] in
  match BuildBaseIcosphere (Subdivisions A) with
  | None => None
  | Some (Vertices0, Triangles) =>
      let (Vertices1, g2) :=
        ApplyNoiseLayers (NoiseLayers A) LayerSeeds
          (MaxDisplacementFraction A) Vertices0 g1 in
      let Vertices2 := NormalizeVertices Vertices1 in
      let (ChosenRadius, g3) :=
        FMath_RandRange E (MinRadius A) (MaxRadius A) g2 in
      let Vertices3 := ScaleVertices ChosenRadius Vertices2 in
      let Stats :=
        SetSeeds (CalculateStats (Density A) ChosenRadius) LayerSeeds in
      let A' := SetStats A Stats in
      Some (A', g3,
            CreateMeshFromData Vertices3 Triangles false
            ++ [ClearCollisionConvexMeshes;
                AddCollisionConvexMesh Vertices3;
                SetCollisionEnabled]
            ++ (if bEnablePhysics A
                then [SetSimulatePhysics true;
                      SetMassOverrideInKg (Mass Stats)]
                else [])
            ++ [Broadcast (AsteroidStats A');
                LogGenerated (Radius (AsteroidStats A'))
                  (Volume (AsteroidStats A')) (Mass (AsteroidStats A'))])
  end.

(** [BeginPlay] calls [GenerateAsteroid] once. *)
Definition BeginPlay (A : AAsteroidActor) (g : GlobalRand E)
  : option (AAsteroidActor * GlobalRand E * list Event) :=
  GenerateAsteroid A g.

End Generation.

(** The delegate hands the same [const FAsteroidStats&] to every bound
    subscriber: what each subscriber receives over a trace. *)
Definition Deliveries {S : Type} (Subscribers : list S) (Trace : list Event)
  : list (S * FAsteroidStats) :=
  flat_map
    (fun e =>
       match e with
       | Broadcast Stats => map (fun s => (s, Stats)) Subscribers
       | _ => []
       end)
    Trace.

(** A sequence of midpoint requests made during one subdivision pass, that
    is, threaded through one vertex buffer and one cache as the loop of
    [SubdivideIcosphere] does: the indices returned, in order, and the final
    buffer and cache. *)
Fixpoint MiddlePoints (Edges : list (Z * Z)) (Vertices : list FVector)
    (Cache : gmap Z Z) : option (list Z * (list FVector * gmap Z Z)) :=
  match Edges with
  | [] => Some ([], (Vertices, Cache))
  | (p1, p2) :: rest =>
      match GetMiddlePoint p1 p2 Vertices Cache with
      | None => None
      | Some (i, (Vertices', Cache')) =>
          match MiddlePoints rest Vertices' Cache' with
          | None => None
          | Some (found, final) => Some (i :: found, final)
          end
      end
  end.

(** ** Predicates used in the statements *)

(** [i] is a valid index of an array of [n] elements. *)
Definition ValidIndex (n : nat) (i : Z) : Prop :=
  (0 <= i < Z.of_nat n)%Z.

(** Every cached midpoint index points into a buffer of [n] vertices. *)
Definition CacheValid (n : nat) (Cache : gmap Z Z) : Prop :=
  forall key i, Cache !! key = Some i -> ValidIndex n i.

(** One clamped radial step: [V' = V + normalize(V) * d] with [|d| <= m]. *)
Definition RadialStep (m : R) (V V' : FVector) : Prop :=
  exists d : R, Rabs d <= m /\ V' = FVec.Add V (FVec.Mul (FVec.Normalize V) d).

(** [n] successive passes over a vertex buffer, each pass moving every vertex
    by one clamped radial step. *)
Inductive ClampedPasses (m : R) : nat -> list FVector -> list FVector -> Prop :=
| ClampedPasses_done (Vertices : list FVector) :
    ClampedPasses m 0 Vertices Vertices
| ClampedPasses_layer (n : nat) (Vertices Vertices1 Vertices2 : list FVector) :
    Forall2 (RadialStep m) Vertices Vertices1 ->
    ClampedPasses m n Vertices1 Vertices2 ->
    ClampedPasses m (S n) Vertices Vertices2.

Section Plans.

Context (E : Engine).

(** The layers paired with the offsets [ApplyNoiseLayers] draws for them,
    for the layers whose index is valid in [LayerSeeds]. *)
Fixpoint LayerPlan (Layers : list FNoiseLayer) (layerIndex : nat)
    (LayerSeeds : list Z) : list (FNoiseLayer * FVector) :=
  match Layers with
  | [] => []
  | Layer :: rest =>
      match LayerSeeds !! layerIndex with
      | Some seed =>
          (Layer, LayerOffsets E seed) :: LayerPlan rest (S layerIndex) LayerSeeds
      | None => []
      end
  end.

(** One vertex taken through the layers of a plan, in order. *)
Fixpoint DisplaceThrough (Plan : list (FNoiseLayer * FVector)) (m : R)
    (V : FVector) : FVector :=
  match Plan with
  | [] => V
  | (Layer, o) :: rest =>
      DisplaceThrough rest m (DisplaceVertex E Layer o m V)
  end.

(** Along the plan, every clamped displacement [d] of the vertex satisfies
    [d > -|V|], and the displaced vertex keeps a squared length above the
    tolerance of [Normalize]. *)
Fixpoint StaysClear (Plan : list (FNoiseLayer * FVector)) (m : R)
    (V : FVector) : Prop :=
  match Plan with
  | [] => True
  | (Layer, o) :: rest =>
      let d := Displacement E Layer o m V in
      d > - FVec.Size V /\
      (FVec.Size V + d) * (FVec.Size V + d) > FVec.SMALL_NUMBER /\
      StaysClear rest m (DisplaceVertex E Layer o m V)
  end.

(** The proviso with the displacement bound alone: [d > -|V|] at every
    layer. *)
Fixpoint AboveMinusSize (Plan : list (FNoiseLayer * FVector)) (m : R)
    (V : FVector) : Prop :=
  match Plan with
  | [] => True
  | (Layer, o) :: rest =>
      Displacement E Layer o m V > - FVec.Size V /\
      AboveMinusSize rest m (DisplaceVertex E Layer o m V)
  end.

(** The global seed a run uses and the state of the process-wide
    generator after it was picked. *)
Definition UsedGlobalSeed (A : AAsteroidActor) (g : GlobalRand E) : Z :=
  fst (PickGlobalSeed E (GlobalSeed A) g).

(** The per-layer seeds a run prepares. *)
Definition ResolvedLayerSeeds (A : AAsteroidActor) (g : GlobalRand E)
  : list Z :=
  PrepareLayerSeeds E (NoiseLayers A)
    (FRandomStream_Init E (UsedGlobalSeed A g)) [].

(** The plan of a run. *)
Definition RunPlan (A : AAsteroidActor) (g : GlobalRand E)
  : list (FNoiseLayer * FVector) :=
  LayerPlan (NoiseLayers A) 0 (ResolvedLayerSeeds A g).

(** The radius a run draws. *)
Definition ChosenRadius (A : AAsteroidActor) (g : GlobalRand E) : R :=
  fst (FMath_RandRange E (MinRadius A) (MaxRadius A)
         (snd (PickGlobalSeed E (GlobalSeed A) g))).

(** The statistics a run stores. *)
Definition RunStats (A : AAsteroidActor) (g : GlobalRand E) : FAsteroidStats :=
  {| Radius := ChosenRadius A g;
     Volume := CalculateVolumeFromRadius (ChosenRadius A g);
     Mass := CalculateVolumeFromRadius (ChosenRadius A g) * Density A;
     NoiseLayerSeeds := ResolvedLayerSeeds A g |}.

(** The final vertices of a run whose base icosphere has the vertices
    [Base]: displaced through the plan, re-normalised, scaled. *)
Definition RunVertices (A : AAsteroidActor) (g : GlobalRand E)
    (Base : list FVector) : list FVector :=
  ScaleVertices (ChosenRadius A g)
    (NormalizeVertices
       (map (DisplaceThrough (RunPlan A g) (MaxDisplacementFraction A)) Base)).

(** The calls a run makes, given its base triangles. *)
Definition RunTrace (A : AAsteroidActor) (g : GlobalRand E)
    (Base : list FVector) (Triangles : list Z) : list Event :=
  CreateMeshFromData (RunVertices A g Base) Triangles false
  ++ [ClearCollisionConvexMeshes;
      AddCollisionConvexMesh (RunVertices A g Base);
      SetCollisionEnabled]
  ++ (if bEnablePhysics A
      then [SetSimulatePhysics true; SetMassOverrideInKg (Mass (RunStats A g))]
      else [])
  ++ [Broadcast (RunStats A g);
      LogGenerated (Radius (RunStats A g)) (Volume (RunStats A g))
        (Mass (RunStats A g))].

(** The [n]-th value (from 0) of successive [RandRange(0, INT32_MAX)] calls
    on a stream. *)
Fixpoint StreamDraw (s : FRandomStream E) (n : nat) : Z :=
  let (seed, s') := FRandomStream_RandRange E 0 INT32_MAX s in
  match n with
  | O => seed
  | S n' => StreamDraw s' n'
  end.

End Plans.

(** How many of the layers ask for a derived seed. *)
Fixpoint DerivedCount (Layers : list FNoiseLayer) : nat :=
  match Layers with
  | [] => 0
  | Layer :: rest =>
      ((if (Seed Layer <? 0)%Z then 1 else 0) + DerivedCount rest)%nat
  end.

(** The vertices and triangles handed to [CreateMeshSection], and the
    broadcasts, read off a trace. *)
Definition UploadedMeshes (Trace : list Event)
  : list (list FVector * list Z) :=
  flat_map
    (fun e =>
       match e with
       | CreateMeshSection _ Vertices Triangles _ _ => [(Vertices, Triangles)]
       | _ => []
       end)
    Trace.

Definition Broadcasts (Trace : list Event) : list FAsteroidStats :=
  flat_map
    (fun e => match e with Broadcast Stats => [Stats] | _ => [] end)
    Trace.

(** The same actor with another list of noise layers. *)
Definition WithNoiseLayers (A : AAsteroidActor) (Layers : list FNoiseLayer)
  : AAsteroidActor :=
  {| Subdivisions := Subdivisions A;
     MinRadius := MinRadius A;
     MaxRadius := MaxRadius A;
     Density := Density A;
     GlobalSeed := GlobalSeed A;
     NoiseLayers := Layers;
     MaxDisplacementFraction := MaxDisplacementFraction A;
     bEnablePhysics := bEnablePhysics A;
     AsteroidStats := AsteroidStats A |}.

(** ** An executable stand-in for the engine

    The process-wide generator is a script of the values [rand()] will
    return ([FRand] divides by [RAND_MAX]); a stream is a counter; the noise
    field is constant. *)

Definition RAND_MAX : Z := 32767.

Definition ScriptedRand (g : list Z) : Z * list Z :=
  match g with
  | [] => (0%Z, [])
  | r :: g' => (r, g')
  end.

Definition ScriptedEngine (noise : R) : Engine :=
  {| GlobalRand := list Z;
     FMath_Rand := ScriptedRand;
     FMath_FRand := fun g =>
       let (r, g') := ScriptedRand g in (IZR r / IZR RAND_MAX, g');
     FRandomStream := Z;
     FRandomStream_Init := fun seed => seed;
     FRandomStream_FRand := fun s => (IZR (s mod 1000) / 1000, (s + 1)%Z);
     FRandomStream_RandRange := fun Min Max s =>
       ((Min + s mod (Max - Min + 1))%Z, (s + 1)%Z);
     PerlinNoise3D := fun _ => noise |}.

Definition NoStats : FAsteroidStats :=
  {| Radius := 0; Volume := 0; Mass := 0; NoiseLayerSeeds := [] |}.

(** ** Concrete runs *)

(** Vertex 1 of the base icosphere at level 0: [(1, t, 0)] normalised by
    [BuildBaseIcosphere] before and after its (empty) subdivision loop. *)
Definition BaseVertex1 : FVector :=
  FVec.Normalize (FVec.Normalize (MkVector 1 t 0)).

(** A strong layer: intensity 1000, explicit seed 42. *)
Definition StrongLayer : FNoiseLayer := MkNoiseLayer (1 / 10) 1000 42.

(** Level 0, radius range [100, 100], explicit global seed 7, the strong
    layer alone, and [MaxDisplacementFraction = m]. *)
Definition StrongActor (m : R) : AAsteroidActor :=
  MkActor 0 100 100 2000 7 [StrongLayer] m true NoStats.

(** The engine stand-in whose noise field is -1 everywhere. *)
Definition LowNoiseEngine : Engine := ScriptedEngine (-1).

(** Level 0, the default radius range [250, 1000], explicit global seed 7
    and one layer with the explicit seed 42. *)
Definition SeededActor : AAsteroidActor :=
  MkActor 0 250 1000 7874 7 [MkNoiseLayer (1 / 10) 1 42] (1 / 2) true NoStats.

(** The engine stand-in whose noise field is 0 everywhere. *)
Definition QuietEngine : Engine := ScriptedEngine 0.

(** ** Further notions for the statements about the mesh *)

(** The triangles of a flat index list, as the loops read them: three
    indices at a time, an incomplete last group being ignored. *)
Fixpoint Faces (Triangles : list Z) : list (Z * Z * Z) :=
  match Triangles with
  | v1 :: v2 :: v3 :: rest => (v1, v2, v3) :: Faces rest
  | _ => []
  end.

(** The cache keys of the edges of the triangles, in the order
    [SubdivideIcosphere] requests their midpoints. *)
Fixpoint EdgeKeys (Triangles : list Z) : list Z :=
  match Triangles with
  | v1 :: v2 :: v3 :: rest =>
      MakeKey v1 v2 :: MakeKey v2 v3 :: MakeKey v3 v1 :: EdgeKeys rest
  | _ => []
  end.

(** Every vertex has length 1. *)
Definition UnitSphere (Vertices : list FVector) : Prop :=
  Forall (fun V => FVec.SizeSquared V = 1) Vertices.

(** The triple product [a . (b x c)]. *)
Definition Triple (a b c : FVector) : R :=
  FVec.DotProduct a (FVec.CrossProduct b c).

(** The corners of a face exist, are pairwise at most a right angle apart,
    and are listed so that their triple product is positive. *)
Definition SphereFace (Vertices : list FVector) (f : Z * Z * Z) : Prop :=
  let '(i1, i2, i3) := f in
  exists U1 U2 U3 : FVector,
    Index Vertices i1 = Some U1 /\ Index Vertices i2 = Some U2 /\
    Index Vertices i3 = Some U3 /\
    0 <= FVec.DotProduct U1 U2 /\ 0 <= FVec.DotProduct U2 U3 /\
    0 <= FVec.DotProduct U3 U1 /\
    0 < Triple U1 U2 U3.

(** The vertex [GetMiddlePoint] creates for two endpoints. *)
Definition MiddleOf (point1 point2 : FVector) : FVector :=
  FVec.Normalize (FVec.Mul (FVec.Add point1 point2) (1 / 2)).

(** Every cache entry is the midpoint of the edge it is filed under. *)
Definition CacheMidpoints (Vertices : list FVector) (Cache : gmap Z Z) : Prop :=
  forall key i,
    Cache !! key = Some i ->
    exists (p q : Z) (P Q : FVector),
      key = MakeKey p q /\
      Index Vertices p = Some P /\ Index Vertices q = Some Q /\
      Index Vertices i = Some (MiddleOf P Q).

(** Every vertex is left as it is by [Normalize]. *)
Definition Normalized (Vertices : list FVector) : Prop :=
  Forall (fun V => FVec.Normalize V = V) Vertices.

(** ** The mesh component as the actor's calls leave it *)

(** The sections created and the convex meshes added, read off a trace. *)
Definition UploadedSections (Trace : list Event)
  : list (Z * list FVector * list Z * list FVector * bool) :=
  flat_map
    (fun e =>
       match e with
       | CreateMeshSection i Vertices Triangles Normals bCreateCollision =>
           [(i, Vertices, Triangles, Normals, bCreateCollision)]
       | _ => []
       end)
    Trace.

(** What the calls of the actor change in a [UProceduralMeshComponent]:
    [CreateMeshSection] creates or replaces the section of that index,
    [ClearCollisionConvexMeshes] removes every convex mesh,
    [AddCollisionConvexMesh] adds one, and the two physics calls set the
    simulation flag and the mass override. *)
Record ProcMeshState := MkProcMesh {
  MeshSections : gmap Z (list FVector * list Z * list FVector);
  CollisionConvexMeshes : list (list FVector);
  SimulatingPhysics : bool;
  MassOverrideInKg : option R
}.

Definition ApplyEvent (s : ProcMeshState) (e : Event) : ProcMeshState :=
  match e with
  | CreateMeshSection i Vertices Triangles Normals _ =>
      MkProcMesh (<[i := (Vertices, Triangles, Normals)]> (MeshSections s))
        (CollisionConvexMeshes s) (SimulatingPhysics s) (MassOverrideInKg s)
  | ClearCollisionConvexMeshes =>
      MkProcMesh (MeshSections s) [] (SimulatingPhysics s) (MassOverrideInKg s)
  | AddCollisionConvexMesh Vertices =>
      MkProcMesh (MeshSections s) (CollisionConvexMeshes s ++ [Vertices])
        (SimulatingPhysics s) (MassOverrideInKg s)
  | SetSimulatePhysics b =>
      MkProcMesh (MeshSections s) (CollisionConvexMeshes s) b (MassOverrideInKg s)
  | SetMassOverrideInKg m =>
      MkProcMesh (MeshSections s) (CollisionConvexMeshes s)
        (SimulatingPhysics s) (Some m)
  | _ => s
  end.

Definition ApplyTrace (s : ProcMeshState) (Trace : list Event) : ProcMeshState :=
  fold_left ApplyEvent Trace s.

(** ** The actor as its constructor leaves it *)

Definition DefaultNoiseLayer : FNoiseLayer := MkNoiseLayer (1 / 10) 1 (-1).

(** The constructor adds the default layer when there is no layer. *)
Definition ConstructNoiseLayers (NoiseLayers : list FNoiseLayer)
  : list FNoiseLayer :=
  match NoiseLayers with
  | [] => [DefaultNoiseLayer]
  | _ => NoiseLayers
  end.

(** The member defaults of the header, and the layers of the constructor. *)
Definition ConstructedActor : AAsteroidActor :=
  MkActor 2 250 1000 7874 (-1) (ConstructNoiseLayers []) (1 / 2) true NoStats.

(** The vertex lists handed to [AddCollisionConvexMesh], read off a trace. *)
Definition AddedConvexMeshes (Trace : list Event) : list (list FVector) :=
  flat_map
    (fun e => match e with AddCollisionConvexMesh Vertices => [Vertices] | _ => [] end)
    Trace.

(** ** The children of a face *)

(** The index a cache holds for a key (0 when it holds none). *)
Definition CachedIndex (Cache : gmap Z Z) (key : Z) : Z :=
  default 0%Z (Cache !! key).

(** The twelve indices [SubdivideIcosphere] writes for a face, given the
    midpoint index of each edge key. *)
Definition ChildFaces (Mid : Z -> Z) (f : Z * Z * Z) : list Z :=
  let '(v1, v2, v3) := f in
  let a := Mid (MakeKey v1 v2) in
  let b := Mid (MakeKey v2 v3) in
  let c := Mid (MakeKey v3 v1) in
  [v1; a; c; v2; b; a; v3; c; b; a; b; c].

(** No two keys of the cache hold the same index. *)
Definition CacheInjective (Cache : gmap Z Z) : Prop :=
  forall key1 key2 i,
    Cache !! key1 = Some i -> Cache !! key2 = Some i -> key1 = key2.

(** Every index of the cache is at least [n0]. *)
Definition CacheFrom (n0 : nat) (Cache : gmap Z Z) : Prop :=
  forall key i, Cache !! key = Some i -> (Z.of_nat n0 <= i)%Z.

(** ** The requests of one pass *)

(** The edges whose midpoints [SubdivideIcosphere] requests, in order. *)
Fixpoint TriangleEdges (Triangles : list Z) : list (Z * Z) :=
  match Triangles with
  | v1 :: v2 :: v3 :: rest =>
      (v1, v2) :: (v2, v3) :: (v3, v1) :: TriangleEdges rest
  | _ => []
  end.

(** Every cache entry is filed under the key of an edge of the buffer the
    pass started from, and points at the midpoint of that edge. *)
Definition PassCache (Vertices0 Vertices : list FVector) (Cache : gmap Z Z)
  : Prop :=
  forall key i,
    Cache !! key = Some i ->
    exists (p q : Z) (P Q : FVector),
      key = MakeKey p q /\
      Index Vertices0 p = Some P /\ Index Vertices0 q = Some Q /\
      Index Vertices i = Some (MiddleOf P Q).

(** Every index from [n0] up to [n] is held by some cache entry. *)
Definition CacheOnto (n0 n : nat) (Cache : gmap Z Z) : Prop :=
  forall i : nat,
    (n0 <= i < n)%nat -> exists key, Cache !! key = Some (Z.of_nat i).

(** What holds of the buffer and the cache at every point of a pass that
    started from the buffer [Vertices0] and an empty cache. *)
Record PassState (Vertices0 Vertices : list FVector) (Cache : gmap Z Z)
  : Prop := MkPassState {
  pass_prefix : exists new, Vertices = Vertices0 ++ new;
  pass_valid : CacheValid (length Vertices) Cache;
  pass_injective : CacheInjective Cache;
  pass_from : CacheFrom (length Vertices0) Cache;
  pass_midpoints : PassCache Vertices0 Vertices Cache;
  pass_onto : CacheOnto (length Vertices0) (length Vertices) Cache
}.

(** ** Faces and normals that point away from the origin *)

(** The corners of a face exist, and the cross product
    [(v1 - v0) x (v2 - v0)] that [CreateMeshFromData] takes for it has a
    positive dot product with each of them. *)
Definition OutwardFace (Vertices : list FVector) (f : Z * Z * Z) : Prop :=
  let '(i0, i1, i2) := f in
  exists v0 v1 v2 : FVector,
    Index Vertices i0 = Some v0 /\ Index Vertices i1 = Some v1 /\
    Index Vertices i2 = Some v2 /\
    0 < FVec.DotProduct
          (FVec.CrossProduct (FVec.Sub v1 v0) (FVec.Sub v2 v0)) v0 /\
    0 < FVec.DotProduct
          (FVec.CrossProduct (FVec.Sub v1 v0) (FVec.Sub v2 v0)) v1 /\
    0 < FVec.DotProduct
          (FVec.CrossProduct (FVec.Sub v1 v0) (FVec.Sub v2 v0)) v2.

(** A normal that is zero or on the side of its vertex. *)
Definition OutwardNormal (N V : FVector) : Prop :=
  N = FVec.ZeroVector \/ 0 < FVec.DotProduct N V.

Definition OutwardNormals (Vertices Normals : list FVector) : Prop :=
  forall (j : nat) (N V : FVector),
    Normals !! j = Some N -> Vertices !! j = Some V -> OutwardNormal N V.

(** * Properties *)

(** ** Indexing *)

Lemma ValidIndex_mono (n m : nat) (i : Z) :
  ValidIndex n i -> (n <= m)%nat -> ValidIndex m i.
Proof. unfold ValidIndex. lia. Qed.

Lemma Index_Some {A : Type} (l : list A) (i : Z) :
  ValidIndex (length l) i -> exists x, Index l i = Some x.
Proof.
  intros [Hlo Hhi]. unfold Index.
  destruct (Z.ltb_spec i 0) as [Hneg | _]; [lia |].
  destruct (lookup_lt_is_Some_2 l (Z.to_nat i)) as [x Hx]; [lia |].
  exists x. exact Hx.
Qed.

Lemma Index_valid {A : Type} (l : list A) (i : Z) (x : A) :
  Index l i = Some x -> ValidIndex (length l) i.
Proof.
  unfold Index, ValidIndex.
  destruct (Z.ltb_spec i 0) as [Hneg | Hpos]; [discriminate |].
  intros Hx. apply lookup_lt_Some in Hx. lia.
Qed.

Lemma CacheValid_mono (n m : nat) (Cache : gmap Z Z) :
  CacheValid n Cache -> (n <= m)%nat -> CacheValid m Cache.
Proof.
  intros HC Hle key i Hk. eapply ValidIndex_mono; [exact (HC key i Hk) | exact Hle].
Qed.

Lemma CacheValid_empty (n : nat) : CacheValid n ∅.
Proof. intros key i Hk. rewrite lookup_empty in Hk. discriminate. Qed.

(** ** The cache key *)

Lemma MakeKey_sym (p1 p2 : Z) : MakeKey p1 p2 = MakeKey p2 p1.
Proof. unfold MakeKey. rewrite Z.min_comm, Z.max_comm. reflexivity. Qed.

Lemma lor_high_low (s l : Z) :
  (0 <= l < 2 ^ 32)%Z -> Z.lor (s * 2 ^ 32) l = (s * 2 ^ 32 + l)%Z.
Proof.
  intros Hl.
  assert (Hland : Z.land (s * 2 ^ 32) l = 0%Z).
  { apply Z.bits_inj'. intros n Hn. rewrite Z.land_spec, Z.bits_0.
    destruct (Z.lt_ge_cases n 32) as [Hlt | Hge].
    - rewrite Z.mul_pow2_bits_low by lia. reflexivity.
    - rewrite <- (Z.mod_small l (2 ^ 32)) by lia.
      rewrite Z.mod_pow2_bits_high by lia. apply andb_false_r. }
  pose proof (Z.add_lor_land (s * 2 ^ 32) l) as Hadd.
  rewrite Hland in Hadd. lia.
Qed.

(** For indices of an array the key is [min * 2^32 + max]. *)
Lemma MakeKey_value (a b : Z) :
  (0 <= a < 2 ^ 31)%Z -> (0 <= b < 2 ^ 31)%Z ->
  MakeKey a b = (Z.min a b * 2 ^ 32 + Z.max a b)%Z.
Proof.
  intros Ha Hb. unfold MakeKey, wrap_int64, to_uint32.
  rewrite Z.shiftl_mul_pow2 by lia.
  assert (Hs : (0 <= Z.min a b < 2 ^ 31)%Z) by lia.
  assert (Hl : (0 <= Z.max a b < 2 ^ 31)%Z) by lia.
  rewrite (Z.mod_small (Z.max a b)) by lia.
  rewrite (Z.mod_small (Z.min a b * 2 ^ 32 + 2 ^ 63)) by lia.
  replace (Z.min a b * 2 ^ 32 + 2 ^ 63 - 2 ^ 63)%Z with (Z.min a b * 2 ^ 32)%Z by lia.
  apply lor_high_low. lia.
Qed.

(** Two edges between array indices share a key only when they are the same
    unordered pair. *)
Lemma MakeKey_inj (a b c d : Z) :
  (0 <= a < 2 ^ 31)%Z -> (0 <= b < 2 ^ 31)%Z ->
  (0 <= c < 2 ^ 31)%Z -> (0 <= d < 2 ^ 31)%Z ->
  MakeKey a b = MakeKey c d ->
  Z.min a b = Z.min c d /\ Z.max a b = Z.max c d.
Proof.
  intros Ha Hb Hc Hd. rewrite !MakeKey_value by assumption. lia.
Qed.

(** ** [GetMiddlePoint] *)

Lemma GetMiddlePoint_hit (p1 p2 : Z) (Vertices : list FVector)
    (Cache : gmap Z Z) (i : Z) :
  Cache !! MakeKey p1 p2 = Some i ->
  GetMiddlePoint p1 p2 Vertices Cache = Some (i, (Vertices, Cache)).
Proof. intros Hk. unfold GetMiddlePoint. rewrite Hk. reflexivity. Qed.

Lemma GetMiddlePoint_miss (p1 p2 : Z) (Vertices : list FVector)
    (Cache : gmap Z Z) (point1 point2 : FVector) :
  Cache !! MakeKey p1 p2 = None ->
  Index Vertices p1 = Some point1 ->
  Index Vertices p2 = Some point2 ->
  GetMiddlePoint p1 p2 Vertices Cache =
  Some (Z.of_nat (length Vertices),
        (Vertices ++ [FVec.Normalize (FVec.Mul (FVec.Add point1 point2) (1 / 2))],
         <[MakeKey p1 p2 := Z.of_nat (length Vertices)]> Cache)).
Proof.
  intros Hk H1 H2. unfold GetMiddlePoint. rewrite Hk, H1, H2. reflexivity.
Qed.

(** A call leaves the old vertices and the old cache entries in place. *)
Lemma GetMiddlePoint_extends (p1 p2 : Z) (Vertices Vertices' : list FVector)
    (Cache Cache' : gmap Z Z) (i : Z) :
  GetMiddlePoint p1 p2 Vertices Cache = Some (i, (Vertices', Cache')) ->
  (exists new, Vertices' = Vertices ++ new) /\ Cache ⊆ Cache' /\
  Cache' !! MakeKey p1 p2 = Some i.
Proof.
  unfold GetMiddlePoint.
  destruct (Cache !! MakeKey p1 p2) as [Found |] eqn:Hk.
  - intros [= <- <- <-]. split; [exists []; symmetry; apply app_nil_r |].
    split; [reflexivity | exact Hk].
  - destruct (Index Vertices p1) as [point1 |]; [| discriminate].
    destruct (Index Vertices p2) as [point2 |]; [| discriminate].
    intros [= <- <- <-]. split; [eexists; reflexivity |].
    split; [apply insert_subseteq; exact Hk | apply lookup_insert_eq].
Qed.

Lemma GetMiddlePoint_ok (p1 p2 : Z) (Vertices : list FVector)
    (Cache : gmap Z Z) :
  CacheValid (length Vertices) Cache ->
  ValidIndex (length Vertices) p1 ->
  ValidIndex (length Vertices) p2 ->
  exists i Vertices' Cache',
    GetMiddlePoint p1 p2 Vertices Cache = Some (i, (Vertices', Cache')) /\
    ValidIndex (length Vertices') i /\
    CacheValid (length Vertices') Cache' /\
    (length Vertices <= length Vertices')%nat.
Proof.
  intros HC H1 H2.
  destruct (Cache !! MakeKey p1 p2) as [Found |] eqn:Hk.
  - exists Found, Vertices, Cache.
    rewrite (GetMiddlePoint_hit _ _ _ _ _ Hk).
    split; [reflexivity |]. split; [exact (HC _ _ Hk) |]. split; [exact HC | lia].
  - destruct (Index_Some Vertices p1 H1) as [point1 Hp1].
    destruct (Index_Some Vertices p2 H2) as [point2 Hp2].
    rewrite (GetMiddlePoint_miss _ _ _ _ _ _ Hk Hp1 Hp2).
    eexists _, _, _. split; [reflexivity |].
    rewrite length_app. cbn [length].
    split; [unfold ValidIndex; lia |]. split; [| lia].
    intros key i Hi.
    destruct (decide (MakeKey p1 p2 = key)) as [Heq | Hne].
    + subst key. rewrite lookup_insert_eq in Hi. injection Hi as <-. unfold ValidIndex. lia.
    + rewrite lookup_insert_ne in Hi by exact Hne.
      eapply ValidIndex_mono; [exact (HC _ _ Hi) | lia].
Qed.

(** ** Subdivision *)

Lemma Forall_ValidIndex_mono (n m : nat) (l : list Z) :
  Forall (ValidIndex n) l -> (n <= m)%nat -> Forall (ValidIndex m) l.
Proof.
  intros Hl Hle. eapply Forall_impl; [exact Hl |].
  intros i Hi. exact (ValidIndex_mono _ _ _ Hi Hle).
Qed.

(** On [3 * k] valid indices the loop runs to its end, adds twelve valid
    indices per triangle, and never shrinks the vertex buffer. *)
Lemma SubdivideLoop_ok (k : nat) :
  forall (Triangles : list Z) (Vertices : list FVector) (Cache : gmap Z Z)
         (newTriangles : list Z),
    length Triangles = (3 * k)%nat ->
    Forall (ValidIndex (length Vertices)) Triangles ->
    CacheValid (length Vertices) Cache ->
    Forall (ValidIndex (length Vertices)) newTriangles ->
    exists Vertices' Triangles',
      SubdivideLoop Triangles Vertices Cache newTriangles
        = Some (Vertices', Triangles') /\
      length Triangles' = (length newTriangles + 12 * k)%nat /\
      Forall (ValidIndex (length Vertices')) Triangles' /\
      (length Vertices <= length Vertices')%nat.
Proof.
  induction k as [| k IH]; intros Triangles Vertices Cache newTriangles Hlen HT HC HN.
  - destruct Triangles; [| discriminate]. cbn [SubdivideLoop].
    exists Vertices, newTriangles. repeat split; [lia | exact HN | lia].
  - destruct Triangles as [| v1 [| v2 [| v3 rest]]]; cbn [length] in Hlen; try lia.
    apply Forall_cons in HT as [Hv1 HT].
    apply Forall_cons in HT as [Hv2 HT].
    apply Forall_cons in HT as [Hv3 HT].
    cbn [SubdivideLoop].
    destruct (GetMiddlePoint_ok v1 v2 Vertices Cache HC Hv1 Hv2)
      as (a & V1 & C1 & -> & Ha & HC1 & Hle1).
    assert (Hv1' := ValidIndex_mono _ _ _ Hv1 Hle1).
    assert (Hv2' := ValidIndex_mono _ _ _ Hv2 Hle1).
    assert (Hv3' := ValidIndex_mono _ _ _ Hv3 Hle1).
    destruct (GetMiddlePoint_ok v2 v3 V1 C1 HC1 Hv2' Hv3')
      as (b & V2 & C2 & -> & Hb & HC2 & Hle2).
    assert (Hv1'' := ValidIndex_mono _ _ _ Hv1' Hle2).
    assert (Hv3'' := ValidIndex_mono _ _ _ Hv3' Hle2).
    destruct (GetMiddlePoint_ok v3 v1 V2 C2 HC2 Hv3'' Hv1'')
      as (c & V3 & C3 & -> & Hc & HC3 & Hle3).
    assert (Hle : (length Vertices <= length V3)%nat) by lia.
    assert (Hle13 : (length V1 <= length V3)%nat) by lia.
    destruct (IH rest V3 C3
                (newTriangles ++ [v1; a; c; v2; b; a; v3; c; b; a; b; c]))
      as (V' & T' & Hrun & HlenT & HvalT & HleV).
    + lia.
    + exact (Forall_ValidIndex_mono _ _ _ HT Hle).
    + exact HC3.
    + apply Forall_app. split; [exact (Forall_ValidIndex_mono _ _ _ HN Hle) |].
      assert (Ha3 := ValidIndex_mono _ _ _ Ha Hle13).
      assert (Hb3 := ValidIndex_mono _ _ _ Hb Hle3).
      assert (H13 := ValidIndex_mono _ _ _ Hv1 Hle).
      assert (H23 := ValidIndex_mono _ _ _ Hv2 Hle).
      assert (H33 := ValidIndex_mono _ _ _ Hv3 Hle).
      repeat (apply Forall_cons; split; [assumption |]). apply Forall_nil. exact I.
    + exists V', T'. split; [exact Hrun |].
      rewrite length_app in HlenT. cbn [length] in HlenT.
      split; [lia |]. split; [exact HvalT | lia].
Qed.

(** One round of subdivision on a well-formed mesh succeeds and replaces the
    triangle list by one four times as long. *)
Lemma SubdivideIcosphere_ok (k : nat) (Vertices : list FVector)
    (Triangles : list Z) :
  length Triangles = (3 * k)%nat ->
  Forall (ValidIndex (length Vertices)) Triangles ->
  exists Vertices' Triangles',
    SubdivideIcosphere Vertices Triangles = Some (Vertices', Triangles') /\
    length Triangles' = (3 * (4 * k))%nat /\
    Forall (ValidIndex (length Vertices')) Triangles' /\
    (length Vertices <= length Vertices')%nat.
Proof.
  intros Hlen HT. unfold SubdivideIcosphere.
  destruct (SubdivideLoop_ok k Triangles Vertices ∅ [] Hlen HT
              (CacheValid_empty _) (Forall_nil_2 _))
    as (V' & T' & Hrun & HlenT & HvalT & HleV).
  exists V', T'. cbn [length] in HlenT. repeat split; [exact Hrun | lia | exact HvalT | exact HleV].
Qed.

Lemma SubdivideTimes_ok (n : nat) :
  forall (k : nat) (Vertices : list FVector) (Triangles : list Z),
    length Triangles = (3 * k)%nat ->
    Forall (ValidIndex (length Vertices)) Triangles ->
    exists Vertices' Triangles',
      SubdivideTimes n Vertices Triangles = Some (Vertices', Triangles') /\
      length Triangles' = (3 * (k * 4 ^ n))%nat /\
      Forall (ValidIndex (length Vertices')) Triangles' /\
      (length Vertices <= length Vertices')%nat.
Proof.
  induction n as [| n IH]; intros k Vertices Triangles Hlen HT.
  - exists Vertices, Triangles. cbn [SubdivideTimes Nat.pow].
    repeat split; [lia | exact HT | lia].
  - cbn [SubdivideTimes].
    destruct (SubdivideIcosphere_ok k Vertices Triangles Hlen HT)
      as (V1 & T1 & -> & HlenT1 & HvalT1 & Hle1).
    destruct (IH (4 * k)%nat V1 T1 HlenT1 HvalT1)
      as (V' & T' & Hrun & HlenT & HvalT & HleV).
    exists V', T'. split; [exact Hrun |].
    split; [rewrite HlenT; cbn [Nat.pow]; lia |].
    split; [exact HvalT | lia].
Qed.

Lemma length_NormalizeVertices (Vertices : list FVector) :
  length (NormalizeVertices Vertices) = length Vertices.
Proof. unfold NormalizeVertices. apply length_map. Qed.

Lemma faceIndices_valid :
  Forall (ValidIndex (length (NormalizeVertices IcosahedronVertices))) faceIndices.
Proof.
  rewrite length_NormalizeVertices. cbn [IcosahedronVertices length].
  unfold faceIndices.
  repeat (apply Forall_cons; split; [unfold ValidIndex; lia |]).
  apply Forall_nil. exact I.
Qed.

(** [BuildBaseIcosphere] returns, for every level, a mesh whose triangle list
    has [3 * 20 * 4 ^ level] valid entries. *)
Lemma BuildBaseIcosphere_ok (SubdivisionsLevel : Z) :
  exists Vertices Triangles,
    BuildBaseIcosphere SubdivisionsLevel = Some (Vertices, Triangles) /\
    length Triangles = (3 * (20 * 4 ^ Z.to_nat SubdivisionsLevel))%nat /\
    Forall (ValidIndex (length Vertices)) Triangles /\
    (12 <= length Vertices)%nat.
Proof.
  unfold BuildBaseIcosphere.
  destruct (SubdivideTimes_ok (Z.to_nat SubdivisionsLevel) 20
              (NormalizeVertices IcosahedronVertices) faceIndices
              eq_refl faceIndices_valid)
    as (V & T & -> & HlenT & HvalT & HleV).
  exists (NormalizeVertices V), T. split; [reflexivity |].
  rewrite length_NormalizeVertices in *. cbn [IcosahedronVertices length] in HleV.
  repeat split; [exact HlenT | exact HvalT | exact HleV].
Qed.

(** C4: for every subdivision level [>= 0], [BuildBaseIcosphere] returns a
    triangle list of length [3 * 20 * 4 ^ level], that is [20 * 4 ^ level]
    triangles, each round replacing every triangle by four; at level 0 the
    result is the icosahedron itself, with 12 vertices and the 20 faces of
    [faceIndices]. *)
Theorem BuildBaseIcosphere_triangle_count (SubdivisionsLevel : Z) :
  (0 <= SubdivisionsLevel)%Z ->
  (exists Vertices Triangles,
      BuildBaseIcosphere SubdivisionsLevel = Some (Vertices, Triangles) /\
      Z.of_nat (length Triangles) = (3 * (20 * 4 ^ SubdivisionsLevel))%Z) /\
  (forall Vertices Triangles Vertices' Triangles',
      BuildBaseIcosphere SubdivisionsLevel = Some (Vertices, Triangles) ->
      BuildBaseIcosphere (SubdivisionsLevel + 1) = Some (Vertices', Triangles') ->
      length Triangles' = (4 * length Triangles)%nat) /\
  (exists Vertices,
      BuildBaseIcosphere 0 = Some (Vertices, faceIndices) /\
      length Vertices = 12%nat /\ length faceIndices = (3 * 20)%nat).
Proof.
  intros Hlevel. split; [| split].
  - destruct (BuildBaseIcosphere_ok SubdivisionsLevel)
      as (V & T & Hrun & HlenT & _ & _).
    exists V, T. split; [exact Hrun |]. rewrite HlenT.
    rewrite !Nat2Z.inj_mul, Nat2Z.inj_pow, Z2Nat.id by exact Hlevel.
    reflexivity.
  - intros V T V' T' Hrun Hrun'.
    destruct (BuildBaseIcosphere_ok SubdivisionsLevel)
      as (V0 & T0 & Hrun0 & HlenT & _ & _).
    destruct (BuildBaseIcosphere_ok (SubdivisionsLevel + 1))
      as (V1 & T1 & Hrun1 & HlenT1 & _ & _).
    rewrite Hrun in Hrun0. rewrite Hrun' in Hrun1.
    injection Hrun0 as <- <-. injection Hrun1 as <- <-.
    rewrite HlenT, HlenT1.
    replace (Z.to_nat (SubdivisionsLevel + 1)) with (S (Z.to_nat SubdivisionsLevel)) by lia.
    cbn [Nat.pow]. lia.
  - exists (NormalizeVertices (NormalizeVertices IcosahedronVertices)).
    split; [reflexivity |].
    split; [rewrite !length_NormalizeVertices |]; reflexivity.
Qed.

(** The statement of C4 at level 2: 320 triangles. *)
Lemma BuildBaseIcosphere_triangle_count_witness :
  (0 <= 2)%Z /\
  exists Vertices Triangles,
    BuildBaseIcosphere 2 = Some (Vertices, Triangles) /\
    Z.of_nat (length Triangles) = 960%Z.
Proof.
  split; [lia |].
  exact (proj1 (BuildBaseIcosphere_triangle_count 2 ltac:(lia))).
Defined.

(** ** The shared midpoint *)

(** Requests made later in the same pass keep every vertex and every cache
    entry that was there before. *)
Lemma MiddlePoints_extends (Edges : list (Z * Z)) :
  forall (Vertices Vertices' : list FVector) (Cache Cache' : gmap Z Z)
         (found : list Z),
    MiddlePoints Edges Vertices Cache = Some (found, (Vertices', Cache')) ->
    (exists new, Vertices' = Vertices ++ new) /\ Cache ⊆ Cache'.
Proof.
  induction Edges as [| [p1 p2] rest IH]; intros Vertices Vertices' Cache Cache' found.
  - cbn [MiddlePoints]. intros [= <- <- <-].
    split; [exists []; symmetry; apply app_nil_r | reflexivity].
  - cbn [MiddlePoints].
    destruct (GetMiddlePoint p1 p2 Vertices Cache) as [[i [V1 C1]] |] eqn:Hcall;
      [| discriminate].
    destruct (MiddlePoints rest V1 C1) as [[found' [V2 C2]] |] eqn:Hrest;
      [| discriminate].
    intros [= <- <- <-].
    destruct (GetMiddlePoint_extends _ _ _ _ _ _ _ Hcall) as ([new1 ->] & HC1 & _).
    destruct (IH _ _ _ _ _ Hrest) as ([new2 ->] & HC2).
    split; [exists (new1 ++ new2); symmetry; apply app_assoc |].
    etransitivity; [exact HC1 | exact HC2].
Qed.

(** A request for an edge that is not in the cache, with valid endpoints,
    appends exactly one vertex, the normalised mean of the two endpoints,
    and caches its index under the key of the edge; any later request
    threaded through the same buffer and cache for that edge, with the
    endpoints in either order, returns that same index and leaves the
    vertex buffer and the cache as they are. *)
Lemma GetMiddlePoint_first_request (p1 p2 : Z) (Vertices : list FVector)
    (Cache : gmap Z Z) (point1 point2 : FVector) :
  Cache !! MakeKey p1 p2 = None ->
  Index Vertices p1 = Some point1 ->
  Index Vertices p2 = Some point2 ->
  let middle := FVec.Normalize (FVec.Mul (FVec.Add point1 point2) (1 / 2)) in
  let i := Z.of_nat (length Vertices) in
  let key := MakeKey (Z.min p1 p2) (Z.max p1 p2) in
  MakeKey p1 p2 = key /\ MakeKey p2 p1 = key /\
  GetMiddlePoint p1 p2 Vertices Cache
    = Some (i, (Vertices ++ [middle], <[key := i]> Cache)) /\
  length (Vertices ++ [middle]) = S (length Vertices) /\
  forall (Edges : list (Z * Z)) (found : list Z) (Vertices' : list FVector)
         (Cache' : gmap Z Z),
    MiddlePoints Edges (Vertices ++ [middle]) (<[key := i]> Cache)
      = Some (found, (Vertices', Cache')) ->
    GetMiddlePoint p1 p2 Vertices' Cache' = Some (i, (Vertices', Cache')) /\
    GetMiddlePoint p2 p1 Vertices' Cache' = Some (i, (Vertices', Cache')) /\
    Index Vertices' i = Some middle.
Proof.
  intros Hk H1 H2 middle i key.
  assert (Hkey : MakeKey p1 p2 = key).
  { unfold key, MakeKey.
    rewrite (Z.min_l (Z.min p1 p2) (Z.max p1 p2)) by lia.
    rewrite (Z.max_r (Z.min p1 p2) (Z.max p1 p2)) by lia.
    reflexivity. }
  assert (Hkey' : MakeKey p2 p1 = key) by (rewrite MakeKey_sym; exact Hkey).
  split; [exact Hkey |]. split; [exact Hkey' |].
  split; [rewrite <- Hkey; exact (GetMiddlePoint_miss _ _ _ _ _ _ Hk H1 H2) |].
  split; [rewrite length_app; cbn [length]; lia |].
  intros Edges found Vertices' Cache' Hrun.
  destruct (MiddlePoints_extends _ _ _ _ _ _ Hrun) as ([new ->] & Hsub).
  assert (Hin : Cache' !! key = Some i).
  { eapply lookup_weaken; [apply lookup_insert_eq | exact Hsub]. }
  split; [apply GetMiddlePoint_hit; rewrite Hkey; exact Hin |].
  split; [apply GetMiddlePoint_hit; rewrite Hkey'; exact Hin |].
  unfold Index, i.
  destruct (Z.ltb_spec (Z.of_nat (length Vertices)) 0) as [Hneg | _]; [lia |].
  rewrite Nat2Z.id, <- app_assoc.
  rewrite lookup_app_r by lia.
  rewrite Nat.sub_diag. reflexivity.
Qed.

(** A first request on a two-vertex buffer and an empty cache, and the
    same edge again with its endpoints swapped. *)
Lemma GetMiddlePoint_first_request_example :
  let Vertices := [MkVector 1 0 0; MkVector 0 1 0] in
  let middle :=
    FVec.Normalize (FVec.Mul (FVec.Add (MkVector 0 1 0) (MkVector 1 0 0)) (1 / 2)) in
  GetMiddlePoint 1 0 Vertices ∅
    = Some (2%Z, (Vertices ++ [middle], <[MakeKey 0 1 := 2%Z]> ∅)) /\
  GetMiddlePoint 0 1 (Vertices ++ [middle]) (<[MakeKey 0 1 := 2%Z]> ∅)
    = Some (2%Z, (Vertices ++ [middle], <[MakeKey 0 1 := 2%Z]> ∅)).
Proof.
  intros Vertices middle.
  assert (Hmiss : (∅ : gmap Z Z) !! MakeKey 1 0 = None) by reflexivity.
  assert (Hp1 : Index Vertices 1 = Some (MkVector 0 1 0)) by reflexivity.
  assert (Hp2 : Index Vertices 0 = Some (MkVector 1 0 0)) by reflexivity.
  destruct (GetMiddlePoint_first_request 1 0 Vertices ∅
              (MkVector 0 1 0) (MkVector 1 0 0) Hmiss Hp1 Hp2)
    as (_ & _ & Hfirst & _ & Hlater).
  split.
  - exact Hfirst.
  - exact (proj1 (proj2 (Hlater [] [] _ _ eq_refl))).
Defined.

(** ** Vector arithmetic *)

Lemma FVector_eq (a b : FVector) :
  VX a = VX b -> VY a = VY b -> VZ a = VZ b -> a = b.
Proof. destruct a, b. cbn. intros -> -> ->. reflexivity. Qed.

Lemma SMALL_NUMBER_pos : 0 < FVec.SMALL_NUMBER.
Proof. unfold FVec.SMALL_NUMBER. lra. Qed.

Lemma SMALL_NUMBER_lt_1 : FVec.SMALL_NUMBER < 1.
Proof. unfold FVec.SMALL_NUMBER. lra. Qed.

Lemma SizeSquared_nonneg (a : FVector) : 0 <= FVec.SizeSquared a.
Proof. unfold FVec.SizeSquared. nra. Qed.

Lemma SizeSquared_Mul (a : FVector) (s : R) :
  FVec.SizeSquared (FVec.Mul a s) = s * s * FVec.SizeSquared a.
Proof. unfold FVec.SizeSquared, FVec.Mul. cbn. ring. Qed.

Lemma Mul_1 (a : FVector) : FVec.Mul a 1 = a.
Proof. apply FVector_eq; cbn; ring. Qed.

Lemma Mul_Mul (a : FVector) (s u : R) :
  FVec.Mul (FVec.Mul a s) u = FVec.Mul a (s * u).
Proof. apply FVector_eq; cbn; ring. Qed.

Lemma Add_Mul_Mul (a : FVector) (s u : R) :
  FVec.Add (FVec.Mul a s) (FVec.Mul a u) = FVec.Mul a (s + u).
Proof. apply FVector_eq; cbn; ring. Qed.

Lemma Normalize_large (a : FVector) :
  FVec.SizeSquared a > FVec.SMALL_NUMBER ->
  FVec.Normalize a = FVec.Mul a (/ sqrt (FVec.SizeSquared a)).
Proof.
  intros Hbig. unfold FVec.Normalize, FVec.InvSqrt.
  destruct (Rgt_dec (FVec.SizeSquared a) FVec.SMALL_NUMBER) as [_ | Hno];
    [reflexivity | contradiction].
Qed.

Lemma Normalize_small (a : FVector) :
  FVec.SizeSquared a <= FVec.SMALL_NUMBER -> FVec.Normalize a = a.
Proof.
  intros Hsmall. unfold FVec.Normalize.
  destruct (Rgt_dec (FVec.SizeSquared a) FVec.SMALL_NUMBER) as [Hbig | _];
    [lra | reflexivity].
Qed.

(** A vector above the tolerance is normalised to unit length. *)
Lemma SizeSquared_Normalize (a : FVector) :
  FVec.SizeSquared a > FVec.SMALL_NUMBER ->
  FVec.SizeSquared (FVec.Normalize a) = 1.
Proof.
  intros Hbig. rewrite (Normalize_large a Hbig), SizeSquared_Mul.
  assert (Hpos : 0 < FVec.SizeSquared a) by (pose proof SMALL_NUMBER_pos; lra).
  assert (Hsq : sqrt (FVec.SizeSquared a) * sqrt (FVec.SizeSquared a)
                = FVec.SizeSquared a) by (apply sqrt_sqrt; lra).
  assert (Hs : 0 < sqrt (FVec.SizeSquared a)) by (apply sqrt_lt_R0; exact Hpos).
  rewrite <- Hsq at 3. field. lra.
Qed.

Lemma Normalize_unit (U : FVector) :
  FVec.SizeSquared U = 1 -> FVec.Normalize U = U.
Proof.
  intros HU. rewrite Normalize_large by (rewrite HU; exact SMALL_NUMBER_lt_1).
  rewrite HU, sqrt_1, Rinv_1. apply Mul_1.
Qed.

(** A positive multiple of a unit vector, above the tolerance, is normalised
    back to the unit vector. *)
Lemma Normalize_scaled (U : FVector) (s : R) :
  FVec.SizeSquared U = 1 -> 0 < s -> s * s > FVec.SMALL_NUMBER ->
  FVec.Normalize (FVec.Mul U s) = U.
Proof.
  intros HU Hs Hbig.
  assert (HSS : FVec.SizeSquared (FVec.Mul U s) = s * s)
    by (rewrite SizeSquared_Mul, HU; ring).
  rewrite Normalize_large by (rewrite HSS; exact Hbig).
  rewrite HSS, sqrt_square by lra.
  rewrite Mul_Mul. replace (s * / s) with 1 by (field; lra). apply Mul_1.
Qed.

Lemma Size_scaled (U : FVector) (s : R) :
  FVec.SizeSquared U = 1 -> 0 <= s -> FVec.Size (FVec.Mul U s) = s.
Proof.
  intros HU Hs. unfold FVec.Size. rewrite SizeSquared_Mul, HU.
  replace (s * s * 1) with (s * s) by ring. apply sqrt_square. exact Hs.
Qed.

(** ** The clamp *)

Lemma Clamp_bounds (X Min Max : R) :
  Min <= Max -> Min <= Clamp X Min Max <= Max.
Proof.
  intros Hle. unfold Clamp.
  destruct (Rlt_dec X Min) as [H1 | H1]; [lra |].
  destruct (Rlt_dec X Max) as [H2 | H2]; lra.
Qed.

Lemma Clamp_low (X Min Max : R) : X < Min -> Clamp X Min Max = Min.
Proof.
  intros H. unfold Clamp. destruct (Rlt_dec X Min); [reflexivity | contradiction].
Qed.

Lemma Clamp_inside (X Min Max : R) :
  Min <= X -> X < Max -> Clamp X Min Max = X.
Proof.
  intros H1 H2. unfold Clamp.
  destruct (Rlt_dec X Min); [lra |].
  destruct (Rlt_dec X Max); [reflexivity | contradiction].
Qed.

Lemma Displacement_range (E : Engine) (Layer : FNoiseLayer) (o : FVector)
    (m : R) (V : FVector) :
  0 <= m -> - m <= Displacement E Layer o m V <= m.
Proof. intros Hm. unfold Displacement. apply Clamp_bounds. lra. Qed.

Lemma Displacement_bound (E : Engine) (Layer : FNoiseLayer) (o : FVector)
    (m : R) (V : FVector) :
  0 <= m -> Rabs (Displacement E Layer o m V) <= m.
Proof. intros Hm. apply Rabs_le. apply Displacement_range. exact Hm. Qed.

(** ** The layer loop as a per-vertex plan *)

Lemma map_DisplaceThrough_nil (E : Engine) (m : R) (Vertices : list FVector) :
  map (DisplaceThrough E [] m) Vertices = Vertices.
Proof.
  induction Vertices as [| V rest IH]; [reflexivity |].
  cbn [map]. rewrite IH. reflexivity.
Qed.

Lemma ApplyNoiseLoop_plan (E : Engine) (Layers : list FNoiseLayer) :
  forall (layerIndex : nat) (LayerSeeds : list Z) (m : R)
         (Vertices : list FVector) (g : GlobalRand E),
    (layerIndex + length Layers <= length LayerSeeds)%nat ->
    ApplyNoiseLoop E Layers layerIndex LayerSeeds m Vertices g
    = (map (DisplaceThrough E (LayerPlan E Layers layerIndex LayerSeeds) m) Vertices, g).
Proof.
  induction Layers as [| Layer rest IH]; intros layerIndex LayerSeeds m Vertices g Hlen.
  - cbn [ApplyNoiseLoop LayerPlan]. rewrite map_DisplaceThrough_nil. reflexivity.
  - cbn [length] in Hlen. cbn [ApplyNoiseLoop LayerPlan]. unfold LayerSeed.
    destruct (lookup_lt_is_Some_2 LayerSeeds layerIndex) as [seed Hseed]; [lia |].
    rewrite Hseed. rewrite IH by lia.
    rewrite map_map. reflexivity.
Qed.

Lemma ApplyNoiseLayers_plan (E : Engine) (Layers : list FNoiseLayer)
    (LayerSeeds : list Z) (m : R) (Vertices : list FVector) (g : GlobalRand E) :
  (length Layers <= length LayerSeeds)%nat ->
  ApplyNoiseLayers E Layers LayerSeeds m Vertices g
  = (map (DisplaceThrough E (LayerPlan E Layers 0 LayerSeeds) m) Vertices, g).
Proof.
  intros Hlen. unfold ApplyNoiseLayers.
  destruct Vertices as [| V rest]; [reflexivity |].
  apply ApplyNoiseLoop_plan. lia.
Qed.

(** ** The per-layer seeds *)

Lemma PrepareLayerSeeds_length (E : Engine) (Layers : list FNoiseLayer) :
  forall (s : FRandomStream E) (LayerSeeds : list Z),
    length (PrepareLayerSeeds E Layers s LayerSeeds)
    = (length LayerSeeds + length Layers)%nat.
Proof.
  induction Layers as [| Layer rest IH]; intros s LayerSeeds; cbn [PrepareLayerSeeds length].
  - lia.
  - destruct (Seed Layer <? 0)%Z.
    + destruct (FRandomStream_RandRange E 0 INT32_MAX s) as [seed s'].
      rewrite IH, length_app. cbn [length]. lia.
    + rewrite IH, length_app. cbn [length]. lia.
Qed.

Lemma ResolvedLayerSeeds_length (E : Engine) (A : AAsteroidActor)
    (g : GlobalRand E) :
  length (ResolvedLayerSeeds E A g) = length (NoiseLayers A).
Proof. unfold ResolvedLayerSeeds. rewrite PrepareLayerSeeds_length. reflexivity. Qed.

(** ** The orchestrator *)

(** [GenerateAsteroid] always returns: it stores [RunStats], uploads
    [RunVertices] with the triangles of the base icosphere, and makes the
    calls of [RunTrace]. *)
Lemma GenerateAsteroid_run (E : Engine) (A : AAsteroidActor) (g : GlobalRand E) :
  exists (Base : list FVector) (Triangles : list Z) (g' : GlobalRand E),
    BuildBaseIcosphere (Subdivisions A) = Some (Base, Triangles) /\
    GenerateAsteroid E A g
    = Some (SetStats A (RunStats E A g), g', RunTrace E A g Base Triangles).
Proof.
  destruct (BuildBaseIcosphere_ok (Subdivisions A)) as (Base & Triangles & HB & _).
  exists Base, Triangles.
  unfold GenerateAsteroid, RunTrace, RunVertices, RunStats, ChosenRadius,
    RunPlan, ResolvedLayerSeeds, UsedGlobalSeed.
  destruct (PickGlobalSeed E (GlobalSeed A) g) as [seed g1]. cbn [fst snd].
  rewrite HB.
  rewrite ApplyNoiseLayers_plan
    by (rewrite PrepareLayerSeeds_length; cbn [length]; lia).
  destruct (FMath_RandRange E (MinRadius A) (MaxRadius A) g1) as [Chosen g3].
  cbn [fst snd]. exists g3. split; reflexivity.
Qed.

Lemma UploadedMeshes_RunTrace (E : Engine) (A : AAsteroidActor)
    (g : GlobalRand E) (Base : list FVector) (Triangles : list Z) :
  UploadedMeshes (RunTrace E A g Base Triangles)
  = [(RunVertices E A g Base, Triangles)].
Proof.
  unfold RunTrace, CreateMeshFromData, UploadedMeshes.
  destruct (bEnablePhysics A); reflexivity.
Qed.

Lemma Broadcasts_RunTrace (E : Engine) (A : AAsteroidActor)
    (g : GlobalRand E) (Base : list FVector) (Triangles : list Z) :
  Broadcasts (RunTrace E A g Base Triangles) = [RunStats E A g].
Proof.
  unfold RunTrace, CreateMeshFromData, Broadcasts.
  destruct (bEnablePhysics A); reflexivity.
Qed.

(** ** The displacement clamp *)

Lemma DisplaceVertex_RadialStep (E : Engine) (Layer : FNoiseLayer)
    (o : FVector) (m : R) (V : FVector) :
  0 <= m -> RadialStep m V (DisplaceVertex E Layer o m V).
Proof.
  intros Hm. exists (Displacement E Layer o m V).
  split; [apply Displacement_bound; exact Hm | reflexivity].
Qed.

Lemma ApplyNoiseLoop_clamped (E : Engine) (Layers : list FNoiseLayer) :
  forall (layerIndex : nat) (LayerSeeds : list Z) (m : R)
         (Vertices : list FVector) (g : GlobalRand E),
    0 <= m ->
    ClampedPasses m (length Layers) Vertices
      (fst (ApplyNoiseLoop E Layers layerIndex LayerSeeds m Vertices g)).
Proof.
  induction Layers as [| Layer rest IH]; intros layerIndex LayerSeeds m Vertices g Hm.
  - cbn. constructor.
  - cbn [ApplyNoiseLoop length].
    destruct (LayerSeed E LayerSeeds layerIndex g) as [seed g'].
    eapply ClampedPasses_layer; [| apply IH; exact Hm].
    apply Forall2_fmap_r, Forall_Forall2_diag, Forall_forall.
    intros V _. apply DisplaceVertex_RadialStep. exact Hm.
Qed.

Lemma ClampedPasses_nil (m : R) (n : nat) : ClampedPasses m n [] [].
Proof.
  induction n as [| n IH]; [constructor |].
  eapply ClampedPasses_layer; [apply Forall2_nil_2 | exact IH].
Qed.

(** C5: with a non-negative [MaxDisplacementFraction], the scalar
    displacement computed for any vertex and any layer is at most
    [MaxDisplacementFraction] in absolute value, and [ApplyNoiseLayers] is,
    layer after layer and vertex by vertex, the update
    [V + normalize(V) * d] with such a [d]. *)
Theorem ApplyNoiseLayers_displacement_clamped (E : Engine)
    (Layers : list FNoiseLayer) (LayerSeeds : list Z)
    (MaxDisplacementFrac : R) (Vertices : list FVector) (g : GlobalRand E) :
  0 <= MaxDisplacementFrac ->
  (forall (Layer : FNoiseLayer) (o V : FVector),
      Rabs (Displacement E Layer o MaxDisplacementFrac V) <= MaxDisplacementFrac /\
      DisplaceVertex E Layer o MaxDisplacementFrac V
      = FVec.Add V (FVec.Mul (FVec.Normalize V)
                      (Displacement E Layer o MaxDisplacementFrac V))) /\
  ClampedPasses MaxDisplacementFrac (length Layers) Vertices
    (fst (ApplyNoiseLayers E Layers LayerSeeds MaxDisplacementFrac Vertices g)).
Proof.
  intros Hm. split.
  - intros Layer o V. split; [apply Displacement_bound; exact Hm | reflexivity].
  - unfold ApplyNoiseLayers.
    destruct Vertices as [| V rest]; [apply ClampedPasses_nil |].
    apply ApplyNoiseLoop_clamped. exact Hm.
Qed.

(** The statement of C5 on one vertex and one layer, with the clamp at 1/2. *)
Lemma ApplyNoiseLayers_displacement_clamped_witness :
  0 <= 1 / 2 /\
  ClampedPasses (1 / 2) 1 [MkVector 1 0 0]
    (fst (ApplyNoiseLayers (ScriptedEngine (1 / 2))
            [MkNoiseLayer (1 / 10) 1 42] [42%Z] (1 / 2) [MkVector 1 0 0] [])).
Proof.
  split; [lra |].
  apply (ApplyNoiseLayers_displacement_clamped (ScriptedEngine (1 / 2))
           [MkNoiseLayer (1 / 10) 1 42] [42%Z] (1 / 2) [MkVector 1 0 0] []).
  lra.
Defined.

(** ** Statistics *)

Lemma CalculateVolumeFromRadius_sphere (Radius : R) :
  CalculateVolumeFromRadius Radius = 4 / 3 * PI * Radius ^ 3.
Proof. unfold CalculateVolumeFromRadius. ring. Qed.

(** C7: the statistics a run stores hold the radius it drew, the volume
    [(4/3) * pi * R^3] of the sphere of that radius, and as mass that volume
    times the configured density. *)
Theorem GenerateAsteroid_volume_mass (E : Engine) (A : AAsteroidActor)
    (g : GlobalRand E) :
  exists (A' : AAsteroidActor) (g' : GlobalRand E) (Trace : list Event),
    GenerateAsteroid E A g = Some (A', g', Trace) /\
    Radius (AsteroidStats A') = ChosenRadius E A g /\
    Volume (AsteroidStats A') = 4 / 3 * PI * Radius (AsteroidStats A') ^ 3 /\
    Mass (AsteroidStats A') = Volume (AsteroidStats A') * Density A.
Proof.
  destruct (GenerateAsteroid_run E A g) as (Base & Triangles & g' & _ & Hrun).
  exists (SetStats A (RunStats E A g)), g', (RunTrace E A g Base Triangles).
  split; [exact Hrun |]. cbn.
  split; [reflexivity |].
  split; [apply CalculateVolumeFromRadius_sphere | reflexivity].
Qed.

(** ** Seed resolution *)

Lemma PickGlobalSeed_explicit (E : Engine) (GlobalSeed : Z) (g : GlobalRand E) :
  (0 <= GlobalSeed)%Z -> PickGlobalSeed E GlobalSeed g = (GlobalSeed, g).
Proof.
  intros Hpos. unfold PickGlobalSeed.
  destruct (Z.ltb_spec GlobalSeed 0); [lia | reflexivity].
Qed.

Lemma PrepareLayerSeeds_prefix (E : Engine) (Layers : list FNoiseLayer) :
  forall (s : FRandomStream E) (LayerSeeds : list Z),
    exists tail, PrepareLayerSeeds E Layers s LayerSeeds = LayerSeeds ++ tail.
Proof.
  induction Layers as [| Layer rest IH]; intros s LayerSeeds; cbn [PrepareLayerSeeds].
  - exists []. symmetry. apply app_nil_r.
  - destruct (Seed Layer <? 0)%Z.
    + destruct (FRandomStream_RandRange E 0 INT32_MAX s) as [seed s'].
      destruct (IH s' (LayerSeeds ++ [seed])) as [tail ->].
      exists (seed :: tail). rewrite <- app_assoc. reflexivity.
    + destruct (IH s (LayerSeeds ++ [Seed Layer])) as [tail ->].
      exists (Seed Layer :: tail). rewrite <- app_assoc. reflexivity.
Qed.

(** The seed prepared for layer [i]: its own when that is not negative, and
    otherwise the next value of the stream, counting the derived seeds of the
    layers before it. *)
Lemma PrepareLayerSeeds_lookup (E : Engine) (Layers : list FNoiseLayer) :
  forall (s : FRandomStream E) (LayerSeeds : list Z) (i : nat)
         (Layer : FNoiseLayer),
    Layers !! i = Some Layer ->
    PrepareLayerSeeds E Layers s LayerSeeds !! (length LayerSeeds + i)%nat
    = Some (if (Seed Layer <? 0)%Z
            then StreamDraw E s (DerivedCount (take i Layers))
            else Seed Layer).
Proof.
  induction Layers as [| L0 rest IH]; intros s LayerSeeds i Layer Hi;
    [destruct i; discriminate |].
  cbn [PrepareLayerSeeds].
  destruct i as [| i].
  - cbn in Hi. injection Hi as ->. rewrite Nat.add_0_r.
    cbn [take DerivedCount].
    destruct (Seed Layer <? 0)%Z.
    + cbn [StreamDraw].
      destruct (FRandomStream_RandRange E 0 INT32_MAX s) as [seed s'].
      destruct (PrepareLayerSeeds_prefix E rest s' (LayerSeeds ++ [seed])) as [tail ->].
      rewrite <- app_assoc. rewrite lookup_app_r by lia.
      rewrite Nat.sub_diag. reflexivity.
    + destruct (PrepareLayerSeeds_prefix E rest s (LayerSeeds ++ [Seed Layer]))
        as [tail ->].
      rewrite <- app_assoc. rewrite lookup_app_r by lia.
      rewrite Nat.sub_diag. reflexivity.
  - cbn in Hi. cbn [take DerivedCount].
    destruct (Seed L0 <? 0)%Z.
    + cbn [Nat.add StreamDraw].
      destruct (FRandomStream_RandRange E 0 INT32_MAX s) as [seed s'].
      specialize (IH s' (LayerSeeds ++ [seed]) i Layer Hi).
      rewrite length_app in IH. cbn [length] in IH.
      replace (length LayerSeeds + S i)%nat with (length LayerSeeds + 1 + i)%nat by lia.
      exact IH.
    + cbn [Nat.add].
      specialize (IH s (LayerSeeds ++ [Seed L0]) i Layer Hi).
      rewrite length_app in IH. cbn [length] in IH.
      replace (length LayerSeeds + S i)%nat with (length LayerSeeds + 1 + i)%nat by lia.
      exact IH.
Qed.

(** C8: a run records one seed per noise layer, in order: the layer's own
    seed when that is [>= 0], and otherwise the next value drawn from the
    stream seeded with the global seed in use (the configured one when that
    is [>= 0]).  The recorded seeds are therefore the same for any two runs
    over the same layers that use the same global seed. *)
Theorem GenerateAsteroid_layer_seeds (E : Engine) (A : AAsteroidActor)
    (g : GlobalRand E) :
  exists (A' : AAsteroidActor) (g' : GlobalRand E) (Trace : list Event),
    GenerateAsteroid E A g = Some (A', g', Trace) /\
    length (NoiseLayerSeeds (AsteroidStats A')) = length (NoiseLayers A) /\
    (forall (i : nat) (Layer : FNoiseLayer),
        NoiseLayers A !! i = Some Layer ->
        NoiseLayerSeeds (AsteroidStats A') !! i
        = Some (if (Seed Layer <? 0)%Z
                then StreamDraw E (FRandomStream_Init E (UsedGlobalSeed E A g))
                       (DerivedCount (take i (NoiseLayers A)))
                else Seed Layer)) /\
    ((0 <= GlobalSeed A)%Z -> UsedGlobalSeed E A g = GlobalSeed A) /\
    (forall (B B' : AAsteroidActor) (h h' : GlobalRand E) (TraceB : list Event),
        NoiseLayers B = NoiseLayers A ->
        UsedGlobalSeed E B h = UsedGlobalSeed E A g ->
        GenerateAsteroid E B h = Some (B', h', TraceB) ->
        NoiseLayerSeeds (AsteroidStats B') = NoiseLayerSeeds (AsteroidStats A')).
Proof.
  destruct (GenerateAsteroid_run E A g) as (Base & Triangles & g' & _ & Hrun).
  exists (SetStats A (RunStats E A g)), g', (RunTrace E A g Base Triangles).
  split; [exact Hrun |]. cbn [AsteroidStats SetStats NoiseLayerSeeds RunStats].
  split; [apply ResolvedLayerSeeds_length |].
  split; [| split].
  - intros i Layer Hi. unfold ResolvedLayerSeeds.
    exact (PrepareLayerSeeds_lookup E (NoiseLayers A) _ [] i Layer Hi).
  - intros Hpos. unfold UsedGlobalSeed.
    rewrite PickGlobalSeed_explicit by exact Hpos. reflexivity.
  - intros B B' h h' TraceB HL Hseed HrunB.
    destruct (GenerateAsteroid_run E B h) as (BaseB & TrianglesB & h2 & _ & HrunB').
    rewrite HrunB in HrunB'. injection HrunB' as -> _ _.
    cbn [AsteroidStats SetStats NoiseLayerSeeds RunStats].
    unfold ResolvedLayerSeeds. rewrite HL, Hseed. reflexivity.
Qed.

(** ** The radius *)

Lemma FMath_RandRange_degenerate (E : Engine) (R0 : R) (g : GlobalRand E) :
  fst (FMath_RandRange E R0 R0 g) = R0.
Proof.
  unfold FMath_RandRange. destruct (FMath_FRand E g) as [u g']. cbn [fst]. ring.
Qed.

(** C9: when [MinRadius] and [MaxRadius] are both [R0], the radius of a run
    is [R0] whatever the process-wide generator returns: the stored radius
    is [R0], and the vertices uploaded to the mesh and to the convex hull are
    the unit-sphere vertices multiplied by [R0]. *)
Theorem GenerateAsteroid_degenerate_radius (E : Engine) (A : AAsteroidActor)
    (g : GlobalRand E) (R0 : R) :
  MinRadius A = R0 -> MaxRadius A = R0 ->
  ChosenRadius E A g = R0 /\
  exists (Base : list FVector) (Triangles : list Z) (A' : AAsteroidActor)
         (g' : GlobalRand E) (Trace : list Event),
    BuildBaseIcosphere (Subdivisions A) = Some (Base, Triangles) /\
    GenerateAsteroid E A g = Some (A', g', Trace) /\
    Radius (AsteroidStats A') = R0 /\
    Volume (AsteroidStats A') = CalculateVolumeFromRadius R0 /\
    let Scaled :=
      ScaleVertices R0
        (NormalizeVertices
           (map (DisplaceThrough E (RunPlan E A g) (MaxDisplacementFraction A))
              Base)) in
    UploadedMeshes Trace = [(Scaled, Triangles)] /\
    In (AddCollisionConvexMesh Scaled) Trace.
Proof.
  intros Hmin Hmax.
  assert (HR : ChosenRadius E A g = R0).
  { unfold ChosenRadius. rewrite Hmin, Hmax. apply FMath_RandRange_degenerate. }
  split; [exact HR |].
  destruct (GenerateAsteroid_run E A g) as (Base & Triangles & g' & HB & Hrun).
  exists Base, Triangles, (SetStats A (RunStats E A g)), g',
    (RunTrace E A g Base Triangles).
  split; [exact HB |]. split; [exact Hrun |].
  cbn [AsteroidStats SetStats Radius Volume RunStats]. rewrite HR.
  split; [reflexivity |]. split; [reflexivity |].
  split.
  - rewrite UploadedMeshes_RunTrace. unfold RunVertices. rewrite HR. reflexivity.
  - unfold RunTrace, RunVertices. rewrite HR.
    apply in_or_app. right. right. left. reflexivity.
Qed.

(** The statement of C9 for the range [100, 100]. *)
Lemma GenerateAsteroid_degenerate_radius_witness :
  let A := MkActor 1 100 100 2000 7 [MkNoiseLayer (1 / 10) 0 42] (1 / 2) true NoStats in
  ChosenRadius (ScriptedEngine 0) A [12345%Z] = 100.
Proof.
  intros A.
  exact (proj1 (GenerateAsteroid_degenerate_radius (ScriptedEngine 0) A
                  [12345%Z] 100 eq_refl eq_refl)).
Defined.

(** ** The notification *)

(** C10: every call of [GenerateAsteroid] (and so [BeginPlay]) returns and
    broadcasts exactly once; the broadcast comes after every call into the
    mesh component, is followed by the log line only, and carries the
    statistics the actor has stored: the radius, volume and mass of the run
    and one seed per noise layer.  Every subscriber receives that one
    payload. *)
Theorem GenerateAsteroid_broadcast_once (E : Engine) (A : AAsteroidActor)
    (g : GlobalRand E) :
  exists (A' : AAsteroidActor) (g' : GlobalRand E) (Trace : list Event),
    GenerateAsteroid E A g = Some (A', g', Trace) /\
    BeginPlay E A g = Some (A', g', Trace) /\
    Broadcasts Trace = [AsteroidStats A'] /\
    (exists Before : list Event,
        Trace = Before ++ [Broadcast (AsteroidStats A');
                           LogGenerated (Radius (AsteroidStats A'))
                             (Volume (AsteroidStats A')) (Mass (AsteroidStats A'))] /\
        Broadcasts Before = []) /\
    AsteroidStats A' = RunStats E A g /\
    NoiseLayerSeeds (AsteroidStats A') = ResolvedLayerSeeds E A g /\
    length (NoiseLayerSeeds (AsteroidStats A')) = length (NoiseLayers A) /\
    (forall (S : Type) (Subscribers : list S),
        Deliveries Subscribers Trace
        = map (fun s => (s, AsteroidStats A')) Subscribers).
Proof.
  destruct (GenerateAsteroid_run E A g) as (Base & Triangles & g' & _ & Hrun).
  exists (SetStats A (RunStats E A g)), g', (RunTrace E A g Base Triangles).
  split; [exact Hrun |]. split; [exact Hrun |].
  cbn [AsteroidStats SetStats].
  split; [apply Broadcasts_RunTrace |].
  split; [| split; [reflexivity |
            split; [reflexivity |
            split; [apply ResolvedLayerSeeds_length |]]]].
  - unfold RunTrace.
    eexists. rewrite !app_assoc. split; [reflexivity |].
    unfold CreateMeshFromData, Broadcasts.
    destruct (bEnablePhysics A); reflexivity.
  - intros S Subscribers. unfold RunTrace, CreateMeshFromData, Deliveries.
    destruct (bEnablePhysics A); cbn; apply app_nil_r.
Qed.

(** ** Displacement along the vertex's own direction *)

Lemma lookup_map {A B : Type} (f : A -> B) (l : list A) (i : nat) (x : A) :
  l !! i = Some x -> map f l !! i = Some (f x).
Proof.
  revert i. induction l as [| y rest IH]; intros i Hi; [destruct i; discriminate |].
  destruct i as [| i]; cbn in *.
  - injection Hi as ->. reflexivity.
  - apply IH. exact Hi.
Qed.

(** The final vertex of a run at the index of a base vertex. *)
Lemma RunVertices_lookup (E : Engine) (A : AAsteroidActor) (g : GlobalRand E)
    (Base : list FVector) (j : nat) (U : FVector) :
  Base !! j = Some U ->
  RunVertices E A g Base !! j
  = Some (FVec.Mul
            (FVec.Normalize
               (DisplaceThrough E (RunPlan E A g) (MaxDisplacementFraction A) U))
            (ChosenRadius E A g)).
Proof.
  intros Hj. unfold RunVertices, ScaleVertices, NormalizeVertices.
  apply (lookup_map (fun V => FVec.Mul V (ChosenRadius E A g))).
  apply (lookup_map FVec.Normalize).
  apply (lookup_map (DisplaceThrough E (RunPlan E A g) (MaxDisplacementFraction A))).
  exact Hj.
Qed.

(** One update of a positive multiple [s] of a unit vector [U] (above the
    tolerance) is the multiple [s + d]: the direction is kept. *)
Lemma DisplaceVertex_scaled (E : Engine) (Layer : FNoiseLayer) (o : FVector)
    (m : R) (U : FVector) (s : R) :
  FVec.SizeSquared U = 1 -> 0 < s -> s * s > FVec.SMALL_NUMBER ->
  DisplaceVertex E Layer o m (FVec.Mul U s)
  = FVec.Mul U (s + Displacement E Layer o m (FVec.Mul U s)).
Proof.
  intros HU Hs Hbig. unfold DisplaceVertex. cbv zeta.
  rewrite (Normalize_scaled U s HU Hs Hbig).
  apply Add_Mul_Mul.
Qed.

Lemma DisplaceThrough_scaled (E : Engine) (m : R) (U : FVector)
    (Plan : list (FNoiseLayer * FVector)) :
  FVec.SizeSquared U = 1 ->
  forall s : R,
    0 < s -> s * s > FVec.SMALL_NUMBER ->
    StaysClear E Plan m (FVec.Mul U s) ->
    exists s' : R,
      0 < s' /\ s' * s' > FVec.SMALL_NUMBER /\
      DisplaceThrough E Plan m (FVec.Mul U s) = FVec.Mul U s'.
Proof.
  intros HU. induction Plan as [| [Layer o] rest IH]; intros s Hs Hbig Hclear.
  - exists s. repeat split; [exact Hs | exact Hbig].
  - cbn [StaysClear DisplaceThrough] in *. cbv zeta in Hclear.
    destruct Hclear as (Hd & Hbig' & Hrest).
    rewrite (Size_scaled U s HU) in Hd, Hbig' by lra.
    rewrite (DisplaceVertex_scaled E Layer o m U s HU Hs Hbig) in *.
    apply IH; [lra | exact Hbig' | exact Hrest].
Qed.

(** A vertex that stays clear of the origin is uploaded as its unit
    direction times the chosen radius. *)
Lemma RunVertices_on_sphere (E : Engine) (A : AAsteroidActor)
    (g : GlobalRand E) (Base : list FVector) (j : nat) (U : FVector) :
  Base !! j = Some U ->
  FVec.SizeSquared U = 1 ->
  StaysClear E (RunPlan E A g) (MaxDisplacementFraction A) U ->
  (exists s : R,
      0 < s /\
      DisplaceThrough E (RunPlan E A g) (MaxDisplacementFraction A) U
      = FVec.Mul U s) /\
  FVec.Normalize
    (DisplaceThrough E (RunPlan E A g) (MaxDisplacementFraction A) U) = U /\
  RunVertices E A g Base !! j = Some (FVec.Mul U (ChosenRadius E A g)).
Proof.
  intros Hj HU Hclear.
  pose proof (DisplaceThrough_scaled E (MaxDisplacementFraction A) U
                (RunPlan E A g) HU 1) as Hone.
  rewrite Mul_1 in Hone.
  destruct Hone as (s & Hs & Hbig & HD);
    [lra | pose proof SMALL_NUMBER_lt_1; lra | exact Hclear |].
  assert (HN : FVec.Normalize
                 (DisplaceThrough E (RunPlan E A g) (MaxDisplacementFraction A) U)
               = U)
    by (rewrite HD; apply Normalize_scaled; assumption).
  split; [exists s; split; assumption |]. split; [exact HN |].
  rewrite (RunVertices_lookup E A g Base j U Hj), HN. reflexivity.
Qed.

(** Layers of zero intensity, under a non-negative clamp bound, leave a
    unit vertex where it is. *)
Lemma StaysClear_zero_intensity (E : Engine) (m : R) (U : FVector)
    (Plan : list (FNoiseLayer * FVector)) :
  FVec.SizeSquared U = 1 -> 0 <= m ->
  Forall (fun lo => Intensity (fst lo) = 0) Plan ->
  StaysClear E Plan m U.
Proof.
  intros HU Hm HP. induction HP as [| [Layer o] rest Hzero _ IH]; [exact I |].
  cbn [fst] in Hzero. cbn [StaysClear]. cbv zeta.
  assert (Hd : Displacement E Layer o m U = 0).
  { unfold Displacement. cbv zeta. rewrite Hzero.
    match goal with
    | |- Clamp ?x _ _ = _ => replace x with 0 by (unfold FVec.DotProduct; cbn; ring)
    end.
    unfold Clamp.
    destruct (Rlt_dec 0 (- m)); [lra |].
    destruct (Rlt_dec 0 m); lra. }
  assert (Hsame : DisplaceVertex E Layer o m U = U).
  { unfold DisplaceVertex. cbv zeta. rewrite Hd. apply FVector_eq; cbn; ring. }
  rewrite Hd, Hsame.
  assert (Hsize : FVec.Size U = 1) by (unfold FVec.Size; rewrite HU; apply sqrt_1).
  rewrite Hsize. pose proof SMALL_NUMBER_lt_1.
  split; [lra |]. split; [lra | exact IH].
Qed.

(** Clamp bounds that sum to less than 0.9999 keep every unit vertex clear
    of the origin. *)
Lemma StaysClear_small_bounds (E : Engine) (m : R) (U : FVector)
    (Plan : list (FNoiseLayer * FVector)) :
  FVec.SizeSquared U = 1 -> 0 <= m ->
  forall s : R,
    s - INR (length Plan) * m > / 10000 ->
    StaysClear E Plan m (FVec.Mul U s).
Proof.
  intros HU Hm. induction Plan as [| [Layer o] rest IH]; intros s Hs; [exact I |].
  cbn [length] in Hs. rewrite S_INR in Hs.
  assert (Hn : 0 <= INR (length rest) * m)
    by (apply Rmult_le_pos; [apply pos_INR | exact Hm]).
  assert (Hs0 : / 10000 < s) by lra.
  assert (Hbig : s * s > FVec.SMALL_NUMBER) by (unfold FVec.SMALL_NUMBER; nra).
  cbn [StaysClear]. cbv zeta.
  pose proof (Displacement_range E Layer o m (FVec.Mul U s) Hm) as Hd.
  rewrite (Size_scaled U s HU) by lra.
  rewrite (DisplaceVertex_scaled E Layer o m U s HU) by lra.
  split; [lra |].
  split; [unfold FVec.SMALL_NUMBER; nra |].
  apply IH. lra.
Qed.

Lemma LayerPlan_zero_intensity (E : Engine) (Layers : list FNoiseLayer) :
  Forall (fun Layer => Intensity Layer = 0) Layers ->
  forall (layerIndex : nat) (LayerSeeds : list Z),
    Forall (fun lo => Intensity (fst lo) = 0)
      (LayerPlan E Layers layerIndex LayerSeeds).
Proof.
  intros HL. induction HL as [| Layer rest Hzero _ IH]; intros layerIndex LayerSeeds.
  - apply Forall_nil_2.
  - cbn [LayerPlan]. destruct (LayerSeeds !! layerIndex) as [seed |].
    + apply Forall_cons. split; [exact Hzero | apply IH].
    + apply Forall_nil_2.
Qed.

(** An actor whose layers all have intensity 0 keeps every unit vertex
    clear. *)
Lemma StaysClear_zero_intensity_run (E : Engine) (A : AAsteroidActor)
    (g : GlobalRand E) (U : FVector) :
  FVec.SizeSquared U = 1 -> 0 <= MaxDisplacementFraction A ->
  Forall (fun Layer => Intensity Layer = 0) (NoiseLayers A) ->
  StaysClear E (RunPlan E A g) (MaxDisplacementFraction A) U.
Proof.
  intros HU Hm HL. apply StaysClear_zero_intensity; [exact HU | exact Hm |].
  unfold RunPlan. apply LayerPlan_zero_intensity. exact HL.
Qed.

Lemma LayerPlan_length (E : Engine) (Layers : list FNoiseLayer) :
  forall (layerIndex : nat) (LayerSeeds : list Z),
    (length (LayerPlan E Layers layerIndex LayerSeeds) <= length Layers)%nat.
Proof.
  induction Layers as [| Layer rest IH]; intros layerIndex LayerSeeds;
    cbn [LayerPlan length]; [lia |].
  destruct (LayerSeeds !! layerIndex) as [seed |]; cbn [length].
  - specialize (IH (S layerIndex) LayerSeeds). lia.
  - lia.
Qed.

(** An actor whose clamp bound times its number of layers is below 0.9999
    keeps every unit vertex clear. *)
Lemma StaysClear_small_bounds_run (E : Engine) (A : AAsteroidActor)
    (g : GlobalRand E) (U : FVector) :
  FVec.SizeSquared U = 1 -> 0 <= MaxDisplacementFraction A ->
  INR (length (NoiseLayers A)) * MaxDisplacementFraction A < 9999 / 10000 ->
  StaysClear E (RunPlan E A g) (MaxDisplacementFraction A) U.
Proof.
  intros HU Hm Hsum.
  rewrite <- (Mul_1 U). apply StaysClear_small_bounds; [exact HU | exact Hm |].
  pose proof (LayerPlan_length E (NoiseLayers A) 0 (ResolvedLayerSeeds E A g))
    as Hlen.
  fold (RunPlan E A g) in Hlen. apply le_INR in Hlen.
  assert (INR (length (RunPlan E A g)) * MaxDisplacementFraction A
          <= INR (length (NoiseLayers A)) * MaxDisplacementFraction A)
    by (apply Rmult_le_compat_r; assumption).
  lra.
Qed.

(** Where the re-normalisation does what its comment says: take a unit
    vertex [U] of the base icosphere for which, at every layer, the clamped
    displacement [d] satisfies [d > -|V|] and the displaced vertex keeps a
    squared length above the tolerance of [Normalize].  Then the layers only
    rescale the vertex by a positive factor, [Normalize] gives [U] back, and
    the vertex uploaded at that index is [U] times the chosen radius: the
    same vertex as in the run, from the same generator state, of the actor
    with no noise layers, or with any other layers that keep the vertex
    clear. *)
Lemma ApplyNoiseLayers_keeps_direction (E : Engine) (A : AAsteroidActor)
    (g : GlobalRand E) (Base : list FVector) (Triangles : list Z) (j : nat)
    (U : FVector) :
  BuildBaseIcosphere (Subdivisions A) = Some (Base, Triangles) ->
  Base !! j = Some U ->
  FVec.SizeSquared U = 1 ->
  StaysClear E (RunPlan E A g) (MaxDisplacementFraction A) U ->
  let Displaced :=
    DisplaceThrough E (RunPlan E A g) (MaxDisplacementFraction A) U in
  (exists s : R, 0 < s /\ Displaced = FVec.Mul U s) /\
  FVec.Normalize Displaced = U /\
  (exists (A1 : AAsteroidActor) (g1 : GlobalRand E) (Trace1 : list Event)
          (Vertices1 : list FVector),
      GenerateAsteroid E A g = Some (A1, g1, Trace1) /\
      UploadedMeshes Trace1 = [(Vertices1, Triangles)] /\
      Vertices1 !! j = Some (FVec.Mul U (ChosenRadius E A g))) /\
  (exists (A0 : AAsteroidActor) (g0 : GlobalRand E) (Trace0 : list Event)
          (Vertices0 : list FVector),
      GenerateAsteroid E (WithNoiseLayers A []) g = Some (A0, g0, Trace0) /\
      UploadedMeshes Trace0 = [(Vertices0, Triangles)] /\
      Vertices0 !! j = Some (FVec.Mul U (ChosenRadius E A g))) /\
  (forall Layers' : list FNoiseLayer,
      StaysClear E (RunPlan E (WithNoiseLayers A Layers') g)
        (MaxDisplacementFraction A) U ->
      exists (A2 : AAsteroidActor) (g2 : GlobalRand E) (Trace2 : list Event)
             (Vertices2 : list FVector),
        GenerateAsteroid E (WithNoiseLayers A Layers') g = Some (A2, g2, Trace2) /\
        UploadedMeshes Trace2 = [(Vertices2, Triangles)] /\
        Vertices2 !! j = Some (FVec.Mul U (ChosenRadius E A g))).
Proof.
  intros HB Hj HU Hclear Displaced.
  destruct (RunVertices_on_sphere E A g Base j U Hj HU Hclear)
    as (Hs & HN & Hv).
  split; [exact Hs |]. split; [exact HN |].
  assert (Hother : forall Layers' : list FNoiseLayer,
             StaysClear E (RunPlan E (WithNoiseLayers A Layers') g)
               (MaxDisplacementFraction A) U ->
             exists (A2 : AAsteroidActor) (g2 : GlobalRand E)
                    (Trace2 : list Event) (Vertices2 : list FVector),
               GenerateAsteroid E (WithNoiseLayers A Layers') g
               = Some (A2, g2, Trace2) /\
               UploadedMeshes Trace2 = [(Vertices2, Triangles)] /\
               Vertices2 !! j = Some (FVec.Mul U (ChosenRadius E A g))).
  { intros Layers' Hclear'.
    destruct (GenerateAsteroid_run E (WithNoiseLayers A Layers') g)
      as (Base2 & T2 & g2 & HB2 & Hrun2).
    cbn [Subdivisions WithNoiseLayers] in HB2.
    rewrite HB in HB2. injection HB2 as <- <-.
    eexists _, g2, _, _. split; [exact Hrun2 |].
    split; [apply UploadedMeshes_RunTrace |].
    destruct (RunVertices_on_sphere E (WithNoiseLayers A Layers') g Base j U
                Hj HU Hclear') as (_ & _ & Hv2).
    exact Hv2. }
  split; [| split; [| exact Hother]].
  - destruct (Hother (NoiseLayers A)) as (A1 & g1 & Trace1 & Vertices1 & H1).
    + exact Hclear.
    + exists A1, g1, Trace1, Vertices1. destruct A. exact H1.
  - apply Hother. exact I.
Qed.

(** A single layer whose clamped displacement of a unit vertex is -1 puts
    the vertex on the origin, where it stays: it is uploaded with length 0,
    whatever the radius. *)
Lemma RunVertices_collapse (E : Engine) (A : AAsteroidActor) (g : GlobalRand E)
    (Base : list FVector) (j : nat) (U : FVector) (Layer : FNoiseLayer)
    (o : FVector) :
  Base !! j = Some U ->
  FVec.SizeSquared U = 1 ->
  RunPlan E A g = [(Layer, o)] ->
  Displacement E Layer o (MaxDisplacementFraction A) U = -1 ->
  exists V : FVector,
    RunVertices E A g Base !! j = Some V /\ FVec.Size V = 0.
Proof.
  intros Hj HU Hplan Hd.
  rewrite (RunVertices_lookup E A g Base j U Hj), Hplan.
  cbn [DisplaceThrough]. unfold DisplaceVertex. cbv zeta.
  rewrite Hd, (Normalize_unit U HU).
  assert (Hzero : FVec.SizeSquared (FVec.Add U (FVec.Mul U (-1))) = 0)
    by (unfold FVec.SizeSquared; cbn; ring).
  rewrite Normalize_small by (rewrite Hzero; pose proof SMALL_NUMBER_pos; lra).
  eexists. split; [reflexivity |].
  unfold FVec.Size. rewrite SizeSquared_Mul, Hzero.
  rewrite Rmult_0_r. apply sqrt_0.
Qed.

(** ** A strong layer on the level-0 icosphere *)

Lemma t_pos : 0 < t.
Proof. unfold t. pose proof (sqrt_pos 5). lra. Qed.

Lemma BaseVertex1_in_base :
  exists Base : list FVector,
    BuildBaseIcosphere 0 = Some (Base, faceIndices) /\
    Base !! 1%nat = Some BaseVertex1.
Proof. eexists. split; reflexivity. Qed.

Lemma BaseVertex1_unit : FVec.SizeSquared BaseVertex1 = 1.
Proof.
  unfold BaseVertex1.
  assert (Hbig : FVec.SizeSquared (MkVector 1 t 0) > FVec.SMALL_NUMBER).
  { unfold FVec.SizeSquared. cbn. pose proof SMALL_NUMBER_lt_1. nra. }
  pose proof (SizeSquared_Normalize _ Hbig) as Hunit.
  rewrite (Normalize_unit _ Hunit). exact Hunit.
Qed.

Lemma BaseVertex1_sum : 1 <= VX BaseVertex1 + VY BaseVertex1 + VZ BaseVertex1.
Proof.
  unfold BaseVertex1.
  assert (HS : FVec.SizeSquared (MkVector 1 t 0) = 1 + t * t)
    by (unfold FVec.SizeSquared; cbn; ring).
  assert (Hbig : FVec.SizeSquared (MkVector 1 t 0) > FVec.SMALL_NUMBER).
  { rewrite HS. pose proof SMALL_NUMBER_lt_1. nra. }
  rewrite (Normalize_unit _ (SizeSquared_Normalize _ Hbig)).
  rewrite (Normalize_large _ Hbig), HS. cbn.
  pose proof t_pos as Ht.
  assert (Hq : sqrt (1 + t * t) * sqrt (1 + t * t) = 1 + t * t)
    by (apply sqrt_sqrt; nra).
  assert (Hq0 : 0 < sqrt (1 + t * t)) by (apply sqrt_lt_R0; nra).
  assert (Hk : / sqrt (1 + t * t) * sqrt (1 + t * t) = 1)
    by (apply Rinv_l; lra).
  assert (Hk0 : 0 < / sqrt (1 + t * t)) by (apply Rinv_0_lt_compat; exact Hq0).
  assert (Hle : sqrt (1 + t * t) <= 1 + t) by nra.
  nra.
Qed.

Lemma Add_self_Mul (U : FVector) (d : R) :
  FVec.Add U (FVec.Mul U d) = FVec.Mul U (1 + d).
Proof. apply FVector_eq; cbn; ring. Qed.

(** Where the noise is -1 the strong layer pushes vertex 1 inwards by the
    whole clamp bound. *)
Lemma StrongLayer_displacement (o : FVector) (m : R) :
  0 <= m <= 1 ->
  Displacement LowNoiseEngine StrongLayer o m BaseVertex1 = - m.
Proof.
  intros Hm. unfold Displacement. cbv zeta.
  rewrite (Normalize_unit _ BaseVertex1_unit).
  apply Clamp_low.
  unfold FVec.DotProduct. cbn.
  pose proof BaseVertex1_sum. lra.
Qed.

Lemma StrongLayer_displaced (o : FVector) (m : R) :
  0 <= m <= 1 ->
  DisplaceVertex LowNoiseEngine StrongLayer o m BaseVertex1
  = FVec.Mul BaseVertex1 (1 - m).
Proof.
  intros Hm. unfold DisplaceVertex. cbv zeta.
  rewrite (StrongLayer_displacement o m Hm).
  rewrite (Normalize_unit _ BaseVertex1_unit).
  rewrite Add_self_Mul. reflexivity.
Qed.

Lemma StrongActor_plan (m : R) (g : list Z) :
  RunPlan LowNoiseEngine (StrongActor m) g
  = [(StrongLayer, LayerOffsets LowNoiseEngine 42)].
Proof. reflexivity. Qed.

Lemma StrongActor_radius (m : R) (g : list Z) :
  ChosenRadius LowNoiseEngine (StrongActor m) g = 100.
Proof. unfold ChosenRadius. apply FMath_RandRange_degenerate. Qed.

Lemma Size_BaseVertex1 : FVec.Size BaseVertex1 = 1.
Proof. unfold FVec.Size. rewrite BaseVertex1_unit. apply sqrt_1. Qed.

(** When the clamp bound is so close to 1 that the displaced vertex falls
    to or below the tolerance of [Normalize], the run uploads it as it is,
    scaled by the radius. *)
Lemma StrongActor_final (m : R) (g : list Z) :
  0 <= m <= 1 ->
  (1 - m) * (1 - m) <= FVec.SMALL_NUMBER ->
  exists (A' : AAsteroidActor) (g' : list Z) (Trace : list Event)
         (Vertices : list FVector),
    GenerateAsteroid LowNoiseEngine (StrongActor m) g = Some (A', g', Trace) /\
    UploadedMeshes Trace = [(Vertices, faceIndices)] /\
    Radius (AsteroidStats A') = 100 /\
    Vertices !! 1%nat = Some (FVec.Mul BaseVertex1 ((1 - m) * 100)).
Proof.
  intros Hm Hsmall.
  destruct (GenerateAsteroid_run LowNoiseEngine (StrongActor m) g)
    as (Base & Triangles & g' & HB & Hrun).
  destruct BaseVertex1_in_base as (Base0 & HB0 & Hj).
  change (Subdivisions (StrongActor m)) with 0%Z in HB.
  rewrite HB0 in HB. injection HB as <- <-.
  eexists _, g', _, _. split; [exact Hrun |].
  split; [apply UploadedMeshes_RunTrace |].
  split; [cbn [AsteroidStats SetStats Radius RunStats]; apply StrongActor_radius |].
  rewrite (RunVertices_lookup _ _ _ _ _ _ Hj).
  rewrite StrongActor_plan, StrongActor_radius.
  cbn [DisplaceThrough MaxDisplacementFraction StrongActor].
  rewrite (StrongLayer_displaced _ m Hm).
  rewrite Normalize_small
    by (rewrite SizeSquared_Mul, BaseVertex1_unit; lra).
  rewrite Mul_Mul. reflexivity.
Qed.

Lemma Mul_BaseVertex1_inj (a b : R) :
  FVec.Mul BaseVertex1 a = FVec.Mul BaseVertex1 b -> a = b.
Proof.
  intros Heq.
  assert (Hx : VX BaseVertex1 * a = VX BaseVertex1 * b)
    by exact (f_equal VX Heq).
  assert (Hy : VY BaseVertex1 * a = VY BaseVertex1 * b)
    by exact (f_equal VY Heq).
  assert (Hz : VZ BaseVertex1 * a = VZ BaseVertex1 * b)
    by exact (f_equal VZ Heq).
  pose proof BaseVertex1_sum. nra.
Qed.

(** The strong layer clamped at 1/2: the vertex is halved by the layer and
    normalised back. *)
Lemma ApplyNoiseLayers_keeps_direction_example :
  StaysClear LowNoiseEngine (RunPlan LowNoiseEngine (StrongActor (1 / 2)) [])
    (1 / 2) BaseVertex1 /\
  FVec.Normalize
    (DisplaceThrough LowNoiseEngine
       (RunPlan LowNoiseEngine (StrongActor (1 / 2)) []) (1 / 2) BaseVertex1)
  = BaseVertex1.
Proof.
  assert (Hclear : StaysClear LowNoiseEngine
                     (RunPlan LowNoiseEngine (StrongActor (1 / 2)) [])
                     (1 / 2) BaseVertex1).
  { rewrite StrongActor_plan. cbn [StaysClear]. cbv zeta.
    rewrite StrongLayer_displacement by lra. rewrite Size_BaseVertex1.
    pose proof SMALL_NUMBER_lt_1.
    unfold FVec.SMALL_NUMBER in *. repeat split; lra. }
  split; [exact Hclear |].
  destruct BaseVertex1_in_base as (Base0 & HB0 & Hj).
  exact (proj1 (proj2
           (ApplyNoiseLayers_keeps_direction LowNoiseEngine
              (StrongActor (1 / 2)) [] Base0 faceIndices 1 BaseVertex1
              HB0 Hj BaseVertex1_unit Hclear))).
Defined.

(** C2 at a failing input: with the clamp bound 0.99999 the displacement
    of vertex 1 of the level-0 icosphere is above [-|V|] (the bound is
    below 1), so the layer only shrinks the vertex to 1/100000 of its
    length; that is below the tolerance of [Normalize], which leaves the
    vertex as it is, and the run uploads it at distance 1/1000 from the
    origin while its radius is 100: not the unit direction times the
    radius, which is what the run without noise layers uploads there. *)
Theorem ApplyNoiseLayers_near_collapse :
  let E := LowNoiseEngine in
  let A := StrongActor (99999 / 100000) in
  exists (Base : list FVector) (U : FVector),
    BuildBaseIcosphere (Subdivisions A) = Some (Base, faceIndices) /\
    Base !! 1%nat = Some U /\
    FVec.SizeSquared U = 1 /\
    AboveMinusSize E (RunPlan E A []) (MaxDisplacementFraction A) U /\
    DisplaceThrough E (RunPlan E A []) (MaxDisplacementFraction A) U
    = FVec.Mul U (/ 100000) /\
    FVec.Normalize (DisplaceThrough E (RunPlan E A []) (MaxDisplacementFraction A) U)
    <> U /\
    (exists (A' : AAsteroidActor) (g' : list Z) (Trace : list Event)
            (Vertices : list FVector),
        GenerateAsteroid E A [] = Some (A', g', Trace) /\
        UploadedMeshes Trace = [(Vertices, faceIndices)] /\
        Radius (AsteroidStats A') = 100 /\
        Vertices !! 1%nat = Some (FVec.Mul U (/ 1000)) /\
        FVec.Size (FVec.Mul U (/ 1000)) = / 1000 /\
        Vertices !! 1%nat <> Some (FVec.Mul U (ChosenRadius E A []))) /\
    (exists (A0 : AAsteroidActor) (g0 : list Z) (Trace0 : list Event)
            (Vertices0 : list FVector),
        GenerateAsteroid E (WithNoiseLayers A []) [] = Some (A0, g0, Trace0) /\
        UploadedMeshes Trace0 = [(Vertices0, faceIndices)] /\
        Vertices0 !! 1%nat = Some (FVec.Mul U 100)).
Proof.
  intros E A.
  assert (Hm : 0 <= 99999 / 100000 <= 1) by lra.
  assert (Hsmall : (1 - 99999 / 100000) * (1 - 99999 / 100000)
                   <= FVec.SMALL_NUMBER)
    by (unfold FVec.SMALL_NUMBER; lra).
  destruct BaseVertex1_in_base as (Base0 & HB0 & Hj).
  exists Base0, BaseVertex1.
  split; [exact HB0 |]. split; [exact Hj |]. split; [exact BaseVertex1_unit |].
  split; [| split; [| split; [| split]]].
  - unfold E, A. rewrite StrongActor_plan. cbn [AboveMinusSize].
    cbn [MaxDisplacementFraction StrongActor].
    rewrite StrongLayer_displacement by exact Hm. rewrite Size_BaseVertex1.
    split; [lra | exact I].
  - unfold E, A. rewrite StrongActor_plan.
    cbn [DisplaceThrough MaxDisplacementFraction StrongActor].
    rewrite (StrongLayer_displaced _ _ Hm). f_equal. lra.
  - unfold E, A. rewrite StrongActor_plan.
    cbn [DisplaceThrough MaxDisplacementFraction StrongActor].
    rewrite (StrongLayer_displaced _ _ Hm).
    rewrite Normalize_small
      by (rewrite SizeSquared_Mul, BaseVertex1_unit; lra).
    intros Heq. rewrite <- (Mul_1 BaseVertex1) in Heq at 2.
    apply Mul_BaseVertex1_inj in Heq. lra.
  - destruct (StrongActor_final (99999 / 100000) [] Hm Hsmall)
      as (A' & g' & Trace & Vertices & Hrun & Hup & HR & Hv).
    exists A', g', Trace, Vertices.
    split; [exact Hrun |]. split; [exact Hup |]. split; [exact HR |].
    replace ((1 - 99999 / 100000) * 100) with (/ 1000) in Hv by lra.
    split; [exact Hv |].
    split.
    + rewrite (Size_scaled _ _ BaseVertex1_unit) by lra. reflexivity.
    + rewrite Hv. unfold E, A. rewrite StrongActor_radius.
      intros Heq. apply (inj Some) in Heq.
      apply Mul_BaseVertex1_inj in Heq. lra.
  - destruct (GenerateAsteroid_run E (WithNoiseLayers A []) [])
      as (Base & T & g0 & HB & Hrun0).
    change (Subdivisions (WithNoiseLayers A [])) with 0%Z in HB.
    rewrite HB0 in HB. injection HB as <- <-.
    eexists _, g0, _, _. split; [exact Hrun0 |].
    split; [apply UploadedMeshes_RunTrace |].
    rewrite (RunVertices_lookup _ _ _ _ _ _ Hj).
    change (RunPlan E (WithNoiseLayers A []) []) with
      (@nil (FNoiseLayer * FVector)).
    cbn [DisplaceThrough]. rewrite (Normalize_unit _ BaseVertex1_unit).
    unfold E, A, WithNoiseLayers.
    replace (ChosenRadius LowNoiseEngine _ []) with 100
      by (symmetry; unfold ChosenRadius; apply FMath_RandRange_degenerate).
    reflexivity.
Qed.

(** C6 at a failing input: with [MaxDisplacementFraction = 1] the strong
    layer moves vertex 1 of the level-0 icosphere onto the origin; the
    re-normalisation leaves the zero vector as it is, and the vertex is
    uploaded with length 0 while the radius of the run is 100. *)
Theorem GenerateAsteroid_collapsed_vertex :
  exists (A' : AAsteroidActor) (g' : list Z) (Trace : list Event)
         (Vertices : list FVector) (V : FVector),
    GenerateAsteroid LowNoiseEngine (StrongActor 1) [] = Some (A', g', Trace) /\
    UploadedMeshes Trace = [(Vertices, faceIndices)] /\
    In (AddCollisionConvexMesh Vertices) Trace /\
    Radius (AsteroidStats A') = 100 /\
    Vertices !! 1%nat = Some V /\
    FVec.Size V = 0.
Proof.
  assert (Hm : 0 <= 1 <= 1) by lra.
  assert (Hsmall : (1 - 1) * (1 - 1) <= FVec.SMALL_NUMBER)
    by (unfold FVec.SMALL_NUMBER; lra).
  destruct (StrongActor_final 1 [] Hm Hsmall)
    as (A' & g' & Trace & Vertices & Hrun & Hup & HR & Hv).
  exists A', g', Trace, Vertices, (FVec.Mul BaseVertex1 ((1 - 1) * 100)).
  split; [exact Hrun |]. split; [exact Hup |].
  split.
  - destruct (GenerateAsteroid_run LowNoiseEngine (StrongActor 1) [])
      as (Base & Triangles & g2 & _ & Hrun2).
    rewrite Hrun in Hrun2. injection Hrun2 as _ _ ->.
    rewrite UploadedMeshes_RunTrace in Hup. injection Hup as <- _.
    unfold RunTrace. apply in_or_app. right. right. left. reflexivity.
  - split; [exact HR |]. split; [exact Hv |].
    unfold FVec.Size. rewrite SizeSquared_Mul.
    replace ((1 - 1) * 100 * ((1 - 1) * 100) * FVec.SizeSquared BaseVertex1)
      with 0 by ring.
    apply sqrt_0.
Qed.

(** ** The radius and the global seed *)

Lemma QuietEngine_displacement (Layer : FNoiseLayer) (o : FVector) (m : R)
    (V : FVector) :
  0 < m -> Displacement QuietEngine Layer o m V = 0.
Proof.
  intros Hm. unfold Displacement. cbv zeta.
  assert (Hdot : forall n : FVector,
             FVec.DotProduct
               (FVec.Mul (FVec.Mul (MkVector 0 0 0) (Intensity Layer)) (1 / 2)) n
             = 0)
    by (intros n; unfold FVec.DotProduct; cbn; ring).
  cbn [PerlinNoise3D QuietEngine ScriptedEngine].
  rewrite Hdot. apply Clamp_inside; lra.
Qed.

Lemma QuietEngine_displaced (Layer : FNoiseLayer) (o : FVector) (m : R)
    (V : FVector) :
  0 < m -> DisplaceVertex QuietEngine Layer o m V = V.
Proof.
  intros Hm. unfold DisplaceVertex. cbv zeta.
  rewrite (QuietEngine_displacement Layer o m V Hm).
  apply FVector_eq; cbn; ring.
Qed.

(** With an explicit global seed, the seeds and the plan of a run do not
    depend on the process-wide generator; two runs that draw the same
    radius make the same calls and store the same statistics. *)
Lemma GenerateAsteroid_seeded_part (E : Engine) (A : AAsteroidActor)
    (g h : GlobalRand E) :
  (0 <= GlobalSeed A)%Z ->
  ResolvedLayerSeeds E A g = ResolvedLayerSeeds E A h /\
  RunPlan E A g = RunPlan E A h /\
  (ChosenRadius E A g = ChosenRadius E A h ->
   RunStats E A g = RunStats E A h /\
   forall (Base : list FVector) (Triangles : list Z),
     RunTrace E A g Base Triangles = RunTrace E A h Base Triangles).
Proof.
  intros Hpos.
  assert (Hs : UsedGlobalSeed E A g = UsedGlobalSeed E A h)
    by (unfold UsedGlobalSeed; rewrite !PickGlobalSeed_explicit by exact Hpos;
        reflexivity).
  assert (Hl : ResolvedLayerSeeds E A g = ResolvedLayerSeeds E A h)
    by (unfold ResolvedLayerSeeds; rewrite Hs; reflexivity).
  assert (Hp : RunPlan E A g = RunPlan E A h)
    by (unfold RunPlan; rewrite Hl; reflexivity).
  split; [exact Hl |]. split; [exact Hp |].
  intros HR.
  assert (Hst : RunStats E A g = RunStats E A h)
    by (unfold RunStats; rewrite Hl, HR; reflexivity).
  split; [exact Hst |].
  intros Base Triangles. unfold RunTrace, RunVertices.
  rewrite Hp, HR, Hst. reflexivity.
Qed.

(** C1 at a failing input: the actor has an explicit global seed and an
    explicit layer seed, and two runs that differ only in what the
    process-wide generator returns next store the radii 250 and 1000 and
    upload different vertices, while the recorded layer seeds agree. *)
Theorem GenerateAsteroid_radius_not_seeded :
  exists (A1 A2 : AAsteroidActor) (g1 g2 : list Z) (Trace1 Trace2 : list Event)
         (Vertices1 Vertices2 : list FVector),
    GenerateAsteroid QuietEngine SeededActor [0%Z] = Some (A1, g1, Trace1) /\
    GenerateAsteroid QuietEngine SeededActor [RAND_MAX] = Some (A2, g2, Trace2) /\
    Radius (AsteroidStats A1) = 250 /\
    Radius (AsteroidStats A2) = 1000 /\
    NoiseLayerSeeds (AsteroidStats A1) = [42%Z] /\
    NoiseLayerSeeds (AsteroidStats A2) = [42%Z] /\
    UploadedMeshes Trace1 = [(Vertices1, faceIndices)] /\
    UploadedMeshes Trace2 = [(Vertices2, faceIndices)] /\
    Vertices1 !! 1%nat = Some (FVec.Mul BaseVertex1 250) /\
    Vertices2 !! 1%nat = Some (FVec.Mul BaseVertex1 1000) /\
    Vertices1 <> Vertices2.
Proof.
  destruct (GenerateAsteroid_run QuietEngine SeededActor [0%Z])
    as (Base1 & T1 & g1 & HB1 & Hrun1).
  destruct (GenerateAsteroid_run QuietEngine SeededActor [RAND_MAX])
    as (Base2 & T2 & g2 & HB2 & Hrun2).
  destruct BaseVertex1_in_base as (Base0 & HB0 & Hj).
  change (Subdivisions SeededActor) with 0%Z in HB1, HB2.
  rewrite HB0 in HB1, HB2. injection HB1 as <- <-. injection HB2 as <- <-.
  assert (HR1 : ChosenRadius QuietEngine SeededActor [0%Z] = 250).
  { unfold ChosenRadius. cbn. unfold RAND_MAX. field. }
  assert (HR2 : ChosenRadius QuietEngine SeededActor [RAND_MAX] = 1000).
  { unfold ChosenRadius. cbn. unfold RAND_MAX. field. }
  assert (Hv : forall g : list Z,
             RunVertices QuietEngine SeededActor g Base0 !! 1%nat
             = Some (FVec.Mul BaseVertex1 (ChosenRadius QuietEngine SeededActor g))).
  { intros g. rewrite (RunVertices_lookup _ _ _ _ _ _ Hj).
    change (RunPlan QuietEngine SeededActor g)
      with [(MkNoiseLayer (1 / 10) 1 42, LayerOffsets QuietEngine 42)].
    cbn [DisplaceThrough MaxDisplacementFraction SeededActor].
    rewrite QuietEngine_displaced by lra.
    rewrite (Normalize_unit _ BaseVertex1_unit). reflexivity. }
  eexists _, _, g1, g2, _, _, _, _.
  split; [exact Hrun1 |]. split; [exact Hrun2 |].
  cbn [AsteroidStats SetStats Radius RunStats NoiseLayerSeeds].
  split; [exact HR1 |]. split; [exact HR2 |].
  split; [reflexivity |]. split; [reflexivity |].
  split; [apply UploadedMeshes_RunTrace |].
  split; [apply UploadedMeshes_RunTrace |].
  split; [rewrite Hv, HR1; reflexivity |].
  split; [rewrite Hv, HR2; reflexivity |].
  intros Heq.
  assert (Hlook : RunVertices QuietEngine SeededActor [0%Z] Base0 !! 1%nat
                  = RunVertices QuietEngine SeededActor [RAND_MAX] Base0 !! 1%nat)
    by (rewrite Heq; reflexivity).
  rewrite !Hv, HR1, HR2 in Hlook.
  apply (inj Some) in Hlook. apply Mul_BaseVertex1_inj in Hlook. lra.
Qed.

(** * Further properties of the mesh construction *)

(** ** Lists read three at a time *)

Lemma list_ind3 {A : Type} (P : list A -> Prop) :
  P [] -> (forall a, P [a]) -> (forall a b, P [a; b]) ->
  (forall a b c l, P l -> P (a :: b :: c :: l)) ->
  forall l, P l.
Proof.
  intros H0 H1 H2 H3.
  assert (Hall : forall l, P l /\ (forall a, P (a :: l)) /\ (forall a b, P (a :: b :: l))).
  { induction l as [| x l (IH0 & IH1 & IH2)].
    - split; [exact H0 |]. split; [exact H1 | exact H2].
    - split; [apply IH1 |]. split; [intros a; apply IH2 |].
      intros a b. apply H3. exact IH0. }
  intros l. exact (proj1 (Hall l)).
Qed.

(** ** One new vertex per edge *)

(** A request adds its key to the cache, and a vertex exactly when the key
    is new. *)
Lemma GetMiddlePoint_count (p1 p2 : Z) (Vertices Vertices' : list FVector)
    (Cache Cache' : gmap Z Z) (i : Z) :
  GetMiddlePoint p1 p2 Vertices Cache = Some (i, (Vertices', Cache')) ->
  dom Cache' = dom Cache ∪ {[MakeKey p1 p2]} /\
  (length Vertices' + size Cache = length Vertices + size Cache')%nat /\
  exists new, Vertices' = Vertices ++ new.
Proof.
  unfold GetMiddlePoint.
  destruct (Cache !! MakeKey p1 p2) as [Found |] eqn:Hk.
  - intros [= <- <- <-].
    split; [| split; [lia | exists []; symmetry; apply app_nil_r]].
    apply elem_of_dom_2 in Hk. set_solver.
  - destruct (Index Vertices p1) as [point1 |]; [| discriminate].
    destruct (Index Vertices p2) as [point2 |]; [| discriminate].
    intros [= <- <- <-].
    split; [rewrite dom_insert_L; set_solver |].
    split; [| eexists; reflexivity].
    rewrite length_app, map_size_insert_None by exact Hk. cbn [length]. lia.
Qed.

Lemma SubdivideLoop_count (Triangles : list Z) :
  forall (Vertices Vertices' : list FVector) (Cache : gmap Z Z)
         (newTriangles Triangles' : list Z),
    SubdivideLoop Triangles Vertices Cache newTriangles
      = Some (Vertices', Triangles') ->
    (exists Cache' : gmap Z Z,
        dom Cache' = dom Cache ∪ list_to_set (EdgeKeys Triangles) /\
        (length Vertices' + size Cache = length Vertices + size Cache')%nat) /\
    (exists new, Vertices' = Vertices ++ new) /\
    length Triangles' = (length newTriangles + 12 * (length Triangles / 3))%nat.
Proof.
  induction Triangles as [| a | a b | v1 v2 v3 rest IH] using list_ind3;
    intros Vertices Vertices' Cache newTriangles Triangles'.
  1-3: cbn [SubdivideLoop EdgeKeys]; intros [= <- <-];
       (split; [exists Cache; split; [set_solver | lia] |]);
       (split; [exists []; symmetry; apply app_nil_r |]);
       cbn; lia.
  cbn [SubdivideLoop EdgeKeys].
  destruct (GetMiddlePoint v1 v2 Vertices Cache) as [[ia [V1 C1]] |] eqn:H1;
    [| discriminate].
  destruct (GetMiddlePoint v2 v3 V1 C1) as [[ib [V2 C2]] |] eqn:H2;
    [| discriminate].
  destruct (GetMiddlePoint v3 v1 V2 C2) as [[ic [V3 C3]] |] eqn:H3;
    [| discriminate].
  intros Hrun.
  apply GetMiddlePoint_count in H1 as (Hd1 & Hn1 & [new1 ->]).
  apply GetMiddlePoint_count in H2 as (Hd2 & Hn2 & [new2 ->]).
  apply GetMiddlePoint_count in H3 as (Hd3 & Hn3 & [new3 ->]).
  apply IH in Hrun as ((C' & Hd & Hn) & [new ->] & Hlen).
  split; [| split].
  - exists C'. split; [| lia].
    rewrite Hd, Hd3, Hd2, Hd1. cbn [list_to_set]. set_solver.
  - exists (new1 ++ new2 ++ new3 ++ new). rewrite <- !app_assoc. reflexivity.
  - rewrite Hlen, length_app. cbn [length].
    change (S (S (S (length rest)))) with (3 + length rest)%nat.
    replace ((3 + length rest) / 3)%nat with (S (length rest / 3)).
    + lia.
    + replace (3 + length rest)%nat with (1 * 3 + length rest)%nat by lia.
      rewrite Nat.div_add_l by lia. lia.
Qed.

(** On valid indices the loop runs to its end, whatever the length of the
    list. *)
Lemma SubdivideLoop_runs (Triangles : list Z) :
  forall (Vertices : list FVector) (Cache : gmap Z Z) (newTriangles : list Z),
    Forall (ValidIndex (length Vertices)) Triangles ->
    CacheValid (length Vertices) Cache ->
    exists Vertices' Triangles',
      SubdivideLoop Triangles Vertices Cache newTriangles
        = Some (Vertices', Triangles').
Proof.
  induction Triangles as [| a | a b | v1 v2 v3 rest IH] using list_ind3;
    intros Vertices Cache newTriangles HT HC.
  1-3: eexists _, _; reflexivity.
  apply Forall_cons in HT as [Hv1 HT].
  apply Forall_cons in HT as [Hv2 HT].
  apply Forall_cons in HT as [Hv3 HT].
  cbn [SubdivideLoop].
  destruct (GetMiddlePoint_ok v1 v2 Vertices Cache HC Hv1 Hv2)
    as (a & V1 & C1 & -> & _ & HC1 & Hle1).
  destruct (GetMiddlePoint_ok v2 v3 V1 C1 HC1
              (ValidIndex_mono _ _ _ Hv2 Hle1) (ValidIndex_mono _ _ _ Hv3 Hle1))
    as (b & V2 & C2 & -> & _ & HC2 & Hle2).
  assert (Hle12 : (length Vertices <= length V2)%nat) by lia.
  destruct (GetMiddlePoint_ok v3 v1 V2 C2 HC2
              (ValidIndex_mono _ _ _ Hv3 Hle12) (ValidIndex_mono _ _ _ Hv1 Hle12))
    as (c & V3 & C3 & -> & _ & HC3 & Hle3).
  apply IH; [| exact HC3].
  apply (Forall_ValidIndex_mono (length Vertices)); [exact HT | lia].
Qed.

Lemma size_list_to_set_length (l : list Z) :
  (size (list_to_set l : gset Z) <= length l)%nat.
Proof.
  induction l as [| x l IH]; cbn [list_to_set length].
  - rewrite size_empty. lia.
  - rewrite size_union_alt, size_singleton.
    pose proof (subseteq_size (list_to_set l ∖ {[x]}) (list_to_set l : gset Z)) as Hsub.
    assert (Hincl : (list_to_set l ∖ {[x]} : gset Z) ⊆ list_to_set l)
      by apply subseteq_difference_l, reflexivity.
    specialize (Hsub Hincl). lia.
Qed.

Lemma SubdivideIcosphere_pass (Vertices : list FVector) (Triangles : list Z) :
  Forall (ValidIndex (length Vertices)) Triangles ->
  exists (new : list FVector) (Triangles' : list Z),
    SubdivideIcosphere Vertices Triangles = Some (Vertices ++ new, Triangles') /\
    length new = size (list_to_set (EdgeKeys Triangles) : gset Z) /\
    (length new <= 3 * (length Triangles / 3))%nat /\
    length Triangles' = (12 * (length Triangles / 3))%nat.
Proof.
  intros HT. unfold SubdivideIcosphere.
  destruct (SubdivideLoop_runs Triangles Vertices ∅ [] HT (CacheValid_empty _))
    as (V' & T' & Hrun).
  destruct (SubdivideLoop_count _ _ _ _ _ _ Hrun)
    as ((C' & Hd & Hn) & [new ->] & Hlen).
  exists new, T'. split; [exact Hrun |].
  rewrite length_app, map_size_empty in Hn.
  rewrite dom_empty_L, (left_id_L ∅ (∪)) in Hd.
  assert (Hnew : length new = size (list_to_set (EdgeKeys Triangles) : gset Z)).
  { rewrite <- Hd, size_dom. lia. }
  split; [exact Hnew |]. split; [| exact Hlen].
  rewrite Hnew.
  etransitivity; [apply size_list_to_set_length |].
  clear. induction Triangles as [| a | a b | v1 v2 v3 rest IH] using list_ind3;
    cbn [EdgeKeys length]; try lia.
  change (S (S (S (length rest)))) with (1 * 3 + length rest)%nat.
  rewrite Nat.div_add_l by lia. lia.
Qed.

(** X1: a subdivision pass over a mesh with valid indices succeeds; it keeps
    every vertex in place, appends one vertex per distinct edge key, and
    writes twelve indices per complete triangle, ignoring an incomplete last
    group of indices. *)
Theorem SubdivideIcosphere_welds (Vertices : list FVector) (Triangles : list Z) :
  Forall (ValidIndex (length Vertices)) Triangles ->
  exists (new : list FVector) (Triangles' : list Z),
    SubdivideIcosphere Vertices Triangles = Some (Vertices ++ new, Triangles') /\
    length new = size (list_to_set (EdgeKeys Triangles) : gset Z) /\
    (length new <= 3 * (length Triangles / 3))%nat /\
    length Triangles' = (12 * (length Triangles / 3))%nat.
Proof. exact (SubdivideIcosphere_pass Vertices Triangles). Qed.

(** Two triangles sharing the edge (0,1), followed by a stray index: four
    distinct edges besides the shared one, hence five new vertices. *)
Lemma SubdivideIcosphere_welds_witness :
  let Vertices :=
    [MkVector 1 0 0; MkVector 0 1 0; MkVector 0 0 1; MkVector 0 0 (-1)] in
  exists (new : list FVector) (Triangles' : list Z),
    SubdivideIcosphere Vertices [0; 1; 2; 1; 0; 3; 2]%Z
      = Some (Vertices ++ new, Triangles') /\
    length new = 5%nat /\ length Triangles' = 24%nat.
Proof.
  intros Vertices.
  destruct (SubdivideIcosphere_welds Vertices [0; 1; 2; 1; 0; 3; 2]%Z)
    as (new & T' & Hrun & Hnew & _ & Hlen).
  - repeat (apply Forall_cons; split; [unfold ValidIndex; cbn; lia |]).
    apply Forall_nil_2.
  - exists new, T'. split; [exact Hrun |]. split; [| exact Hlen].
    rewrite Hnew. reflexivity.
Defined.

(** ** Normalising twice *)

Lemma Normalize_idem (a : FVector) :
  FVec.Normalize (FVec.Normalize a) = FVec.Normalize a.
Proof.
  destruct (Rgt_dec (FVec.SizeSquared a) FVec.SMALL_NUMBER) as [Hbig | Hsmall].
  - apply Normalize_unit, SizeSquared_Normalize. exact Hbig.
  - rewrite (Normalize_small a) by lra. apply Normalize_small. lra.
Qed.

Lemma Normalized_NormalizeVertices (Vertices : list FVector) :
  Normalized (NormalizeVertices Vertices).
Proof.
  unfold Normalized, NormalizeVertices. apply Forall_fmap, Forall_forall.
  intros V _. apply Normalize_idem.
Qed.

Lemma NormalizeVertices_Normalized (Vertices : list FVector) :
  Normalized Vertices -> NormalizeVertices Vertices = Vertices.
Proof.
  unfold Normalized, NormalizeVertices.
  induction 1 as [| V rest HV _ IH]; [reflexivity |].
  cbn [map]. rewrite HV, IH. reflexivity.
Qed.

Lemma GetMiddlePoint_Normalized (p1 p2 : Z) (Vertices Vertices' : list FVector)
    (Cache Cache' : gmap Z Z) (i : Z) :
  GetMiddlePoint p1 p2 Vertices Cache = Some (i, (Vertices', Cache')) ->
  Normalized Vertices -> Normalized Vertices'.
Proof.
  unfold GetMiddlePoint, Normalized.
  destruct (Cache !! MakeKey p1 p2) as [Found |].
  - intros [= <- <- <-] HV. exact HV.
  - destruct (Index Vertices p1) as [point1 |]; [| discriminate].
    destruct (Index Vertices p2) as [point2 |]; [| discriminate].
    intros [= <- <- <-] HV. apply Forall_app. split; [exact HV |].
    apply Forall_cons. split; [apply Normalize_idem | apply Forall_nil_2].
Qed.

Lemma SubdivideLoop_Normalized (Triangles : list Z) :
  forall (Vertices Vertices' : list FVector) (Cache : gmap Z Z)
         (newTriangles Triangles' : list Z),
    SubdivideLoop Triangles Vertices Cache newTriangles
      = Some (Vertices', Triangles') ->
    Normalized Vertices -> Normalized Vertices'.
Proof.
  induction Triangles as [| a | a b | v1 v2 v3 rest IH] using list_ind3;
    intros Vertices Vertices' Cache newTriangles Triangles'.
  1-3: cbn [SubdivideLoop]; intros [= <- <-] HV; exact HV.
  cbn [SubdivideLoop].
  destruct (GetMiddlePoint v1 v2 Vertices Cache) as [[ia [V1 C1]] |] eqn:H1;
    [| discriminate].
  destruct (GetMiddlePoint v2 v3 V1 C1) as [[ib [V2 C2]] |] eqn:H2;
    [| discriminate].
  destruct (GetMiddlePoint v3 v1 V2 C2) as [[ic [V3 C3]] |] eqn:H3;
    [| discriminate].
  intros Hrun HV. apply (IH _ _ _ _ _ Hrun).
  apply (GetMiddlePoint_Normalized _ _ _ _ _ _ _ H3).
  apply (GetMiddlePoint_Normalized _ _ _ _ _ _ _ H2).
  apply (GetMiddlePoint_Normalized _ _ _ _ _ _ _ H1). exact HV.
Qed.

Lemma SubdivideTimes_Normalized (n : nat) :
  forall (Vertices Vertices' : list FVector) (Triangles Triangles' : list Z),
    SubdivideTimes n Vertices Triangles = Some (Vertices', Triangles') ->
    Normalized Vertices -> Normalized Vertices'.
Proof.
  induction n as [| n IH]; intros Vertices Vertices' Triangles Triangles';
    cbn [SubdivideTimes].
  - intros [= <- <-] HV. exact HV.
  - destruct (SubdivideIcosphere Vertices Triangles) as [[V1 T1] |] eqn:Hpass;
      [| discriminate].
    intros Hrun HV. apply (IH _ _ _ _ Hrun).
    exact (SubdivideLoop_Normalized _ _ _ _ _ _ Hpass HV).
Qed.

(** The last pass of [n + 1] passes is a pass over the result of [n]. *)
Lemma SubdivideTimes_succ (n : nat) :
  forall (Vertices : list FVector) (Triangles : list Z),
    SubdivideTimes (S n) Vertices Triangles
    = match SubdivideTimes n Vertices Triangles with
      | None => None
      | Some (Vertices', Triangles') => SubdivideIcosphere Vertices' Triangles'
      end.
Proof.
  induction n as [| n IH]; intros Vertices Triangles.
  - cbn [SubdivideTimes].
    destruct (SubdivideIcosphere Vertices Triangles) as [[V1 T1] |]; reflexivity.
  - cbn [SubdivideTimes].
    destruct (SubdivideIcosphere Vertices Triangles) as [[V1 T1] |];
      [| reflexivity].
    specialize (IH V1 T1). cbn [SubdivideTimes] in IH. exact IH.
Qed.

(** The final normalisation of [BuildBaseIcosphere] changes no vertex. *)
Lemma BuildBaseIcosphere_unfold (SubdivisionsLevel : Z) :
  BuildBaseIcosphere SubdivisionsLevel
  = SubdivideTimes (Z.to_nat SubdivisionsLevel)
      (NormalizeVertices IcosahedronVertices) faceIndices.
Proof.
  unfold BuildBaseIcosphere.
  destruct (SubdivideTimes (Z.to_nat SubdivisionsLevel)
              (NormalizeVertices IcosahedronVertices) faceIndices)
    as [[V T] |] eqn:Hrun; [| reflexivity].
  rewrite NormalizeVertices_Normalized; [reflexivity |].
  exact (SubdivideTimes_Normalized _ _ _ _ _ Hrun
           (Normalized_NormalizeVertices _)).
Qed.

(** X6: the icosphere of level [n + 1] is one subdivision pass over the
    icosphere of level [n]: the final normalisation of [BuildBaseIcosphere]
    changes nothing, the vertices of level [n] stay where they are, and one
    vertex per distinct edge key of level [n] follows them. *)
Theorem BuildBaseIcosphere_next_level (SubdivisionsLevel : Z) :
  (0 <= SubdivisionsLevel)%Z ->
  exists (Vertices new : list FVector) (Triangles Triangles' : list Z),
    BuildBaseIcosphere SubdivisionsLevel = Some (Vertices, Triangles) /\
    SubdivideIcosphere Vertices Triangles = Some (Vertices ++ new, Triangles') /\
    BuildBaseIcosphere (SubdivisionsLevel + 1) = Some (Vertices ++ new, Triangles') /\
    NormalizeVertices Vertices = Vertices /\
    length new = size (list_to_set (EdgeKeys Triangles) : gset Z).
Proof.
  intros Hlevel.
  destruct (BuildBaseIcosphere_ok SubdivisionsLevel)
    as (V & T & Hrun & _ & HvalT & _).
  destruct (SubdivideIcosphere_pass V T HvalT) as (new & T' & Hpass & Hnew & _).
  exists V, new, T, T'.
  split; [exact Hrun |]. split; [exact Hpass |].
  split; [| split; [| exact Hnew]].
  - rewrite BuildBaseIcosphere_unfold in *.
    replace (Z.to_nat (SubdivisionsLevel + 1)) with (S (Z.to_nat SubdivisionsLevel))
      by lia.
    rewrite SubdivideTimes_succ, Hrun. exact Hpass.
  - apply NormalizeVertices_Normalized.
    rewrite BuildBaseIcosphere_unfold in Hrun.
    exact (SubdivideTimes_Normalized _ _ _ _ _ Hrun
             (Normalized_NormalizeVertices _)).
Qed.

(** The step from level 0 to level 1. *)
Lemma BuildBaseIcosphere_next_level_witness :
  (0 <= 0)%Z /\
  exists (Vertices new : list FVector) (Triangles Triangles' : list Z),
    BuildBaseIcosphere 0 = Some (Vertices, Triangles) /\
    BuildBaseIcosphere 1 = Some (Vertices ++ new, Triangles').
Proof.
  split; [lia |].
  destruct (BuildBaseIcosphere_next_level 0 ltac:(lia))
    as (V & new & T & T' & H0 & _ & H1 & _).
  exists V, new, T, T'. split; [exact H0 | exact H1].
Defined.

(** ** Dot products of unit vectors and their midpoints *)

Lemma Dot_comm (a b : FVector) : FVec.DotProduct a b = FVec.DotProduct b a.
Proof. unfold FVec.DotProduct. ring. Qed.

Lemma Dot_self (a : FVector) : FVec.DotProduct a a = FVec.SizeSquared a.
Proof. reflexivity. Qed.

Lemma Dot_Mul_Mul (a b : FVector) (k l : R) :
  FVec.DotProduct (FVec.Mul a k) (FVec.Mul b l) = k * l * FVec.DotProduct a b.
Proof. unfold FVec.DotProduct. cbn. ring. Qed.

Lemma Dot_Mul_r (a b : FVector) (l : R) :
  FVec.DotProduct a (FVec.Mul b l) = l * FVec.DotProduct a b.
Proof. unfold FVec.DotProduct. cbn. ring. Qed.

Lemma Dot_Add_Add (a b c d : FVector) :
  FVec.DotProduct (FVec.Add a b) (FVec.Add c d)
  = FVec.DotProduct a c + FVec.DotProduct a d
    + FVec.DotProduct b c + FVec.DotProduct b d.
Proof. unfold FVec.DotProduct. cbn. ring. Qed.

Lemma Dot_Add_r (a c d : FVector) :
  FVec.DotProduct a (FVec.Add c d)
  = FVec.DotProduct a c + FVec.DotProduct a d.
Proof. unfold FVec.DotProduct. cbn. ring. Qed.

Lemma MiddleOf_comm (P Q : FVector) : MiddleOf P Q = MiddleOf Q P.
Proof.
  unfold MiddleOf. f_equal. apply FVector_eq; cbn; ring.
Qed.

(** The midpoint of two unit vectors at most a right angle apart is their
    sum scaled to length 1. *)
Lemma MiddleOf_unit (U W : FVector) :
  FVec.SizeSquared U = 1 -> FVec.SizeSquared W = 1 ->
  0 <= FVec.DotProduct U W ->
  FVec.SizeSquared (MiddleOf U W) = 1 /\
  exists k : R, 0 < k /\ MiddleOf U W = FVec.Mul (FVec.Add U W) k.
Proof.
  intros HU HW Hd.
  assert (HSS : FVec.SizeSquared (FVec.Mul (FVec.Add U W) (1 / 2))
                = (1 + FVec.DotProduct U W) / 2).
  { rewrite SizeSquared_Mul, <- Dot_self, Dot_Add_Add.
    rewrite (Dot_comm W U), !Dot_self, HU, HW. field. }
  assert (Hbig : FVec.SizeSquared (FVec.Mul (FVec.Add U W) (1 / 2))
                 > FVec.SMALL_NUMBER)
    by (rewrite HSS; unfold FVec.SMALL_NUMBER; lra).
  unfold MiddleOf. split; [apply SizeSquared_Normalize; exact Hbig |].
  rewrite (Normalize_large _ Hbig), Mul_Mul.
  eexists. split; [| reflexivity].
  apply Rmult_lt_0_compat; [lra |].
  apply Rinv_0_lt_compat, sqrt_lt_R0.
  pose proof SMALL_NUMBER_pos. lra.
Qed.

(** A unit vector at most a right angle from both ends of an edge is at
    most a right angle from the midpoint of the edge. *)
Lemma Dot_corner_Middle (U A B : FVector) :
  FVec.SizeSquared A = 1 -> FVec.SizeSquared B = 1 ->
  0 <= FVec.DotProduct A B ->
  0 <= FVec.DotProduct U A -> 0 <= FVec.DotProduct U B ->
  0 <= FVec.DotProduct U (MiddleOf A B).
Proof.
  intros HA HB HAB HUA HUB.
  destruct (MiddleOf_unit A B HA HB HAB) as (_ & k & Hk & ->).
  rewrite Dot_Mul_r, Dot_Add_r. apply Rmult_le_pos; lra.
Qed.

Lemma Dot_Middle_Middle (A B C D : FVector) :
  FVec.SizeSquared A = 1 -> FVec.SizeSquared B = 1 ->
  FVec.SizeSquared C = 1 -> FVec.SizeSquared D = 1 ->
  0 <= FVec.DotProduct A B -> 0 <= FVec.DotProduct C D ->
  0 <= FVec.DotProduct A C -> 0 <= FVec.DotProduct A D ->
  0 <= FVec.DotProduct B C -> 0 <= FVec.DotProduct B D ->
  0 <= FVec.DotProduct (MiddleOf A B) (MiddleOf C D).
Proof.
  intros HA HB HC HD HAB HCD HAC HAD HBC HBD.
  destruct (MiddleOf_unit A B HA HB HAB) as (_ & k & Hk & ->).
  destruct (MiddleOf_unit C D HC HD HCD) as (_ & l & Hl & ->).
  rewrite Dot_Mul_Mul, Dot_Add_Add.
  apply Rmult_le_pos; [apply Rmult_le_pos; lra | lra].
Qed.

(** ** Indexing an extended buffer *)

Lemma Index_app_l {A : Type} (l new : list A) (i : Z) (x : A) :
  Index l i = Some x -> Index (l ++ new) i = Some x.
Proof.
  unfold Index. destruct (i <? 0)%Z; [discriminate |].
  intros Hx. apply lookup_app_l_Some. exact Hx.
Qed.

Lemma Index_last {A : Type} (l : list A) (x : A) :
  Index (l ++ [x]) (Z.of_nat (length l)) = Some x.
Proof.
  unfold Index. destruct (Z.ltb_spec (Z.of_nat (length l)) 0); [lia |].
  rewrite Nat2Z.id, lookup_app_r by lia.
  rewrite Nat.sub_diag. reflexivity.
Qed.

Lemma UnitSphere_Index (Vertices : list FVector) (i : Z) (U : FVector) :
  UnitSphere Vertices -> Index Vertices i = Some U -> FVec.SizeSquared U = 1.
Proof.
  unfold UnitSphere, Index. intros HV. destruct (i <? 0)%Z; [discriminate |].
  intros Hi. exact (Forall_lookup_1 _ _ _ _ HV Hi).
Qed.

Lemma SphereFace_app (Vertices new : list FVector) (f : Z * Z * Z) :
  SphereFace Vertices f -> SphereFace (Vertices ++ new) f.
Proof.
  destruct f as [[i1 i2] i3]. unfold SphereFace.
  intros (U1 & U2 & U3 & H1 & H2 & H3 & Hd).
  exists U1, U2, U3.
  split; [apply Index_app_l; exact H1 |].
  split; [apply Index_app_l; exact H2 |].
  split; [apply Index_app_l; exact H3 | exact Hd].
Qed.

Lemma CacheMidpoints_app (Vertices new : list FVector) (Cache : gmap Z Z) :
  CacheMidpoints Vertices Cache -> CacheMidpoints (Vertices ++ new) Cache.
Proof.
  intros HC key i Hk.
  destruct (HC key i Hk) as (p & q & P & Q & Hkey & Hp & Hq & Hi).
  exists p, q, P, Q. split; [exact Hkey |].
  split; [apply Index_app_l; exact Hp |].
  split; [apply Index_app_l; exact Hq | apply Index_app_l; exact Hi].
Qed.

Lemma CacheMidpoints_empty (Vertices : list FVector) :
  CacheMidpoints Vertices ∅.
Proof. intros key i Hk. rewrite lookup_empty in Hk. discriminate. Qed.

(** With fewer than 2^31 vertices, a request returns the index of the
    midpoint of its two endpoints, whether it finds it in the cache or
    appends it. *)
Lemma GetMiddlePoint_midpoint (p1 p2 : Z) (Vertices Vertices' : list FVector)
    (Cache Cache' : gmap Z Z) (i : Z) (P1 P2 : FVector) :
  GetMiddlePoint p1 p2 Vertices Cache = Some (i, (Vertices', Cache')) ->
  CacheMidpoints Vertices Cache ->
  Index Vertices p1 = Some P1 -> Index Vertices p2 = Some P2 ->
  (Z.of_nat (length Vertices) <= 2 ^ 31)%Z ->
  Index Vertices' i = Some (MiddleOf P1 P2) /\
  CacheMidpoints Vertices' Cache' /\
  (Vertices' = Vertices \/ Vertices' = Vertices ++ [MiddleOf P1 P2]).
Proof.
  intros Hcall HC Hp1 Hp2 Hlen. unfold GetMiddlePoint in Hcall.
  destruct (Cache !! MakeKey p1 p2) as [Found |] eqn:Hk.
  - injection Hcall as <- <- <-.
    split; [| split; [exact HC | left; reflexivity]].
    destruct (HC _ _ Hk) as (p & q & P & Q & Hkey & Hp & Hq & Hi).
    pose proof (Index_valid _ _ _ Hp1) as Hv1.
    pose proof (Index_valid _ _ _ Hp2) as Hv2.
    pose proof (Index_valid _ _ _ Hp) as Hvp.
    pose proof (Index_valid _ _ _ Hq) as Hvq.
    unfold ValidIndex in *.
    destruct (MakeKey_inj p1 p2 p q) as [Hmin Hmax]; [lia | lia | lia | lia | exact Hkey |].
    assert (Hcases : (p = p1 /\ q = p2) \/ (p = p2 /\ q = p1)) by lia.
    destruct Hcases as [[-> ->] | [-> ->]].
    + rewrite Hp1 in Hp. rewrite Hp2 in Hq.
      injection Hp as <-. injection Hq as <-. exact Hi.
    + rewrite Hp2 in Hp. rewrite Hp1 in Hq.
      injection Hp as <-. injection Hq as <-.
      rewrite MiddleOf_comm. exact Hi.
  - rewrite Hp1, Hp2 in Hcall. injection Hcall as <- <- <-.
    fold (MiddleOf P1 P2).
    split; [apply Index_last |]. split; [| right; reflexivity].
    intros key i Hi.
    destruct (decide (MakeKey p1 p2 = key)) as [Heq | Hne].
    + subst key. rewrite lookup_insert_eq in Hi. injection Hi as <-.
      exists p1, p2, P1, P2. split; [reflexivity |].
      split; [apply Index_app_l; exact Hp1 |].
      split; [apply Index_app_l; exact Hp2 | apply Index_last].
    + rewrite lookup_insert_ne in Hi by exact Hne.
      exact (CacheMidpoints_app _ _ _ HC key i Hi).
Qed.

(** ** Subdivision keeps the vertices on the unit sphere *)

Lemma GetMiddlePoint_unit (p1 p2 : Z) (Vertices Vertices' : list FVector)
    (Cache Cache' : gmap Z Z) (i : Z) (P1 P2 : FVector) :
  GetMiddlePoint p1 p2 Vertices Cache = Some (i, (Vertices', Cache')) ->
  CacheMidpoints Vertices Cache ->
  Index Vertices p1 = Some P1 -> Index Vertices p2 = Some P2 ->
  (Z.of_nat (length Vertices) <= 2 ^ 31)%Z ->
  UnitSphere Vertices ->
  FVec.SizeSquared (MiddleOf P1 P2) = 1 ->
  exists new : list FVector,
    Vertices' = Vertices ++ new /\ (length new <= 1)%nat /\
    UnitSphere Vertices' /\
    Index Vertices' i = Some (MiddleOf P1 P2) /\
    CacheMidpoints Vertices' Cache'.
Proof.
  intros Hcall HC Hp1 Hp2 Hlen HV HM.
  destruct (GetMiddlePoint_midpoint _ _ _ _ _ _ _ _ _ Hcall HC Hp1 Hp2 Hlen)
    as (Hi & HC' & [-> | ->]).
  - exists []. rewrite app_nil_r. repeat split; try assumption. cbn. lia.
  - exists [MiddleOf P1 P2]. split; [reflexivity |]. split; [cbn; lia |].
    split; [| split; assumption].
    apply Forall_app. split; [exact HV |].
    apply Forall_cons. split; [exact HM | apply Forall_nil_2].
Qed.

(** The three requests made for one face, and its four children. *)
Lemma SubdivideFace_unit (v1 v2 v3 a b c : Z)
    (Vertices V1 V2 V3 : list FVector) (Cache C1 C2 C3 : gmap Z Z) :
  GetMiddlePoint v1 v2 Vertices Cache = Some (a, (V1, C1)) ->
  GetMiddlePoint v2 v3 V1 C1 = Some (b, (V2, C2)) ->
  GetMiddlePoint v3 v1 V2 C2 = Some (c, (V3, C3)) ->
  UnitSphere Vertices -> CacheMidpoints Vertices Cache ->
  SphereFace Vertices (v1, v2, v3) ->
  (Z.of_nat (length Vertices) + 3 <= 2 ^ 31)%Z ->
  exists new : list FVector,
    V3 = Vertices ++ new /\ (length new <= 3)%nat /\
    UnitSphere V3 /\ CacheMidpoints V3 C3 /\
    SphereFace V3 (v1, a, c) /\ SphereFace V3 (v2, b, a) /\
    SphereFace V3 (v3, c, b) /\ SphereFace V3 (a, b, c).
Proof.
  intros Ha Hb Hc HV HC (U1 & U2 & U3 & H1 & H2 & H3 & Hd12 & Hd23 & Hd31 & HD) Hlen.
  pose proof (UnitSphere_Index _ _ _ HV H1) as HU1.
  pose proof (UnitSphere_Index _ _ _ HV H2) as HU2.
  pose proof (UnitSphere_Index _ _ _ HV H3) as HU3.
  pose proof (proj1 (MiddleOf_unit U1 U2 HU1 HU2 Hd12)) as HM12.
  pose proof (proj1 (MiddleOf_unit U2 U3 HU2 HU3 Hd23)) as HM23.
  pose proof (proj1 (MiddleOf_unit U3 U1 HU3 HU1 Hd31)) as HM31.
  destruct (GetMiddlePoint_unit _ _ _ _ _ _ _ _ _ Ha HC H1 H2 ltac:(lia) HV HM12)
    as (new1 & -> & Hn1 & HV1 & Hia & HC1).
  assert (Hlen1 : (Z.of_nat (length (Vertices ++ new1)) <= 2 ^ 31)%Z)
    by (rewrite length_app; lia).
  destruct (GetMiddlePoint_unit _ _ _ _ _ _ _ _ _ Hb HC1
              (Index_app_l _ new1 _ _ H2) (Index_app_l _ new1 _ _ H3)
              Hlen1 HV1 HM23)
    as (new2 & -> & Hn2 & HV2 & Hib & HC2).
  assert (Hlen2 : (Z.of_nat (length ((Vertices ++ new1) ++ new2)) <= 2 ^ 31)%Z)
    by (rewrite !length_app; lia).
  destruct (GetMiddlePoint_unit _ _ _ _ _ _ _ _ _ Hc HC2
              (Index_app_l _ new2 _ _ (Index_app_l _ new1 _ _ H3))
              (Index_app_l _ new2 _ _ (Index_app_l _ new1 _ _ H1))
              Hlen2 HV2 HM31)
    as (new3 & -> & Hn3 & HV3 & Hic & HC3).
  exists (new1 ++ new2 ++ new3).
  split; [rewrite <- !app_assoc; reflexivity |].
  split; [rewrite !length_app; lia |].
  split; [exact HV3 |]. split; [exact HC3 |].
  assert (I1 : Index (((Vertices ++ new1) ++ new2) ++ new3) v1 = Some U1)
    by (do 3 apply Index_app_l; exact H1).
  assert (I2 : Index (((Vertices ++ new1) ++ new2) ++ new3) v2 = Some U2)
    by (do 3 apply Index_app_l; exact H2).
  assert (I3 : Index (((Vertices ++ new1) ++ new2) ++ new3) v3 = Some U3)
    by (do 3 apply Index_app_l; exact H3).
  assert (Ia : Index (((Vertices ++ new1) ++ new2) ++ new3) a
               = Some (MiddleOf U1 U2))
    by (do 2 apply Index_app_l; exact Hia).
  assert (Ib : Index (((Vertices ++ new1) ++ new2) ++ new3) b
               = Some (MiddleOf U2 U3))
    by (apply Index_app_l; exact Hib).
  pose proof Hd12 as Hd21. rewrite Dot_comm in Hd21.
  pose proof Hd23 as Hd32. rewrite Dot_comm in Hd32.
  pose proof Hd31 as Hd13. rewrite Dot_comm in Hd13.
  assert (Hs1 : 0 <= FVec.DotProduct U1 U1) by (rewrite Dot_self, HU1; lra).
  assert (Hs2 : 0 <= FVec.DotProduct U2 U2) by (rewrite Dot_self, HU2; lra).
  assert (Hs3 : 0 <= FVec.DotProduct U3 U3) by (rewrite Dot_self, HU3; lra).
  destruct (MiddleOf_unit U1 U2 HU1 HU2 Hd12) as (_ & k12 & Hk12 & E12).
  destruct (MiddleOf_unit U2 U3 HU2 HU3 Hd23) as (_ & k23 & Hk23 & E23).
  destruct (MiddleOf_unit U3 U1 HU3 HU1 Hd31) as (_ & k31 & Hk31 & E31).
  assert (T1 : 0 < Triple U1 (MiddleOf U1 U2) (MiddleOf U3 U1)).
  { rewrite E12, E31.
    replace (Triple U1 (FVec.Mul (FVec.Add U1 U2) k12) (FVec.Mul (FVec.Add U3 U1) k31))
      with (k12 * k31 * Triple U1 U2 U3)
      by (unfold Triple, FVec.DotProduct; cbn; ring).
    apply Rmult_lt_0_compat; [apply Rmult_lt_0_compat; assumption | exact HD]. }
  assert (T2 : 0 < Triple U2 (MiddleOf U2 U3) (MiddleOf U1 U2)).
  { rewrite E12, E23.
    replace (Triple U2 (FVec.Mul (FVec.Add U2 U3) k23) (FVec.Mul (FVec.Add U1 U2) k12))
      with (k23 * k12 * Triple U1 U2 U3)
      by (unfold Triple, FVec.DotProduct; cbn; ring).
    apply Rmult_lt_0_compat; [apply Rmult_lt_0_compat; assumption | exact HD]. }
  assert (T3 : 0 < Triple U3 (MiddleOf U3 U1) (MiddleOf U2 U3)).
  { rewrite E31, E23.
    replace (Triple U3 (FVec.Mul (FVec.Add U3 U1) k31) (FVec.Mul (FVec.Add U2 U3) k23))
      with (k31 * k23 * Triple U1 U2 U3)
      by (unfold Triple, FVec.DotProduct; cbn; ring).
    apply Rmult_lt_0_compat; [apply Rmult_lt_0_compat; assumption | exact HD]. }
  assert (T4 : 0 < Triple (MiddleOf U1 U2) (MiddleOf U2 U3) (MiddleOf U3 U1)).
  { rewrite E12, E23, E31.
    replace (Triple (FVec.Mul (FVec.Add U1 U2) k12) (FVec.Mul (FVec.Add U2 U3) k23)
               (FVec.Mul (FVec.Add U3 U1) k31))
      with (k12 * k23 * k31 * (2 * Triple U1 U2 U3))
      by (unfold Triple, FVec.DotProduct; cbn; ring).
    apply Rmult_lt_0_compat;
      [repeat apply Rmult_lt_0_compat; assumption | lra]. }
  clear k12 Hk12 E12 k23 Hk23 E23 k31 Hk31 E31.
  assert (C12 : forall U, 0 <= FVec.DotProduct U U1 -> 0 <= FVec.DotProduct U U2 ->
                          0 <= FVec.DotProduct U (MiddleOf U1 U2))
    by (intros U; apply Dot_corner_Middle; assumption).
  assert (C23 : forall U, 0 <= FVec.DotProduct U U2 -> 0 <= FVec.DotProduct U U3 ->
                          0 <= FVec.DotProduct U (MiddleOf U2 U3))
    by (intros U; apply Dot_corner_Middle; assumption).
  assert (C31 : forall U, 0 <= FVec.DotProduct U U3 -> 0 <= FVec.DotProduct U U1 ->
                          0 <= FVec.DotProduct U (MiddleOf U3 U1))
    by (intros U; apply Dot_corner_Middle; assumption).
  assert (M12_23 : 0 <= FVec.DotProduct (MiddleOf U1 U2) (MiddleOf U2 U3))
    by (apply Dot_Middle_Middle; assumption).
  assert (M23_31 : 0 <= FVec.DotProduct (MiddleOf U2 U3) (MiddleOf U3 U1))
    by (apply Dot_Middle_Middle; assumption).
  assert (M31_12 : 0 <= FVec.DotProduct (MiddleOf U3 U1) (MiddleOf U1 U2))
    by (apply Dot_Middle_Middle; assumption).
  split; [| split; [| split]].
  - exists U1, (MiddleOf U1 U2), (MiddleOf U3 U1).
    repeat (split; [assumption |]).
    split; [apply C12; assumption |].
    split; [rewrite Dot_comm; exact M31_12 |].
    split; [rewrite Dot_comm; apply C31; assumption | exact T1].
  - exists U2, (MiddleOf U2 U3), (MiddleOf U1 U2).
    repeat (split; [assumption |]).
    split; [apply C23; assumption |].
    split; [rewrite Dot_comm; exact M12_23 |].
    split; [rewrite Dot_comm; apply C12; assumption | exact T2].
  - exists U3, (MiddleOf U3 U1), (MiddleOf U2 U3).
    repeat (split; [assumption |]).
    split; [apply C31; assumption |].
    split; [rewrite Dot_comm; exact M23_31 |].
    split; [rewrite Dot_comm; apply C23; assumption | exact T3].
  - exists (MiddleOf U1 U2), (MiddleOf U2 U3), (MiddleOf U3 U1).
    repeat (split; [assumption |]). exact T4.
Qed.

Lemma Faces_app (j : nat) :
  forall (Triangles more : list Z),
    length Triangles = (3 * j)%nat ->
    Faces (Triangles ++ more) = Faces Triangles ++ Faces more.
Proof.
  induction j as [| j IH]; intros Triangles more Hlen.
  - destruct Triangles; [reflexivity | discriminate].
  - destruct Triangles as [| v1 [| v2 [| v3 rest]]]; cbn [length] in Hlen; try lia.
    cbn [app Faces]. rewrite IH by lia. reflexivity.
Qed.

Lemma Forall_SphereFace_app (Vertices new : list FVector)
    (faces : list (Z * Z * Z)) :
  Forall (SphereFace Vertices) faces -> Forall (SphereFace (Vertices ++ new)) faces.
Proof.
  intros HF. eapply Forall_impl; [exact HF |].
  intros f Hf. apply SphereFace_app. exact Hf.
Qed.

Lemma SubdivideLoop_unit (Triangles : list Z) :
  forall (Vertices Vertices' : list FVector) (Cache : gmap Z Z)
         (newTriangles Triangles' : list Z),
    SubdivideLoop Triangles Vertices Cache newTriangles
      = Some (Vertices', Triangles') ->
    UnitSphere Vertices -> CacheMidpoints Vertices Cache ->
    Forall (SphereFace Vertices) (Faces Triangles) ->
    (Z.of_nat (length Vertices) + Z.of_nat (length Triangles) <= 2 ^ 31)%Z ->
    (exists j : nat, length newTriangles = (3 * j)%nat) ->
    Forall (SphereFace Vertices) (Faces newTriangles) ->
    UnitSphere Vertices' /\ Forall (SphereFace Vertices') (Faces Triangles') /\
    (length Vertices' <= length Vertices + length Triangles)%nat.
Proof.
  induction Triangles as [| x | x y | v1 v2 v3 rest IH] using list_ind3;
    intros Vertices Vertices' Cache newTriangles Triangles'.
  1-3: cbn [SubdivideLoop]; intros [= <- <-] HV _ _ _ _ HN;
       (split; [exact HV | split; [exact HN | lia]]).
  cbn [SubdivideLoop Faces].
  destruct (GetMiddlePoint v1 v2 Vertices Cache) as [[a [V1 C1]] |] eqn:Ha;
    [| discriminate].
  destruct (GetMiddlePoint v2 v3 V1 C1) as [[b [V2 C2]] |] eqn:Hb;
    [| discriminate].
  destruct (GetMiddlePoint v3 v1 V2 C2) as [[c [V3 C3]] |] eqn:Hc;
    [| discriminate].
  intros Hrun HV HC HF Hlen [j Hj] HN.
  apply Forall_cons in HF as [Hface HF].
  cbn [length] in Hlen.
  destruct (SubdivideFace_unit _ _ _ _ _ _ _ _ _ _ _ _ _ _ Ha Hb Hc HV HC Hface
              ltac:(lia))
    as (new & -> & Hnew & HV3 & HC3 & F1 & F2 & F3 & F4).
  destruct (IH _ _ _ _ _ Hrun HV3 HC3) as (HV' & HF' & Hle).
  - apply Forall_SphereFace_app. exact HF.
  - rewrite length_app. lia.
  - exists (j + 4)%nat. rewrite length_app. cbn [length]. lia.
  - rewrite (Faces_app j) by exact Hj. apply Forall_app.
    split; [apply Forall_SphereFace_app; exact HN |].
    cbn [Faces]. repeat (apply Forall_cons; split; [assumption |]).
    apply Forall_nil_2.
  - split; [exact HV' |]. split; [exact HF' |].
    rewrite length_app in Hle. cbn [length]. lia.
Qed.

Lemma SubdivideTimes_unit (n : nat) :
  forall (k : nat) (Vertices Vertices' : list FVector)
         (Triangles Triangles' : list Z),
    SubdivideTimes n Vertices Triangles = Some (Vertices', Triangles') ->
    length Triangles = (3 * k)%nat ->
    UnitSphere Vertices ->
    Forall (SphereFace Vertices) (Faces Triangles) ->
    (Z.of_nat (length Vertices) + Z.of_nat k * (4 ^ Z.of_nat n - 1) <= 2 ^ 31)%Z ->
    UnitSphere Vertices' /\ Forall (SphereFace Vertices') (Faces Triangles').
Proof.
  induction n as [| n IH]; intros k Vertices Vertices' Triangles Triangles';
    cbn [SubdivideTimes].
  - intros [= <- <-] _ HV HF _. split; assumption.
  - destruct (SubdivideIcosphere Vertices Triangles) as [[V1 T1] |] eqn:Hpass;
      [| discriminate].
    intros Hrun Hlen HV HF Hbound.
    rewrite Nat2Z.inj_succ, Z.pow_succ_r in Hbound by lia.
    assert (Hpow : (0 < 4 ^ Z.of_nat n)%Z) by (apply Z.pow_pos_nonneg; lia).
    unfold SubdivideIcosphere in Hpass.
    destruct (SubdivideLoop_count _ _ _ _ _ _ Hpass) as (_ & _ & HlenT1).
    destruct (SubdivideLoop_unit _ _ _ _ _ _ Hpass HV
                (CacheMidpoints_empty _) HF)
      as (HV1 & HF1 & Hle1).
    + rewrite Hlen. nia.
    + exists 0%nat. reflexivity.
    + apply Forall_nil_2.
    + cbn [length] in HlenT1. rewrite Hlen in HlenT1, Hle1.
      replace (3 * k / 3)%nat with k in HlenT1
        by (rewrite Nat.mul_comm, Nat.div_mul; lia).
      apply (IH (4 * k)%nat _ _ _ _ Hrun); [lia | exact HV1 | exact HF1 |].
      nia.
Qed.

(** ** The icosahedron *)

Lemma t_ge_1 : 1 <= t.
Proof.
  unfold t. assert (H : 1 <= sqrt 5).
  { rewrite <- sqrt_1 at 1. apply sqrt_le_1; lra. }
  lra.
Qed.

Lemma Dot_Normalize_icosahedron (W1 W2 : FVector) :
  FVec.SizeSquared W1 = 1 + t * t -> FVec.SizeSquared W2 = 1 + t * t ->
  0 <= FVec.DotProduct W1 W2 ->
  0 <= FVec.DotProduct (FVec.Normalize W1) (FVec.Normalize W2).
Proof.
  intros H1 H2 Hd.
  assert (Hbig : 1 + t * t > FVec.SMALL_NUMBER)
    by (pose proof SMALL_NUMBER_lt_1; nra).
  rewrite !Normalize_large by (rewrite ?H1, ?H2; exact Hbig).
  rewrite Dot_Mul_Mul, H1, H2.
  assert (Hk : 0 < / sqrt (1 + t * t))
    by (apply Rinv_0_lt_compat, sqrt_lt_R0; nra).
  apply Rmult_le_pos; [apply Rmult_le_pos; lra | exact Hd].
Qed.

Lemma Triple_Normalize_icosahedron (W1 W2 W3 : FVector) :
  FVec.SizeSquared W1 = 1 + t * t -> FVec.SizeSquared W2 = 1 + t * t ->
  FVec.SizeSquared W3 = 1 + t * t ->
  0 < Triple W1 W2 W3 ->
  0 < Triple (FVec.Normalize W1) (FVec.Normalize W2) (FVec.Normalize W3).
Proof.
  intros H1 H2 H3 Hd.
  assert (Hbig : 1 + t * t > FVec.SMALL_NUMBER)
    by (pose proof SMALL_NUMBER_lt_1; nra).
  rewrite !Normalize_large by (rewrite ?H1, ?H2, ?H3; exact Hbig).
  rewrite H1, H2, H3.
  assert (Hk : 0 < / sqrt (1 + t * t))
    by (apply Rinv_0_lt_compat, sqrt_lt_R0; nra).
  set (k := / sqrt (1 + t * t)) in *.
  replace (Triple (FVec.Mul W1 k) (FVec.Mul W2 k) (FVec.Mul W3 k))
    with (k * k * k * Triple W1 W2 W3)
    by (unfold Triple, FVec.DotProduct; cbn; ring).
  apply Rmult_lt_0_compat; [repeat apply Rmult_lt_0_compat; assumption | exact Hd].
Qed.

Lemma Icosahedron_unit : UnitSphere (NormalizeVertices IcosahedronVertices).
Proof.
  unfold UnitSphere, NormalizeVertices, IcosahedronVertices. cbn [map].
  pose proof SMALL_NUMBER_lt_1.
  repeat (apply Forall_cons; split;
          [apply SizeSquared_Normalize; unfold FVec.SizeSquared; cbn; nra |]).
  apply Forall_nil_2.
Qed.

Lemma Icosahedron_acute :
  Forall (SphereFace (NormalizeVertices IcosahedronVertices)) (Faces faceIndices).
Proof.
  pose proof t_ge_1 as Ht.
  unfold faceIndices. cbn [Faces].
  repeat (apply Forall_cons; split;
          [unfold SphereFace; eexists _, _, _;
           split; [reflexivity |]; split; [reflexivity |]; split; [reflexivity |];
           (split; [apply Dot_Normalize_icosahedron;
                    [unfold FVec.SizeSquared; cbn; ring
                    | unfold FVec.SizeSquared; cbn; ring
                    | unfold FVec.DotProduct; cbn; nra] |]);
           (split; [apply Dot_Normalize_icosahedron;
                    [unfold FVec.SizeSquared; cbn; ring
                    | unfold FVec.SizeSquared; cbn; ring
                    | unfold FVec.DotProduct; cbn; nra] |]);
           (split; [apply Dot_Normalize_icosahedron;
                    [unfold FVec.SizeSquared; cbn; ring
                    | unfold FVec.SizeSquared; cbn; ring
                    | unfold FVec.DotProduct; cbn; nra] |]);
           apply Triple_Normalize_icosahedron;
           [unfold FVec.SizeSquared; cbn; ring
           | unfold FVec.SizeSquared; cbn; ring
           | unfold FVec.SizeSquared; cbn; ring
           | unfold Triple, FVec.DotProduct; cbn; nra] |]).
  apply Forall_nil_2.
Qed.

Lemma BuildBaseIcosphere_UnitSphere (SubdivisionsLevel : Z)
    (Vertices : list FVector) (Triangles : list Z) :
  (0 <= SubdivisionsLevel <= 13)%Z ->
  BuildBaseIcosphere SubdivisionsLevel = Some (Vertices, Triangles) ->
  UnitSphere Vertices /\ Forall (SphereFace Vertices) (Faces Triangles).
Proof.
  intros Hlevel Hrun.
  rewrite BuildBaseIcosphere_unfold in Hrun.
  apply (SubdivideTimes_unit _ 20 _ _ _ _ Hrun eq_refl
           Icosahedron_unit Icosahedron_acute).
  rewrite length_NormalizeVertices. cbn [IcosahedronVertices length].
  rewrite Z2Nat.id by lia.
  assert (Hpow : (4 ^ SubdivisionsLevel <= 4 ^ 13)%Z)
    by (apply Z.pow_le_mono_r; lia).
  change (4 ^ 13)%Z with 67108864%Z in Hpow. lia.
Qed.

(** X7: for every level from 0 to 13, [BuildBaseIcosphere] returns vertices of
    length exactly 1; the three corners of every triangle are pairwise at
    most a right angle apart and listed with a positive triple product, so
    all triangles are wound the same way. *)
Theorem BuildBaseIcosphere_unit_sphere (SubdivisionsLevel : Z) :
  (0 <= SubdivisionsLevel <= 13)%Z ->
  exists (Vertices : list FVector) (Triangles : list Z),
    BuildBaseIcosphere SubdivisionsLevel = Some (Vertices, Triangles) /\
    Forall (fun V => FVec.Size V = 1) Vertices /\
    Forall (SphereFace Vertices) (Faces Triangles).
Proof.
  intros Hlevel.
  destruct (BuildBaseIcosphere_ok SubdivisionsLevel) as (V & T & Hrun & _).
  exists V, T. split; [exact Hrun |].
  destruct (BuildBaseIcosphere_UnitSphere _ _ _ Hlevel Hrun) as (HV & HF).
  split; [| exact HF].
  eapply Forall_impl; [exact HV |].
  intros U HU. unfold FVec.Size. cbn beta in HU. rewrite HU. apply sqrt_1.
Qed.

(** The unit sphere at level 3. *)
Lemma BuildBaseIcosphere_unit_sphere_witness :
  (0 <= 3 <= 13)%Z /\
  exists (Vertices : list FVector) (Triangles : list Z),
    BuildBaseIcosphere 3 = Some (Vertices, Triangles) /\
    Forall (fun V => FVec.Size V = 1) Vertices.
Proof.
  split; [lia |].
  destruct (BuildBaseIcosphere_unit_sphere 3 ltac:(lia)) as (V & T & Hrun & HV & _).
  exists V, T. split; [exact Hrun | exact HV].
Defined.

(** ** The cache key and failing requests *)

(** X3: for indices of an array (below 2^31) the cache key determines the
    unordered pair of endpoints: the key of (a,b) is that of (c,d) exactly
    when the two edges have the same endpoints, in either order. *)
Theorem MakeKey_same_edge (a b c d : Z) :
  (0 <= a < 2 ^ 31)%Z -> (0 <= b < 2 ^ 31)%Z ->
  (0 <= c < 2 ^ 31)%Z -> (0 <= d < 2 ^ 31)%Z ->
  MakeKey a b = MakeKey c d <-> (a = c /\ b = d) \/ (a = d /\ b = c).
Proof.
  intros Ha Hb Hc Hd. split.
  - intros Hkey.
    destruct (MakeKey_inj a b c d Ha Hb Hc Hd Hkey) as [Hmin Hmax]. lia.
  - intros [[-> ->] | [-> ->]]; [reflexivity | apply MakeKey_sym].
Qed.

(** The edges (3,7) and (7,3) share a key; (3,7) and (3,8) do not. *)
Lemma MakeKey_same_edge_witness :
  MakeKey 3 7 = MakeKey 7 3 /\ MakeKey 3 7 <> MakeKey 3 8.
Proof.
  split.
  - apply (MakeKey_same_edge 3 7 7 3); lia.
  - intros Hkey. apply (MakeKey_same_edge 3 7 3 8) in Hkey; lia.
Defined.

(** X4: a request fails exactly when the edge is not cached and one of its
    endpoints lies outside the vertex buffer; a cached edge is answered
    without reading the buffer. *)
Theorem GetMiddlePoint_fails_iff (p1 p2 : Z) (Vertices : list FVector)
    (Cache : gmap Z Z) :
  GetMiddlePoint p1 p2 Vertices Cache = None <->
  Cache !! MakeKey p1 p2 = None /\
  (~ ValidIndex (length Vertices) p1 \/ ~ ValidIndex (length Vertices) p2).
Proof.
  unfold GetMiddlePoint. split.
  - destruct (Cache !! MakeKey p1 p2) as [Found |]; [discriminate |].
    intros Hnone. split; [reflexivity |].
    destruct (Index Vertices p1) as [point1 |] eqn:H1.
    + destruct (Index Vertices p2) as [point2 |] eqn:H2; [discriminate |].
      right. intros Hv. destruct (Index_Some _ _ Hv) as [x Hx]. congruence.
    + left. intros Hv. destruct (Index_Some _ _ Hv) as [x Hx]. congruence.
  - intros [-> [Hbad | Hbad]].
    + destruct (Index Vertices p1) as [point1 |] eqn:H1; [| reflexivity].
      apply Index_valid in H1. contradiction.
    + destruct (Index Vertices p1) as [point1 |]; [| reflexivity].
      destruct (Index Vertices p2) as [point2 |] eqn:H2; [| reflexivity].
      apply Index_valid in H2. contradiction.
Qed.

(** ** A normalisation pass *)

(** X5: after a pass of [NormalizeVertices] every vertex has length 1, except
    those whose squared length is at most the engine's tolerance (the
    single-precision literal 1.e-8f, a little below 1e-8), which are left
    as they were; in particular every vertex at distance 1/10000 or more
    from the origin is normalised.  The number of vertices is kept and a
    second pass changes nothing. *)
Theorem NormalizeVertices_pass (Vertices : list FVector) :
  length (NormalizeVertices Vertices) = length Vertices /\
  NormalizeVertices (NormalizeVertices Vertices) = NormalizeVertices Vertices /\
  Forall2
    (fun V V' =>
       ((FVec.SizeSquared V > FVec.SMALL_NUMBER /\ FVec.Size V' = 1 /\
         V = FVec.Mul V' (FVec.Size V)) \/
        (FVec.SizeSquared V <= FVec.SMALL_NUMBER /\ V' = V)) /\
       (/ 10000 <= FVec.Size V -> FVec.Size V' = 1))
    Vertices (NormalizeVertices Vertices).
Proof.
  split; [apply length_NormalizeVertices |].
  split; [apply NormalizeVertices_Normalized, Normalized_NormalizeVertices |].
  unfold NormalizeVertices. apply Forall2_fmap_r, Forall_Forall2_diag, Forall_forall.
  intros V _.
  assert (Hunit : FVec.SizeSquared V > FVec.SMALL_NUMBER ->
                  FVec.Size (FVec.Normalize V) = 1).
  { intros Hbig. unfold FVec.Size.
    rewrite SizeSquared_Normalize by exact Hbig. apply sqrt_1. }
  split.
  - destruct (Rgt_dec (FVec.SizeSquared V) FVec.SMALL_NUMBER) as [Hbig | Hsmall].
    + left. split; [exact Hbig |]. split; [exact (Hunit Hbig) |].
      rewrite (Normalize_large V Hbig), Mul_Mul. unfold FVec.Size.
      assert (Hs : 0 < sqrt (FVec.SizeSquared V))
        by (apply sqrt_lt_R0; pose proof SMALL_NUMBER_pos; lra).
      replace (/ sqrt (FVec.SizeSquared V) * sqrt (FVec.SizeSquared V)) with 1
        by (field; lra).
      symmetry. apply Mul_1.
    + right. split; [lra | apply Normalize_small; lra].
  - intros Hfar. apply Hunit.
    assert (Hnn : 0 <= FVec.SizeSquared V)
      by (unfold FVec.SizeSquared; nra).
    assert (Hsq : sqrt (FVec.SizeSquared V) * sqrt (FVec.SizeSquared V)
                  = FVec.SizeSquared V) by (apply sqrt_sqrt; exact Hnn).
    unfold FVec.Size in Hfar. unfold FVec.SMALL_NUMBER. nra.
Qed.

(** A vertex at distance exactly 1/10000 from the origin is normalised. *)
Lemma NormalizeVertices_pass_witness :
  exists V' : FVector,
    NormalizeVertices [MkVector (/ 10000) 0 0] = [V'] /\ FVec.Size V' = 1.
Proof.
  destruct (NormalizeVertices_pass [MkVector (/ 10000) 0 0]) as (_ & _ & HF).
  exists (FVec.Normalize (MkVector (/ 10000) 0 0)).
  split; [reflexivity |].
  change (NormalizeVertices [MkVector (/ 10000) 0 0])
    with [FVec.Normalize (MkVector (/ 10000) 0 0)] in HF.
  apply Forall2_cons_1 in HF as [[_ Hfar] _].
  apply Hfar. unfold FVec.Size, FVec.SizeSquared. cbn.
  replace (/ 10000 * / 10000 + 0 * 0 + 0 * 0) with (/ 10000 * / 10000) by ring.
  rewrite sqrt_square by lra. lra.
Defined.

(** ** Layers that displace nothing *)

Lemma Displacement_zero (E : Engine) (Layer : FNoiseLayer) (o : FVector)
    (m : R) (V : FVector) :
  0 <= m -> m = 0 \/ Intensity Layer = 0 ->
  Displacement E Layer o m V = 0.
Proof.
  intros Hm [-> | Hzero].
  - pose proof (Displacement_range E Layer o 0 V ltac:(lra)). lra.
  - unfold Displacement. cbv zeta. rewrite Hzero.
    match goal with
    | |- Clamp ?x _ _ = _ => replace x with 0 by (unfold FVec.DotProduct; cbn; ring)
    end.
    unfold Clamp.
    destruct (Rlt_dec 0 (- m)); [lra |].
    destruct (Rlt_dec 0 m); lra.
Qed.

Lemma DisplaceVertex_zero (E : Engine) (Layer : FNoiseLayer) (o : FVector)
    (m : R) (V : FVector) :
  0 <= m -> m = 0 \/ Intensity Layer = 0 ->
  DisplaceVertex E Layer o m V = V.
Proof.
  intros Hm Hz. unfold DisplaceVertex. cbv zeta.
  rewrite (Displacement_zero E Layer o m V Hm Hz).
  apply FVector_eq; cbn; ring.
Qed.

Lemma ApplyNoiseLoop_identity (E : Engine) (Layers : list FNoiseLayer) :
  forall (layerIndex : nat) (LayerSeeds : list Z) (m : R)
         (Vertices : list FVector) (g : GlobalRand E),
    0 <= m ->
    Forall (fun Layer => m = 0 \/ Intensity Layer = 0) Layers ->
    fst (ApplyNoiseLoop E Layers layerIndex LayerSeeds m Vertices g) = Vertices.
Proof.
  induction Layers as [| Layer rest IH];
    intros layerIndex LayerSeeds m Vertices g Hm HL; [reflexivity |].
  apply Forall_cons in HL as [Hz HL]. cbn [ApplyNoiseLoop].
  destruct (LayerSeed E LayerSeeds layerIndex g) as [seed g'].
  rewrite IH by assumption.
  induction Vertices as [| V more IHV]; [reflexivity |].
  cbn [map]. rewrite IHV, (DisplaceVertex_zero E Layer _ m V Hm Hz). reflexivity.
Qed.

(** X9: with a clamp bound of 0, or with layers that all have intensity 0 and a
    non-negative clamp bound, [ApplyNoiseLayers] returns the vertices
    unchanged, whatever the seeds and the noise field. *)
Theorem ApplyNoiseLayers_no_displacement (E : Engine)
    (Layers : list FNoiseLayer) (LayerSeeds : list Z)
    (MaxDisplacementFrac : R) (Vertices : list FVector) (g : GlobalRand E) :
  0 <= MaxDisplacementFrac ->
  MaxDisplacementFrac = 0 \/ Forall (fun Layer => Intensity Layer = 0) Layers ->
  fst (ApplyNoiseLayers E Layers LayerSeeds MaxDisplacementFrac Vertices g)
  = Vertices.
Proof.
  intros Hm Hz. unfold ApplyNoiseLayers.
  destruct Vertices as [| V rest]; [reflexivity |].
  apply ApplyNoiseLoop_identity; [exact Hm |].
  destruct Hz as [-> | HL].
  - apply Forall_forall. intros Layer _. left. reflexivity.
  - eapply Forall_impl; [exact HL |]. intros Layer HI. right. exact HI.
Qed.

(** A layer of intensity 0 on one vertex, with the noise at -1. *)
Lemma ApplyNoiseLayers_no_displacement_witness :
  fst (ApplyNoiseLayers LowNoiseEngine [MkNoiseLayer (1 / 10) 0 42] [42%Z]
         (1 / 2) [MkVector 3 4 0] [])
  = [MkVector 3 4 0].
Proof.
  apply ApplyNoiseLayers_no_displacement; [lra |].
  right. apply Forall_cons. split; [reflexivity | apply Forall_nil_2].
Defined.

(** ** What the layers take from the process-wide generator *)

Lemma ApplyNoiseLoop_length (E : Engine) (Layers : list FNoiseLayer) :
  forall (layerIndex : nat) (LayerSeeds : list Z) (m : R)
         (Vertices : list FVector) (g : GlobalRand E),
    length (fst (ApplyNoiseLoop E Layers layerIndex LayerSeeds m Vertices g))
    = length Vertices.
Proof.
  induction Layers as [| Layer rest IH];
    intros layerIndex LayerSeeds m Vertices g; [reflexivity |].
  cbn [ApplyNoiseLoop].
  destruct (LayerSeed E LayerSeeds layerIndex g) as [seed g'].
  rewrite IH. apply length_map.
Qed.

Lemma ApplyNoiseLoop_draws (E : Engine) (Layers : list FNoiseLayer) :
  forall (layerIndex : nat) (LayerSeeds : list Z) (m : R)
         (Vertices : list FVector) (g : GlobalRand E),
    snd (ApplyNoiseLoop E Layers layerIndex LayerSeeds m Vertices g)
    = Nat.iter
        (layerIndex + length Layers - Nat.max layerIndex (length LayerSeeds))
        (fun h => snd (FMath_Rand E h)) g.
Proof.
  induction Layers as [| Layer rest IH];
    intros layerIndex LayerSeeds m Vertices g.
  - cbn [ApplyNoiseLoop length snd].
    replace (layerIndex + 0 - Nat.max layerIndex (length LayerSeeds))%nat
      with 0%nat by lia.
    reflexivity.
  - cbn [ApplyNoiseLoop length]. unfold LayerSeed.
    destruct (LayerSeeds !! layerIndex) as [seed |] eqn:Hseed.
    + apply lookup_lt_Some in Hseed. rewrite IH. f_equal. lia.
    + apply lookup_ge_None in Hseed.
      destruct (FMath_Rand E g) as [r g'] eqn:Hr. rewrite IH.
      replace (layerIndex + S (length rest)
               - Nat.max layerIndex (length LayerSeeds))%nat
        with (S (S layerIndex + length rest
                 - Nat.max (S layerIndex) (length LayerSeeds)))%nat by lia.
      rewrite Nat.iter_succ_r, Hr. reflexivity.
Qed.

(** X10: [ApplyNoiseLayers] keeps the number of vertices.  On an empty buffer it
    returns at once; otherwise it calls [FMath::Rand] once for every layer
    beyond the supplied seeds, and not at all when there is a seed for each
    layer. *)
Theorem ApplyNoiseLayers_draws (E : Engine) (Layers : list FNoiseLayer)
    (LayerSeeds : list Z) (MaxDisplacementFrac : R) (Vertices : list FVector)
    (g : GlobalRand E) :
  length (fst (ApplyNoiseLayers E Layers LayerSeeds MaxDisplacementFrac Vertices g))
  = length Vertices /\
  snd (ApplyNoiseLayers E Layers LayerSeeds MaxDisplacementFrac Vertices g)
  = match Vertices with
    | [] => g
    | _ => Nat.iter (length Layers - length LayerSeeds)
             (fun h => snd (FMath_Rand E h)) g
    end.
Proof.
  unfold ApplyNoiseLayers. destruct Vertices as [| V rest].
  - split; reflexivity.
  - split; [apply ApplyNoiseLoop_length |].
    rewrite ApplyNoiseLoop_draws. reflexivity.
Qed.

(** X11: [GenerateAsteroid] leaves the process-wide generator as it is after one
    [FMath::Rand], made only when the global seed is negative, followed by
    the one [FRand] of the radius: neither the layer seeds nor the noise
    draw from it. *)
Theorem GenerateAsteroid_generator (E : Engine) (A : AAsteroidActor)
    (g : GlobalRand E) :
  exists (A' : AAsteroidActor) (Trace : list Event),
    GenerateAsteroid E A g
    = Some (A',
            snd (FMath_FRand E
                   (if (GlobalSeed A <? 0)%Z then snd (FMath_Rand E g) else g)),
            Trace).
Proof.
  destruct (BuildBaseIcosphere_ok (Subdivisions A)) as (Base & Triangles & HB & _).
  unfold GenerateAsteroid, PickGlobalSeed.
  destruct (GlobalSeed A <? 0)%Z.
  - destruct (FMath_Rand E g) as [seed g1]. cbn [snd]. rewrite HB.
    rewrite ApplyNoiseLayers_plan
      by (rewrite PrepareLayerSeeds_length; cbn [length]; lia).
    unfold FMath_RandRange. destruct (FMath_FRand E g1) as [u g3].
    eexists _, _. reflexivity.
  - rewrite HB.
    rewrite ApplyNoiseLayers_plan
      by (rewrite PrepareLayerSeeds_length; cbn [length]; lia).
    unfold FMath_RandRange. destruct (FMath_FRand E g) as [u g3].
    eexists _, _. reflexivity.
Qed.

(** ** The radius and the statistics in range *)

Lemma ChosenRadius_between (E : Engine) (A : AAsteroidActor)
    (g : GlobalRand E) :
  0 <= fst (FMath_FRand E (snd (PickGlobalSeed E (GlobalSeed A) g))) <= 1 ->
  Rmin (MinRadius A) (MaxRadius A) <= ChosenRadius E A g
    <= Rmax (MinRadius A) (MaxRadius A) /\
  (0 <= MinRadius A -> 0 <= MaxRadius A -> 0 <= Density A ->
   0 <= Volume (RunStats E A g) /\ 0 <= Mass (RunStats E A g)).
Proof.
  intros Hu.
  assert (Hrange : Rmin (MinRadius A) (MaxRadius A) <= ChosenRadius E A g
                   <= Rmax (MinRadius A) (MaxRadius A)).
  { unfold ChosenRadius, FMath_RandRange.
    destruct (FMath_FRand E (snd (PickGlobalSeed E (GlobalSeed A) g))) as [u g'].
    cbn [fst] in *.
    unfold Rmin, Rmax. destruct (Rle_dec (MinRadius A) (MaxRadius A)); nra. }
  split; [exact Hrange |].
  intros Hmin Hmax Hdens.
  assert (Hr : 0 <= ChosenRadius E A g).
  { unfold Rmin in Hrange. destruct (Rle_dec (MinRadius A) (MaxRadius A)); lra. }
  assert (Hvol : 0 <= CalculateVolumeFromRadius (ChosenRadius E A g)).
  { unfold CalculateVolumeFromRadius. pose proof PI_RGT_0 as Hpi.
    assert (Hsq : 0 <= ChosenRadius E A g * ChosenRadius E A g) by nra.
    assert (Hpr : 0 <= 4 / 3 * PI * ChosenRadius E A g) by nra.
    nra. }
  cbn [RunStats Volume Mass]. split; [exact Hvol |].
  apply Rmult_le_pos; assumption.
Qed.

(** X12: when the [FRand] behind the radius returns a value in [0, 1], the
    radius a run stores lies between [MinRadius] and [MaxRadius], in
    whichever order they are given; if both are non-negative and so is the
    density, the stored volume and mass are non-negative. *)
Theorem GenerateAsteroid_radius_in_range (E : Engine) (A : AAsteroidActor)
    (g : GlobalRand E) :
  0 <= fst (FMath_FRand E (snd (PickGlobalSeed E (GlobalSeed A) g))) <= 1 ->
  exists (A' : AAsteroidActor) (g' : GlobalRand E) (Trace : list Event),
    GenerateAsteroid E A g = Some (A', g', Trace) /\
    Rmin (MinRadius A) (MaxRadius A) <= Radius (AsteroidStats A')
      <= Rmax (MinRadius A) (MaxRadius A) /\
    (0 <= MinRadius A -> 0 <= MaxRadius A -> 0 <= Density A ->
     0 <= Volume (AsteroidStats A') /\ 0 <= Mass (AsteroidStats A')).
Proof.
  intros Hu.
  destruct (GenerateAsteroid_run E A g) as (Base & T & g' & _ & Hrun).
  exists (SetStats A (RunStats E A g)), g', (RunTrace E A g Base T).
  split; [exact Hrun |].
  cbn [AsteroidStats SetStats]. exact (ChosenRadius_between E A g Hu).
Qed.

(** The default range [250, 1000] with the generator returning half of
    [RAND_MAX]. *)
Lemma GenerateAsteroid_radius_in_range_witness :
  exists (A' : AAsteroidActor) (g' : list Z) (Trace : list Event),
    GenerateAsteroid QuietEngine SeededActor [16384%Z] = Some (A', g', Trace) /\
    250 <= Radius (AsteroidStats A') <= 1000.
Proof.
  destruct (GenerateAsteroid_radius_in_range QuietEngine SeededActor [16384%Z])
    as (A' & g' & Trace & Hrun & Hrange & _).
  - cbn. unfold RAND_MAX. lra.
  - exists A', g', Trace. split; [exact Hrun |].
    cbn [MinRadius MaxRadius SeededActor] in Hrange.
    rewrite Rmin_left, Rmax_right in Hrange by lra. exact Hrange.
Defined.

(** ** The normals of [CreateMeshFromData] *)

Lemma AccumulateNormals_length (Triangles : list Z) :
  forall (Vertices Normals : list FVector),
    length (AccumulateNormals Triangles Vertices Normals) = length Normals.
Proof.
  induction Triangles as [| a | a b | i0 i1 i2 rest IH] using list_ind3;
    intros Vertices Normals; try reflexivity.
  cbn [AccumulateNormals].
  destruct (Index Vertices i0); [| apply IH].
  destruct (Index Vertices i1); [| apply IH].
  destruct (Index Vertices i2); [| apply IH].
  rewrite IH, !length_alter. reflexivity.
Qed.

Lemma AccumulateNormals_untouched (Triangles : list Z) :
  forall (Vertices Normals : list FVector) (j : nat),
    ~ In (Z.of_nat j) Triangles ->
    AccumulateNormals Triangles Vertices Normals !! j = Normals !! j.
Proof.
  induction Triangles as [| a | a b | i0 i1 i2 rest IH] using list_ind3;
    intros Vertices Normals j Hj; try reflexivity.
  cbn [AccumulateNormals].
  assert (Hrest : ~ In (Z.of_nat j) rest)
    by (intros Hin; apply Hj; right; right; right; exact Hin).
  destruct (Index Vertices i0) as [v0 |] eqn:H0; [| apply IH; exact Hrest].
  destruct (Index Vertices i1) as [v1 |] eqn:H1; [| apply IH; exact Hrest].
  destruct (Index Vertices i2) as [v2 |] eqn:H2; [| apply IH; exact Hrest].
  apply Index_valid in H0, H1, H2. unfold ValidIndex in *.
  assert (N0 : Z.to_nat i0 <> j)
    by (intros <-; apply Hj; left; lia).
  assert (N1 : Z.to_nat i1 <> j)
    by (intros <-; apply Hj; right; left; lia).
  assert (N2 : Z.to_nat i2 <> j)
    by (intros <-; apply Hj; right; right; left; lia).
  rewrite IH by exact Hrest.
  rewrite !list_lookup_alter_ne by assumption. reflexivity.
Qed.

Lemma Normalize_ZeroVector : FVec.Normalize FVec.ZeroVector = FVec.ZeroVector.
Proof.
  apply Normalize_small. unfold FVec.SizeSquared, FVec.ZeroVector. cbn.
  pose proof SMALL_NUMBER_pos. lra.
Qed.

Lemma CreateMeshFromData_shape (Vertices : list FVector) (Triangles : list Z) :
  exists Normals : list FVector,
    CreateMeshFromData Vertices Triangles false
    = [CreateMeshSection 0 Vertices Triangles Normals false] /\
    length Normals = length Vertices.
Proof.
  eexists. split; [reflexivity |].
  rewrite length_map, AccumulateNormals_length, length_replicate. reflexivity.
Qed.

(** X13: [CreateMeshFromData] passes exactly one normal per vertex, whatever the
    triangle list; every normal has length 1 or a squared length of at most
    the engine's tolerance; and a vertex that no triangle refers to gets the
    zero normal. *)
Theorem CreateMeshFromData_normals (Vertices : list FVector)
    (Triangles : list Z) (bCreateCollision : bool) :
  exists Normals : list FVector,
    CreateMeshFromData Vertices Triangles bCreateCollision
    = CreateMeshSection 0 Vertices Triangles Normals bCreateCollision
      :: (if bCreateCollision
          then [SetCollisionEnabled; SetCollisionObjectType] else []) /\
    length Normals = length Vertices /\
    Forall (fun N => FVec.Size N = 1 \/ FVec.SizeSquared N <= FVec.SMALL_NUMBER)
      Normals /\
    (forall j : nat,
        (j < length Vertices)%nat -> ~ In (Z.of_nat j) Triangles ->
        Normals !! j = Some FVec.ZeroVector).
Proof.
  eexists. split; [reflexivity |].
  split; [| split].
  - rewrite length_map, AccumulateNormals_length, length_replicate. reflexivity.
  - apply Forall_fmap, Forall_forall. intros N _. cbn beta.
    destruct (Rgt_dec (FVec.SizeSquared N) FVec.SMALL_NUMBER) as [Hbig | Hsmall].
    + left. unfold FVec.Size. rewrite SizeSquared_Normalize by exact Hbig.
      apply sqrt_1.
    + right. rewrite Normalize_small by lra. lra.
  - intros j Hlt Hj.
    assert (Hz : AccumulateNormals Triangles Vertices
                   (replicate (length Vertices) FVec.ZeroVector) !! j
                 = Some FVec.ZeroVector).
    { rewrite (AccumulateNormals_untouched _ _ _ _ Hj).
      apply lookup_replicate_2. exact Hlt. }
    rewrite (lookup_map FVec.Normalize _ _ _ Hz), Normalize_ZeroVector.
    reflexivity.
Qed.

(** ** The mesh handed to the component *)

Lemma SubdivideTimes_vertex_bound (n : nat) :
  forall (k : nat) (Vertices Vertices' : list FVector)
         (Triangles Triangles' : list Z),
    SubdivideTimes n Vertices Triangles = Some (Vertices', Triangles') ->
    length Triangles = (3 * k)%nat ->
    Forall (ValidIndex (length Vertices)) Triangles ->
    (length Vertices' + k <= length Vertices + k * 4 ^ n)%nat.
Proof.
  induction n as [| n IH]; intros k Vertices Vertices' Triangles Triangles';
    cbn [SubdivideTimes].
  - intros [= <- <-] _ _. cbn [Nat.pow]. lia.
  - intros Hrun Hlen HT.
    destruct (SubdivideIcosphere_ok k Vertices Triangles Hlen HT)
      as (V1 & T1 & Hpass & HlenT1 & HvalT1 & _).
    destruct (SubdivideIcosphere_pass Vertices Triangles HT)
      as (new & T1' & Hpass' & _ & Hnew & _).
    rewrite Hpass in Hpass'. injection Hpass' as -> <-.
    rewrite Hpass in Hrun.
    specialize (IH (4 * k)%nat _ _ _ _ Hrun HlenT1 HvalT1).
    rewrite length_app in IH. rewrite Hlen in Hnew.
    replace (3 * k / 3)%nat with k in Hnew
      by (rewrite Nat.mul_comm, Nat.div_mul; lia).
    cbn [Nat.pow]. lia.
Qed.

Lemma length_RunVertices (E : Engine) (A : AAsteroidActor) (g : GlobalRand E)
    (Base : list FVector) :
  length (RunVertices E A g Base) = length Base.
Proof.
  unfold RunVertices, ScaleVertices, NormalizeVertices.
  rewrite !length_map. reflexivity.
Qed.

(** X14: the mesh [GenerateAsteroid] uploads is well formed: one section, of
    index 0 and without tri-mesh collision, with one normal per vertex and
    [3 * 20 * 4^level] triangle indices that all point into the vertex
    buffer (a negative level counts as level 0); between 12 and
    [20 * 4^level - 8] vertices; and the same vertices, once, as the convex
    collision mesh. *)
Theorem GenerateAsteroid_mesh_well_formed (E : Engine) (A : AAsteroidActor)
    (g : GlobalRand E) :
  exists (A' : AAsteroidActor) (g' : GlobalRand E) (Trace : list Event)
         (Vertices : list FVector) (Triangles : list Z) (Normals : list FVector),
    GenerateAsteroid E A g = Some (A', g', Trace) /\
    UploadedSections Trace = [(0%Z, Vertices, Triangles, Normals, false)] /\
    AddedConvexMeshes Trace = [Vertices] /\
    length Normals = length Vertices /\
    Forall (ValidIndex (length Vertices)) Triangles /\
    length Triangles = (3 * (20 * 4 ^ Z.to_nat (Subdivisions A)))%nat /\
    (12 <= length Vertices)%nat /\
    (length Vertices + 8 <= 20 * 4 ^ Z.to_nat (Subdivisions A))%nat.
Proof.
  destruct (GenerateAsteroid_run E A g) as (Base & T & g' & HB & Hrun).
  destruct (BuildBaseIcosphere_ok (Subdivisions A))
    as (Base' & T' & HB' & HlenT & HvalT & Hmin).
  rewrite HB in HB'. injection HB' as <- <-.
  destruct (CreateMeshFromData_shape (RunVertices E A g Base) T)
    as (Normals & Hmesh & HlenN).
  exists (SetStats A (RunStats E A g)), g', (RunTrace E A g Base T),
    (RunVertices E A g Base), T, Normals.
  split; [exact Hrun |].
  split; [unfold RunTrace; rewrite Hmesh; destruct (bEnablePhysics A); reflexivity |].
  split; [unfold RunTrace; rewrite Hmesh; destruct (bEnablePhysics A); reflexivity |].
  split; [exact HlenN |].
  rewrite length_RunVertices.
  split; [exact HvalT |]. split; [exact HlenT |]. split; [exact Hmin |].
  rewrite BuildBaseIcosphere_unfold in HB.
  pose proof (SubdivideTimes_vertex_bound _ 20 _ _ _ _ HB eq_refl faceIndices_valid)
    as Hbound.
  rewrite length_NormalizeVertices in Hbound.
  cbn [IcosahedronVertices length] in Hbound. lia.
Qed.

(** ** The uploaded mesh is a sphere *)

Lemma Size_Mul_unit (U : FVector) (s : R) :
  FVec.SizeSquared U = 1 -> FVec.Size (FVec.Mul U s) = Rabs s.
Proof.
  intros HU. unfold FVec.Size. rewrite SizeSquared_Mul, HU.
  replace (s * s * 1) with (Rsqr s) by (unfold Rsqr; ring).
  apply sqrt_Rsqr_abs.
Qed.

Lemma StaysClear_run (E : Engine) (A : AAsteroidActor) (g : GlobalRand E)
    (U : FVector) :
  FVec.SizeSquared U = 1 -> 0 <= MaxDisplacementFraction A ->
  INR (length (NoiseLayers A)) * MaxDisplacementFraction A < 9999 / 10000 \/
  Forall (fun Layer => Intensity Layer = 0) (NoiseLayers A) ->
  StaysClear E (RunPlan E A g) (MaxDisplacementFraction A) U.
Proof.
  intros HU Hm [Hsum | Hzero].
  - apply StaysClear_small_bounds_run; assumption.
  - apply StaysClear_zero_intensity_run; assumption.
Qed.

Lemma RunVertices_sphere (E : Engine) (A : AAsteroidActor) (g : GlobalRand E)
    (Base : list FVector) :
  UnitSphere Base -> 0 <= MaxDisplacementFraction A ->
  INR (length (NoiseLayers A)) * MaxDisplacementFraction A < 9999 / 10000 \/
  Forall (fun Layer => Intensity Layer = 0) (NoiseLayers A) ->
  RunVertices E A g Base = ScaleVertices (ChosenRadius E A g) Base /\
  Forall (fun V => FVec.Size V = Rabs (ChosenRadius E A g))
    (ScaleVertices (ChosenRadius E A g) Base).
Proof.
  intros HB Hm Hsmall. split.
  - unfold RunVertices. f_equal. unfold NormalizeVertices.
    induction HB as [| U rest HU _ IH]; [reflexivity |].
    cbn [map]. rewrite IH. f_equal.
    exact (proj1 (proj2 (RunVertices_on_sphere E A g [U] 0 U eq_refl HU
                           (StaysClear_run E A g U HU Hm Hsmall)))).
  - unfold ScaleVertices. apply Forall_fmap.
    eapply Forall_impl; [exact HB |].
    intros U HU. cbn beta. apply Size_Mul_unit. exact HU.
Qed.

(** X15: for a level from 0 to 13 and a non-negative clamp bound, if the clamp
    bound times the number of layers is below 0.9999, or every layer has
    intensity 0, the noise leaves no trace in the result: the uploaded
    vertices are the vertices of the base icosphere multiplied by the chosen
    radius, each at distance |radius| from the origin. *)
Theorem GenerateAsteroid_uploads_sphere (E : Engine) (A : AAsteroidActor)
    (g : GlobalRand E) :
  (0 <= Subdivisions A <= 13)%Z ->
  0 <= MaxDisplacementFraction A ->
  INR (length (NoiseLayers A)) * MaxDisplacementFraction A < 9999 / 10000 \/
  Forall (fun Layer => Intensity Layer = 0) (NoiseLayers A) ->
  exists (Base : list FVector) (Triangles : list Z) (A' : AAsteroidActor)
         (g' : GlobalRand E) (Trace : list Event),
    BuildBaseIcosphere (Subdivisions A) = Some (Base, Triangles) /\
    GenerateAsteroid E A g = Some (A', g', Trace) /\
    UploadedMeshes Trace
    = [(ScaleVertices (Radius (AsteroidStats A')) Base, Triangles)] /\
    Forall (fun V => FVec.Size V = Rabs (Radius (AsteroidStats A')))
      (ScaleVertices (Radius (AsteroidStats A')) Base).
Proof.
  intros Hlevel Hm Hsmall.
  destruct (GenerateAsteroid_run E A g) as (Base & T & g' & HB & Hrun).
  destruct (BuildBaseIcosphere_UnitSphere _ _ _ Hlevel HB) as (HU & _).
  destruct (RunVertices_sphere E A g Base HU Hm Hsmall) as (Hv & Hsize).
  exists Base, T, (SetStats A (RunStats E A g)), g', (RunTrace E A g Base T).
  split; [exact HB |]. split; [exact Hrun |].
  cbn [AsteroidStats SetStats Radius RunStats].
  split; [rewrite UploadedMeshes_RunTrace, Hv; reflexivity | exact Hsize].
Qed.

(** The strong layer clamped at 1/2 on the level-0 icosphere. *)
Lemma GenerateAsteroid_uploads_sphere_witness :
  exists (Base : list FVector) (A' : AAsteroidActor) (g' : list Z)
         (Trace : list Event),
    GenerateAsteroid LowNoiseEngine (StrongActor (1 / 2)) [] = Some (A', g', Trace) /\
    UploadedMeshes Trace
    = [(ScaleVertices (Radius (AsteroidStats A')) Base, faceIndices)].
Proof.
  destruct (GenerateAsteroid_uploads_sphere LowNoiseEngine (StrongActor (1 / 2)) [])
    as (Base & T & A' & g' & Trace & HB & Hrun & Hup & _).
  - cbn. lia.
  - cbn. lra.
  - left. cbn. lra.
  - destruct BaseVertex1_in_base as (Base0 & HB0 & _).
    change (Subdivisions (StrongActor (1 / 2))) with 0%Z in HB.
    rewrite HB0 in HB. injection HB as <- <-.
    exists Base0, A', g', Trace. split; [exact Hrun | exact Hup].
Defined.

(** ** The component after a generation *)

(** X16: whatever the mesh component held before, after [GenerateAsteroid] its
    section 0 is the new mesh, the other sections are as before, and it has
    exactly one convex collision mesh, made of the new vertices; simulation
    and mass override are set when physics is enabled and left alone when it
    is not. *)
Theorem GenerateAsteroid_replaces_mesh (E : Engine) (A : AAsteroidActor)
    (g : GlobalRand E) (s0 : ProcMeshState) :
  exists (A' : AAsteroidActor) (g' : GlobalRand E) (Trace : list Event)
         (Vertices : list FVector) (Triangles : list Z) (Normals : list FVector),
    GenerateAsteroid E A g = Some (A', g', Trace) /\
    UploadedSections Trace = [(0%Z, Vertices, Triangles, Normals, false)] /\
    MeshSections (ApplyTrace s0 Trace)
    = <[0%Z := (Vertices, Triangles, Normals)]> (MeshSections s0) /\
    CollisionConvexMeshes (ApplyTrace s0 Trace) = [Vertices] /\
    (bEnablePhysics A = true ->
     SimulatingPhysics (ApplyTrace s0 Trace) = true /\
     MassOverrideInKg (ApplyTrace s0 Trace) = Some (Mass (AsteroidStats A'))) /\
    (bEnablePhysics A = false ->
     SimulatingPhysics (ApplyTrace s0 Trace) = SimulatingPhysics s0 /\
     MassOverrideInKg (ApplyTrace s0 Trace) = MassOverrideInKg s0).
Proof.
  destruct (GenerateAsteroid_run E A g) as (Base & T & g' & _ & Hrun).
  destruct (CreateMeshFromData_shape (RunVertices E A g Base) T)
    as (Normals & Hmesh & _).
  exists (SetStats A (RunStats E A g)), g', (RunTrace E A g Base T),
    (RunVertices E A g Base), T, Normals.
  split; [exact Hrun |].
  unfold RunTrace. rewrite Hmesh.
  destruct (bEnablePhysics A); cbn;
    (split; [reflexivity |]); (split; [reflexivity |]); (split; [reflexivity |]);
    split; intros Hflag; try discriminate; split; reflexivity.
Qed.

(** ** The actor as constructed *)

(** X17: [BeginPlay] on the actor the constructor leaves (level 2, radius range
    [250, 1000], global seed -1, the default layer, clamp bound 0.5, physics
    on), when the [FRand] behind the radius returns a value in [0, 1]:
    the global seed is taken from [FMath::Rand] and the one layer seed from
    the stream it seeds; the mesh has 320 triangles and every vertex lies at
    the chosen radius, which is between 250 and 1000; the mass override is
    set to the stored mass. *)
Theorem ConstructedActor_BeginPlay (E : Engine) (g : GlobalRand E) :
  0 <= fst (FMath_FRand E (snd (FMath_Rand E g))) <= 1 ->
  exists (Base : list FVector) (Triangles : list Z) (A' : AAsteroidActor)
         (g' : GlobalRand E) (Trace : list Event),
    BeginPlay E ConstructedActor g = Some (A', g', Trace) /\
    NoiseLayerSeeds (AsteroidStats A')
    = [StreamDraw E (FRandomStream_Init E (fst (FMath_Rand E g))) 0] /\
    250 <= Radius (AsteroidStats A') <= 1000 /\
    UploadedMeshes Trace
    = [(ScaleVertices (Radius (AsteroidStats A')) Base, Triangles)] /\
    length Triangles = (3 * 320)%nat /\
    Forall (fun V => FVec.Size V = Radius (AsteroidStats A'))
      (ScaleVertices (Radius (AsteroidStats A')) Base) /\
    In (SetMassOverrideInKg (Mass (AsteroidStats A'))) Trace.
Proof.
  intros Hu.
  destruct (GenerateAsteroid_run E ConstructedActor g)
    as (Base & T & g' & HB & Hrun).
  destruct (BuildBaseIcosphere_ok (Subdivisions ConstructedActor))
    as (Base' & T' & HB' & HlenT & _).
  rewrite HB in HB'. injection HB' as <- <-.
  destruct (BuildBaseIcosphere_UnitSphere 2 _ _ ltac:(lia) HB) as (HU & _).
  destruct (RunVertices_sphere E ConstructedActor g Base HU) as (Hv & Hsize).
  { cbn. lra. }
  { left. cbn. lra. }
  assert (Hrange : 250 <= ChosenRadius E ConstructedActor g <= 1000).
  { pose proof (proj1 (ChosenRadius_between E ConstructedActor g Hu)) as Hr.
    cbn [MinRadius MaxRadius ConstructedActor] in Hr.
    rewrite Rmin_left, Rmax_right in Hr by lra. exact Hr. }
  exists Base, T, (SetStats ConstructedActor (RunStats E ConstructedActor g)), g',
    (RunTrace E ConstructedActor g Base T).
  split; [exact Hrun |].
  cbn [AsteroidStats SetStats Radius Mass NoiseLayerSeeds RunStats].
  split.
  { unfold ResolvedLayerSeeds, UsedGlobalSeed, PickGlobalSeed.
    cbn [GlobalSeed NoiseLayers ConstructedActor ConstructNoiseLayers
         PrepareLayerSeeds DefaultNoiseLayer Seed Z.ltb Z.compare StreamDraw].
    destruct (FRandomStream_RandRange E 0 INT32_MAX
                (FRandomStream_Init E (fst (FMath_Rand E g)))) as [seed s'].
    reflexivity. }
  split; [exact Hrange |].
  split; [rewrite UploadedMeshes_RunTrace, Hv; reflexivity |].
  split; [exact HlenT |].
  split.
  { eapply Forall_impl; [exact Hsize |].
    intros V HV. cbn beta in HV. rewrite HV. apply Rabs_right. lra. }
  unfold RunTrace. cbn [bEnablePhysics ConstructedActor].
  apply in_or_app. right. apply in_or_app. right.
  apply in_or_app. left. right. left. reflexivity.
Qed.

(** The constructed actor on the scripted engine, [rand()] returning 5 and
    then half of [RAND_MAX]. *)
Lemma ConstructedActor_BeginPlay_witness :
  exists (A' : AAsteroidActor) (g' : list Z) (Trace : list Event),
    BeginPlay QuietEngine ConstructedActor [5%Z; 16384%Z] = Some (A', g', Trace) /\
    250 <= Radius (AsteroidStats A') <= 1000.
Proof.
  destruct (ConstructedActor_BeginPlay QuietEngine [5%Z; 16384%Z])
    as (Base & T & A' & g' & Trace & Hrun & _ & Hrange & _).
  - cbn. unfold RAND_MAX. lra.
  - exists A', g', Trace. split; [exact Hrun | exact Hrange].
Defined.

(** ** The winding of the faces and the normals *)

Lemma Dot_face_normal (a b c : FVector) :
  FVec.DotProduct (FVec.CrossProduct (FVec.Sub b a) (FVec.Sub c a)) a = Triple a b c /\
  FVec.DotProduct (FVec.CrossProduct (FVec.Sub b a) (FVec.Sub c a)) b = Triple a b c /\
  FVec.DotProduct (FVec.CrossProduct (FVec.Sub b a) (FVec.Sub c a)) c = Triple a b c.
Proof.
  unfold Triple, FVec.DotProduct, FVec.CrossProduct, FVec.Sub. cbn.
  repeat split; ring.
Qed.

Lemma Triple_scaled (a b c : FVector) (s : R) :
  Triple (FVec.Mul a s) (FVec.Mul b s) (FVec.Mul c s) = s * s * s * Triple a b c.
Proof. unfold Triple, FVec.DotProduct, FVec.CrossProduct, FVec.Mul. cbn. ring. Qed.

Lemma Index_ScaleVertices (Vertices : list FVector) (s : R) (i : Z)
    (U : FVector) :
  Index Vertices i = Some U ->
  Index (ScaleVertices s Vertices) i = Some (FVec.Mul U s).
Proof.
  unfold Index, ScaleVertices. destruct (i <? 0)%Z; [discriminate |].
  apply (lookup_map (fun V => FVec.Mul V s)).
Qed.

(** Scaling by a positive radius keeps the winding of a face. *)
Lemma OutwardFace_scaled (Base : list FVector) (s : R) (f : Z * Z * Z) :
  0 < s -> SphereFace Base f -> OutwardFace (ScaleVertices s Base) f.
Proof.
  intros Hs. destruct f as [[i0 i1] i2].
  intros (U0 & U1 & U2 & H0 & H1 & H2 & _ & _ & _ & HT).
  exists (FVec.Mul U0 s), (FVec.Mul U1 s), (FVec.Mul U2 s).
  split; [apply Index_ScaleVertices; exact H0 |].
  split; [apply Index_ScaleVertices; exact H1 |].
  split; [apply Index_ScaleVertices; exact H2 |].
  destruct (Dot_face_normal (FVec.Mul U0 s) (FVec.Mul U1 s) (FVec.Mul U2 s))
    as (E0 & E1 & E2).
  rewrite E0, E1, E2, Triple_scaled.
  assert (Hpos : 0 < s * s * s * Triple U0 U1 U2).
  { apply Rmult_lt_0_compat; [| exact HT].
    apply Rmult_lt_0_compat; [apply Rmult_lt_0_compat |]; exact Hs. }
  repeat split; exact Hpos.
Qed.

Lemma Dot_Add_l (a b c : FVector) :
  FVec.DotProduct (FVec.Add a b) c = FVec.DotProduct a c + FVec.DotProduct b c.
Proof. unfold FVec.DotProduct, FVec.Add. cbn. ring. Qed.

Lemma Dot_Mul_l (a c : FVector) (k : R) :
  FVec.DotProduct (FVec.Mul a k) c = k * FVec.DotProduct a c.
Proof. unfold FVec.DotProduct, FVec.Mul. cbn. ring. Qed.

Lemma Dot_Zero_l (c : FVector) : FVec.DotProduct FVec.ZeroVector c = 0.
Proof. unfold FVec.DotProduct, FVec.ZeroVector. cbn. ring. Qed.

Lemma Add_Zero_r (a : FVector) : FVec.Add a FVec.ZeroVector = a.
Proof. apply FVector_eq; cbn; ring. Qed.

Lemma OutwardNormal_Add (N F V : FVector) :
  OutwardNormal N V -> OutwardNormal F V -> OutwardNormal (FVec.Add N F) V.
Proof.
  intros [-> | HN] [-> | HF].
  - left. apply Add_Zero_r.
  - right. rewrite Dot_Add_l, Dot_Zero_l. lra.
  - right. rewrite Add_Zero_r. exact HN.
  - right. rewrite Dot_Add_l. lra.
Qed.

(** [GetSafeNormal] of a vector on the side of [V] is the zero vector or
    on the side of [V]. *)
Lemma OutwardNormal_GetSafeNormal (x V : FVector) :
  0 < FVec.DotProduct x V -> OutwardNormal (FVec.GetSafeNormal x) V.
Proof.
  intros Hx. unfold FVec.GetSafeNormal. cbv zeta.
  destruct (Req_dec_T (FVec.SizeSquared x) 1) as [_ | _]; [right; exact Hx |].
  destruct (Rlt_dec (FVec.SizeSquared x) FVec.SMALL_NUMBER) as [_ | Hbig];
    [left; reflexivity |].
  right. rewrite Dot_Mul_l. apply Rmult_lt_0_compat; [| exact Hx].
  unfold FVec.InvSqrt. apply Rinv_0_lt_compat, sqrt_lt_R0.
  pose proof SMALL_NUMBER_pos. lra.
Qed.

Lemma OutwardNormal_Normalize (N V : FVector) :
  OutwardNormal N V -> OutwardNormal (FVec.Normalize N) V.
Proof.
  intros [-> | HN]; [left; apply Normalize_ZeroVector |].
  right. unfold FVec.Normalize. cbv zeta.
  destruct (Rgt_dec (FVec.SizeSquared N) FVec.SMALL_NUMBER) as [Hbig | _];
    [| exact HN].
  rewrite Dot_Mul_l. apply Rmult_lt_0_compat; [| exact HN].
  unfold FVec.InvSqrt. apply Rinv_0_lt_compat, sqrt_lt_R0.
  pose proof SMALL_NUMBER_pos. lra.
Qed.

(** Adding a face normal at a corner of the face. *)
Lemma OutwardNormals_alter (Vertices Normals : list FVector) (i : Z)
    (v F : FVector) :
  OutwardNormals Vertices Normals ->
  Index Vertices i = Some v -> OutwardNormal F v ->
  OutwardNormals Vertices
    (alter (fun N => FVec.Add N F) (Z.to_nat i) Normals).
Proof.
  intros HN Hi HF j N V Hj HV.
  destruct (decide (j = Z.to_nat i)) as [-> | Hne].
  - rewrite list_lookup_alter_eq in Hj.
    apply fmap_Some in Hj as (N0 & HN0 & ->).
    assert (Hv : V = v).
    { unfold Index in Hi. destruct (i <? 0)%Z; [discriminate |]. congruence. }
    subst V. apply OutwardNormal_Add; [exact (HN _ _ _ HN0 HV) | exact HF].
  - rewrite list_lookup_alter_ne in Hj by (intros Heq; apply Hne; symmetry; exact Heq).
    exact (HN _ _ _ Hj HV).
Qed.

(** The accumulation loop on faces that are all wound outwards. *)
Lemma AccumulateNormals_outward (Triangles : list Z) :
  forall (Vertices Normals : list FVector),
    Forall (OutwardFace Vertices) (Faces Triangles) ->
    OutwardNormals Vertices Normals ->
    OutwardNormals Vertices (AccumulateNormals Triangles Vertices Normals).
Proof.
  induction Triangles as [| a | a b | i0 i1 i2 rest IH] using list_ind3;
    intros Vertices Normals HF HN; try exact HN.
  cbn [Faces] in HF. apply Forall_cons in HF as [Hface HF].
  destruct Hface as (v0 & v1 & v2 & H0 & H1 & H2 & D0 & D1 & D2).
  cbn [AccumulateNormals]. rewrite H0, H1, H2. cbv zeta.
  apply IH; [exact HF |].
  apply (OutwardNormals_alter _ _ _ v2); [| exact H2 |
    apply OutwardNormal_GetSafeNormal; exact D2].
  apply (OutwardNormals_alter _ _ _ v1); [| exact H1 |
    apply OutwardNormal_GetSafeNormal; exact D1].
  apply (OutwardNormals_alter _ _ _ v0); [exact HN | exact H0 |
    apply OutwardNormal_GetSafeNormal; exact D0].
Qed.

(** On a mesh whose faces are all wound outwards, no normal that
    [CreateMeshFromData] passes on points inwards. *)
Lemma CreateMeshFromData_outward (Vertices : list FVector)
    (Triangles : list Z) :
  Forall (OutwardFace Vertices) (Faces Triangles) ->
  exists Normals : list FVector,
    CreateMeshFromData Vertices Triangles false
    = [CreateMeshSection 0 Vertices Triangles Normals false] /\
    OutwardNormals Vertices Normals.
Proof.
  intros HF. eexists. split; [reflexivity |].
  intros j N V Hj HV.
  apply list_lookup_fmap_Some in Hj as (N0 & -> & HN0).
  apply OutwardNormal_Normalize.
  refine (AccumulateNormals_outward Triangles Vertices _ HF _ j N0 V HN0 HV).
  intros k M W Hk _. apply lookup_replicate in Hk as [-> _].
  left. reflexivity.
Qed.

(** X8: for a level from 0 to 13, a positive radius range, a radius draw in
    [0, 1] and noise layers that stay clear of the origin (as in X15), the
    mesh [GenerateAsteroid] hands to [CreateMeshFromData] has every face
    wound outwards: the cross product [(v1 - v0) x (v2 - v0)] that
    [CreateMeshFromData] takes for the face has a positive dot product with
    each corner.  So no normal it uploads points inwards: each is the zero
    vector or has a positive dot product with its vertex. *)
Theorem GenerateAsteroid_normals_outward (E : Engine) (A : AAsteroidActor)
    (g : GlobalRand E) :
  (0 <= Subdivisions A <= 13)%Z ->
  0 <= MaxDisplacementFraction A ->
  INR (length (NoiseLayers A)) * MaxDisplacementFraction A < 9999 / 10000 \/
  Forall (fun Layer => Intensity Layer = 0) (NoiseLayers A) ->
  0 < MinRadius A -> 0 < MaxRadius A ->
  0 <= fst (FMath_FRand E (snd (PickGlobalSeed E (GlobalSeed A) g))) <= 1 ->
  exists (A' : AAsteroidActor) (g' : GlobalRand E) (Trace : list Event)
         (Vertices : list FVector) (Triangles : list Z) (Normals : list FVector),
    GenerateAsteroid E A g = Some (A', g', Trace) /\
    UploadedSections Trace = [(0%Z, Vertices, Triangles, Normals, false)] /\
    Forall (OutwardFace Vertices) (Faces Triangles) /\
    (forall (j : nat) (N V : FVector),
        Normals !! j = Some N -> Vertices !! j = Some V ->
        N = FVec.ZeroVector \/ 0 < FVec.DotProduct N V).
Proof.
  intros Hlevel Hm Hsmall Hmin Hmax Hu.
  destruct (GenerateAsteroid_run E A g) as (Base & T & g' & HB & Hrun).
  destruct (BuildBaseIcosphere_UnitSphere _ _ _ Hlevel HB) as (HU & HF).
  destruct (RunVertices_sphere E A g Base HU Hm Hsmall) as (Hv & _).
  assert (Hpos : 0 < ChosenRadius E A g).
  { pose proof (proj1 (ChosenRadius_between E A g Hu)) as Hr.
    pose proof (Rmin_glb_lt (MinRadius A) (MaxRadius A) 0 Hmin Hmax). lra. }
  assert (Hout : Forall (OutwardFace (RunVertices E A g Base)) (Faces T)).
  { rewrite Hv. eapply Forall_impl; [exact HF |].
    intros f Hf. apply OutwardFace_scaled; assumption. }
  destruct (CreateMeshFromData_outward _ _ Hout) as (Normals & Hmesh & HN).
  exists (SetStats A (RunStats E A g)), g', (RunTrace E A g Base T),
    (RunVertices E A g Base), T, Normals.
  split; [exact Hrun |].
  split; [unfold RunTrace; rewrite Hmesh; destruct (bEnablePhysics A); reflexivity |].
  split; [exact Hout | exact HN].
Qed.

(** The seeded actor with its default radius range, the generator returning
    half of [RAND_MAX]. *)
Lemma GenerateAsteroid_normals_outward_witness :
  exists (A' : AAsteroidActor) (g' : list Z) (Trace : list Event)
         (Vertices : list FVector) (Triangles : list Z) (Normals : list FVector),
    GenerateAsteroid QuietEngine SeededActor [16384%Z] = Some (A', g', Trace) /\
    UploadedSections Trace = [(0%Z, Vertices, Triangles, Normals, false)].
Proof.
  destruct (GenerateAsteroid_normals_outward QuietEngine SeededActor [16384%Z])
    as (A' & g' & Trace & V & T & N & Hrun & Hup & _).
  - cbn. lia.
  - cbn. lra.
  - left. cbn. lra.
  - cbn. lra.
  - cbn. lra.
  - cbn. unfold RAND_MAX. lra.
  - exists A', g', Trace, V, T, N. split; [exact Hrun | exact Hup].
Defined.

(** ** The children of a pass share their midpoints *)

Lemma GetMiddlePoint_fresh (p1 p2 : Z) (Vertices Vertices' : list FVector)
    (Cache Cache' : gmap Z Z) (i : Z) (n0 : nat) :
  GetMiddlePoint p1 p2 Vertices Cache = Some (i, (Vertices', Cache')) ->
  CacheValid (length Vertices) Cache -> CacheInjective Cache ->
  CacheFrom n0 Cache -> (n0 <= length Vertices)%nat ->
  CacheValid (length Vertices') Cache' /\ CacheInjective Cache' /\
  CacheFrom n0 Cache' /\ (length Vertices <= length Vertices')%nat.
Proof.
  unfold GetMiddlePoint.
  destruct (Cache !! MakeKey p1 p2) as [Found |] eqn:Hk.
  - intros [= <- <- <-] HV HI HF Hn.
    split; [exact HV |]. split; [exact HI |]. split; [exact HF | lia].
  - destruct (Index Vertices p1) as [point1 |]; [| discriminate].
    destruct (Index Vertices p2) as [point2 |]; [| discriminate].
    intros [= <- <- <-] HV HI HF Hn.
    rewrite length_app. cbn [length].
    split; [| split; [| split; [| lia]]].
    + intros key j Hj.
      destruct (decide (MakeKey p1 p2 = key)) as [Heq | Hne].
      * subst key. rewrite lookup_insert_eq in Hj. injection Hj as <-.
        unfold ValidIndex. lia.
      * rewrite lookup_insert_ne in Hj by exact Hne.
        eapply ValidIndex_mono; [exact (HV _ _ Hj) | lia].
    + intros key1 key2 j H1 H2.
      destruct (decide (MakeKey p1 p2 = key1)) as [Heq1 | Hne1];
        destruct (decide (MakeKey p1 p2 = key2)) as [Heq2 | Hne2].
      * congruence.
      * subst key1. rewrite lookup_insert_eq in H1. injection H1 as <-.
        rewrite lookup_insert_ne in H2 by exact Hne2.
        pose proof (HV _ _ H2) as Hbad. unfold ValidIndex in Hbad. lia.
      * subst key2. rewrite lookup_insert_eq in H2. injection H2 as <-.
        rewrite lookup_insert_ne in H1 by exact Hne1.
        pose proof (HV _ _ H1) as Hbad. unfold ValidIndex in Hbad. lia.
      * rewrite lookup_insert_ne in H1 by exact Hne1.
        rewrite lookup_insert_ne in H2 by exact Hne2.
        exact (HI _ _ _ H1 H2).
    + intros key j Hj.
      destruct (decide (MakeKey p1 p2 = key)) as [Heq | Hne].
      * subst key. rewrite lookup_insert_eq in Hj. injection Hj as <-. lia.
      * rewrite lookup_insert_ne in Hj by exact Hne. exact (HF _ _ Hj).
Qed.

Lemma SubdivideLoop_children (Triangles : list Z) :
  forall (Vertices Vertices' : list FVector) (Cache : gmap Z Z)
         (newTriangles Triangles' : list Z) (n0 : nat),
    SubdivideLoop Triangles Vertices Cache newTriangles
      = Some (Vertices', Triangles') ->
    CacheValid (length Vertices) Cache -> CacheInjective Cache ->
    CacheFrom n0 Cache -> (n0 <= length Vertices)%nat ->
    exists Cache' : gmap Z Z,
      Cache ⊆ Cache' /\
      Triangles'
      = newTriangles ++ flat_map (ChildFaces (CachedIndex Cache')) (Faces Triangles) /\
      dom Cache' = dom Cache ∪ list_to_set (EdgeKeys Triangles) /\
      CacheValid (length Vertices') Cache' /\ CacheInjective Cache' /\
      CacheFrom n0 Cache'.
Proof.
  induction Triangles as [| x | x y | v1 v2 v3 rest IH] using list_ind3;
    intros Vertices Vertices' Cache newTriangles Triangles' n0.
  1-3: cbn [SubdivideLoop Faces flat_map EdgeKeys]; intros [= <- <-] HV HI HF Hn;
       exists Cache; rewrite app_nil_r;
       (split; [reflexivity |]); (split; [reflexivity |]);
       (split; [set_solver |]); (split; [exact HV |]);
       (split; [exact HI | exact HF]).
  cbn [SubdivideLoop Faces flat_map EdgeKeys].
  destruct (GetMiddlePoint v1 v2 Vertices Cache) as [[a [V1 C1]] |] eqn:Ha;
    [| discriminate].
  destruct (GetMiddlePoint v2 v3 V1 C1) as [[b [V2 C2]] |] eqn:Hb;
    [| discriminate].
  destruct (GetMiddlePoint v3 v1 V2 C2) as [[c [V3 C3]] |] eqn:Hc;
    [| discriminate].
  intros Hrun HV HI HF Hn.
  destruct (GetMiddlePoint_fresh _ _ _ _ _ _ _ n0 Ha HV HI HF Hn)
    as (HV1 & HI1 & HF1 & Hn1).
  destruct (GetMiddlePoint_fresh _ _ _ _ _ _ _ n0 Hb HV1 HI1 HF1 ltac:(lia))
    as (HV2 & HI2 & HF2 & Hn2).
  destruct (GetMiddlePoint_fresh _ _ _ _ _ _ _ n0 Hc HV2 HI2 HF2 ltac:(lia))
    as (HV3 & HI3 & HF3 & Hn3).
  destruct (GetMiddlePoint_extends _ _ _ _ _ _ _ Ha) as (_ & S1 & K1).
  destruct (GetMiddlePoint_extends _ _ _ _ _ _ _ Hb) as (_ & S2 & K2).
  destruct (GetMiddlePoint_extends _ _ _ _ _ _ _ Hc) as (_ & S3 & K3).
  destruct (GetMiddlePoint_count _ _ _ _ _ _ _ Ha) as (D1 & _ & _).
  destruct (GetMiddlePoint_count _ _ _ _ _ _ _ Hb) as (D2 & _ & _).
  destruct (GetMiddlePoint_count _ _ _ _ _ _ _ Hc) as (D3 & _ & _).
  destruct (IH _ _ _ _ _ n0 Hrun HV3 HI3 HF3 ltac:(lia))
    as (C' & S' & -> & D' & HV' & HI' & HF').
  exists C'.
  split; [etransitivity; [exact S1 |]; etransitivity; [exact S2 |];
          etransitivity; [exact S3 | exact S'] |].
  split; [| split; [rewrite D', D3, D2, D1; set_solver |];
            split; [exact HV' |]; split; [exact HI' | exact HF']].
  assert (Za : CachedIndex C' (MakeKey v1 v2) = a).
  { unfold CachedIndex.
    rewrite (lookup_weaken C1 C' _ _ K1)
      by (etransitivity; [exact S2 |]; etransitivity; [exact S3 | exact S']).
    reflexivity. }
  assert (Zb : CachedIndex C' (MakeKey v2 v3) = b).
  { unfold CachedIndex.
    rewrite (lookup_weaken C2 C' _ _ K2)
      by (etransitivity; [exact S3 | exact S']).
    reflexivity. }
  assert (Zc : CachedIndex C' (MakeKey v3 v1) = c).
  { unfold CachedIndex. rewrite (lookup_weaken C3 C' _ _ K3) by exact S'.
    reflexivity. }
  assert (Hface : ChildFaces (CachedIndex C') (v1, v2, v3)
                  = [v1; a; c; v2; b; a; v3; c; b; a; b; c]).
  { unfold ChildFaces. rewrite Za, Zb, Zc. reflexivity. }
  rewrite Hface, <- app_assoc. reflexivity.
Qed.

(** X2: the triangle list a pass writes is the list of the children of the old
    faces, in order, where the corners keep their indices and each edge key
    has one midpoint index: the midpoint indices point at the newly
    appended vertices, and two edge keys never share a midpoint index. *)
Theorem SubdivideIcosphere_children (Vertices : list FVector)
    (Triangles : list Z) :
  Forall (ValidIndex (length Vertices)) Triangles ->
  exists (Vertices' : list FVector) (Triangles' : list Z) (Mid : gmap Z Z),
    SubdivideIcosphere Vertices Triangles = Some (Vertices', Triangles') /\
    Triangles' = flat_map (ChildFaces (CachedIndex Mid)) (Faces Triangles) /\
    dom Mid = list_to_set (EdgeKeys Triangles) /\
    (forall key i, Mid !! key = Some i ->
                   (Z.of_nat (length Vertices) <= i < Z.of_nat (length Vertices'))%Z) /\
    (forall key1 key2 i,
        Mid !! key1 = Some i -> Mid !! key2 = Some i -> key1 = key2).
Proof.
  intros HT. unfold SubdivideIcosphere.
  destruct (SubdivideLoop_runs Triangles Vertices ∅ [] HT (CacheValid_empty _))
    as (V' & T' & Hrun).
  destruct (SubdivideLoop_children _ _ _ _ _ _ (length Vertices) Hrun
              (CacheValid_empty _))
    as (C' & _ & HT' & HD' & HV' & HI' & HF').
  - intros k1 k2 i Hk. rewrite lookup_empty in Hk. discriminate.
  - intros k i Hk. rewrite lookup_empty in Hk. discriminate.
  - lia.
  - exists V', T', C'. split; [exact Hrun |]. split; [exact HT' |].
    split; [| split; [| exact HI']].
    + rewrite HD', dom_empty_L. apply (left_id_L ∅ (∪)).
    + intros key i Hk. pose proof (HV' _ _ Hk) as Hv. pose proof (HF' _ _ Hk).
      unfold ValidIndex in Hv. lia.
Qed.

(** The children of the twenty faces of the icosahedron. *)
Lemma SubdivideIcosphere_children_witness :
  Forall (ValidIndex (length (NormalizeVertices IcosahedronVertices)))
    faceIndices /\
  exists (Vertices' : list FVector) (Triangles' : list Z),
    SubdivideIcosphere (NormalizeVertices IcosahedronVertices) faceIndices
    = Some (Vertices', Triangles').
Proof.
  split; [exact faceIndices_valid |].
  destruct (SubdivideIcosphere_children
              (NormalizeVertices IcosahedronVertices) faceIndices
              faceIndices_valid) as (V' & T' & Mid & Hrun & _).
  exists V', T'. exact Hrun.
Defined.

(** ** The shared midpoint within a pass *)

Lemma PassState_start (Vertices0 : list FVector) :
  PassState Vertices0 Vertices0 ∅.
Proof.
  split.
  - exists []. symmetry. apply app_nil_r.
  - apply CacheValid_empty.
  - intros key1 key2 i Hk. rewrite lookup_empty in Hk. discriminate.
  - intros key i Hk. rewrite lookup_empty in Hk. discriminate.
  - intros key i Hk. rewrite lookup_empty in Hk. discriminate.
  - intros i Hi. lia.
Qed.

(** One request of a pass, for an edge of the buffer the pass started
    from. *)
Lemma GetMiddlePoint_pass_step (Vertices0 Vertices : list FVector)
    (Cache : gmap Z Z) (p1 p2 : Z) :
  PassState Vertices0 Vertices Cache ->
  ValidIndex (length Vertices0) p1 -> ValidIndex (length Vertices0) p2 ->
  exists (a : Z) (Vertices1 : list FVector) (Cache1 : gmap Z Z),
    GetMiddlePoint p1 p2 Vertices Cache = Some (a, (Vertices1, Cache1)) /\
    PassState Vertices0 Vertices1 Cache1 /\
    Cache ⊆ Cache1 /\
    Cache1 !! MakeKey p1 p2 = Some a /\
    (forall key i, Cache1 !! key = Some i -> Cache !! key = Some i \/ i = a).
Proof.
  intros [[new Hnew] HV HI HF HM HO] Hp1 Hp2.
  destruct (Index_Some Vertices0 p1 Hp1) as [P1 HP1].
  destruct (Index_Some Vertices0 p2 Hp2) as [P2 HP2].
  destruct (Cache !! MakeKey p1 p2) as [Found |] eqn:Hk.
  - exists Found, Vertices, Cache.
    split; [apply GetMiddlePoint_hit; exact Hk |].
    split; [split; [exists new | | | | |]; assumption |].
    split; [reflexivity |]. split; [exact Hk |].
    intros key i Hi. left. exact Hi.
  - assert (HP1' : Index Vertices p1 = Some P1)
      by (rewrite Hnew; apply Index_app_l; exact HP1).
    assert (HP2' : Index Vertices p2 = Some P2)
      by (rewrite Hnew; apply Index_app_l; exact HP2).
    pose proof (GetMiddlePoint_miss _ _ _ _ _ _ Hk HP1' HP2') as Hcall.
    fold (MiddleOf P1 P2) in Hcall.
    assert (Hn0 : (length Vertices0 <= length Vertices)%nat)
      by (rewrite Hnew, length_app; lia).
    destruct (GetMiddlePoint_fresh _ _ _ _ _ _ _ _ Hcall HV HI HF Hn0)
      as (HV1 & HI1 & HF1 & _).
    eexists _, _, _. split; [exact Hcall |].
    split; [split |].
    + exists (new ++ [MiddleOf P1 P2]). rewrite Hnew. symmetry. apply app_assoc.
    + exact HV1.
    + exact HI1.
    + exact HF1.
    + intros key i Hi.
      destruct (decide (MakeKey p1 p2 = key)) as [Heq | Hne].
      * subst key. rewrite lookup_insert_eq in Hi. injection Hi as <-.
        exists p1, p2, P1, P2. split; [reflexivity |].
        split; [exact HP1 |]. split; [exact HP2 | apply Index_last].
      * rewrite lookup_insert_ne in Hi by exact Hne.
        destruct (HM key i Hi) as (p & q & P & Q & Hkey & Hp & Hq & Hmid).
        exists p, q, P, Q. split; [exact Hkey |].
        split; [exact Hp |]. split; [exact Hq |].
        apply Index_app_l. exact Hmid.
    + intros i Hi. rewrite length_app in Hi. cbn [length] in Hi.
      destruct (decide (i = length Vertices)) as [-> | Hlt].
      * exists (MakeKey p1 p2). apply lookup_insert_eq.
      * destruct (HO i ltac:(lia)) as [key Hkey].
        exists key. rewrite lookup_insert_ne; [exact Hkey |].
        intros Heq. subst key. rewrite Hk in Hkey. discriminate.
    + split; [apply insert_subseteq; exact Hk |].
      split; [apply lookup_insert_eq |].
      intros key i Hi.
      destruct (decide (MakeKey p1 p2 = key)) as [Heq | Hne].
      * subst key. rewrite lookup_insert_eq in Hi. injection Hi as <-.
        right. reflexivity.
      * rewrite lookup_insert_ne in Hi by exact Hne. left. exact Hi.
Qed.

(** The requests of a pass, one after the other. *)
Lemma MiddlePoints_pass (Vertices0 : list FVector) (Edges : list (Z * Z)) :
  Forall (fun e => ValidIndex (length Vertices0) (fst e) /\
                   ValidIndex (length Vertices0) (snd e)) Edges ->
  forall (Vertices : list FVector) (Cache : gmap Z Z),
    PassState Vertices0 Vertices Cache ->
    exists (found : list Z) (Vertices' : list FVector) (Cache' : gmap Z Z),
      MiddlePoints Edges Vertices Cache = Some (found, (Vertices', Cache')) /\
      PassState Vertices0 Vertices' Cache' /\
      Cache ⊆ Cache' /\
      Forall2 (fun e a => Cache' !! MakeKey (fst e) (snd e) = Some a)
        Edges found /\
      (forall key i, Cache' !! key = Some i ->
                     Cache !! key = Some i \/ i ∈ found).
Proof.
  induction 1 as [| [p1 p2] rest [Hp1 Hp2] _ IH]; intros Vertices Cache Hst.
  - exists [], Vertices, Cache. split; [reflexivity |].
    split; [exact Hst |]. split; [reflexivity |].
    split; [apply Forall2_nil_2 |].
    intros key i Hi. left. exact Hi.
  - cbn [fst snd] in Hp1, Hp2.
    destruct (GetMiddlePoint_pass_step _ _ _ _ _ Hst Hp1 Hp2)
      as (a & V1 & C1 & Hcall & Hst1 & S1 & K1 & Hin1).
    destruct (IH V1 C1 Hst1) as (found & V' & C' & Hrun & Hst' & S' & HF2 & Hin').
    exists (a :: found), V', C'. cbn [MiddlePoints]. rewrite Hcall, Hrun.
    split; [reflexivity |]. split; [exact Hst' |].
    split; [etransitivity; [exact S1 | exact S'] |].
    split.
    + apply Forall2_cons. split; [| exact HF2].
      cbn [fst snd]. exact (lookup_weaken _ _ _ _ K1 S').
    + intros key i Hi. destruct (Hin' key i Hi) as [Hold | Hnew].
      * destruct (Hin1 key i Hold) as [Hold' | ->].
        -- left. exact Hold'.
        -- right. apply elem_of_cons. left. reflexivity.
      * right. apply elem_of_cons. right. exact Hnew.
Qed.

(** The loop of [SubdivideIcosphere] threads its buffer and cache through
    the requests for the edges of its triangles. *)
Lemma SubdivideLoop_requests (Triangles : list Z) :
  forall (Vertices Vertices' : list FVector) (Cache Cache' : gmap Z Z)
         (newTriangles found : list Z),
    MiddlePoints (TriangleEdges Triangles) Vertices Cache
      = Some (found, (Vertices', Cache')) ->
    exists Triangles' : list Z,
      SubdivideLoop Triangles Vertices Cache newTriangles
        = Some (Vertices', Triangles').
Proof.
  induction Triangles as [| x | x y | v1 v2 v3 rest IH] using list_ind3;
    intros Vertices Vertices' Cache Cache' newTriangles found.
  1-3: cbn [TriangleEdges MiddlePoints SubdivideLoop]; intros [= <- <- <-];
       eexists; reflexivity.
  cbn [TriangleEdges MiddlePoints SubdivideLoop].
  destruct (GetMiddlePoint v1 v2 Vertices Cache) as [[a [V1 C1]] |];
    [| discriminate].
  destruct (GetMiddlePoint v2 v3 V1 C1) as [[b [V2 C2]] |]; [| discriminate].
  destruct (GetMiddlePoint v3 v1 V2 C2) as [[c [V3 C3]] |]; [| discriminate].
  destruct (MiddlePoints (TriangleEdges rest) V3 C3)
    as [[found' [V4 C4]] |] eqn:Hrest; [| discriminate].
  intros [= <- <- <-].
  exact (IH _ _ _ _ _ _ Hrest).
Qed.

(** C3: take one subdivision pass, that is, a sequence of midpoint requests
    threaded through one vertex buffer and a cache that starts empty, all
    for edges between vertices the buffer held before the pass (an array
    holds at most 2^31 entries).  Every request returns the index of a
    vertex appended during the pass; that vertex is the normalised mean of
    the two endpoints, and its index is cached under the key
    [min * 2^32 + max] of the endpoint indices.  Two requests return the
    same index exactly when they are for the same edge, with the endpoints
    in either order, and every vertex appended during the pass answers some
    request: the buffer grows by exactly one vertex per edge.  Asking again
    after the pass, in either order, returns the same index and changes
    neither buffer nor cache.  The buffer is the one [SubdivideIcosphere]
    leaves when the requests are those of its triangles. *)
Theorem GetMiddlePoint_shared_midpoint (Vertices : list FVector)
    (Edges : list (Z * Z)) :
  (Z.of_nat (length Vertices) <= 2 ^ 31)%Z ->
  Forall (fun e => ValidIndex (length Vertices) (fst e) /\
                   ValidIndex (length Vertices) (snd e)) Edges ->
  exists (found : list Z) (Vertices' : list FVector) (Cache' : gmap Z Z),
    MiddlePoints Edges Vertices ∅ = Some (found, (Vertices', Cache')) /\
    length found = length Edges /\
    (exists new, Vertices' = Vertices ++ new) /\
    (forall (j : nat) (p1 p2 a : Z),
        Edges !! j = Some (p1, p2) -> found !! j = Some a ->
        (Z.of_nat (length Vertices) <= a < Z.of_nat (length Vertices'))%Z /\
        Cache' !! (Z.min p1 p2 * 2 ^ 32 + Z.max p1 p2)%Z = Some a /\
        (exists point1 point2 : FVector,
            Index Vertices p1 = Some point1 /\
            Index Vertices p2 = Some point2 /\
            Index Vertices' a
            = Some (FVec.Normalize
                      (FVec.Mul (FVec.Add point1 point2) (1 / 2)))) /\
        GetMiddlePoint p1 p2 Vertices' Cache' = Some (a, (Vertices', Cache')) /\
        GetMiddlePoint p2 p1 Vertices' Cache' = Some (a, (Vertices', Cache'))) /\
    (forall (j k : nat) (p1 p2 q1 q2 a b : Z),
        Edges !! j = Some (p1, p2) -> Edges !! k = Some (q1, q2) ->
        found !! j = Some a -> found !! k = Some b ->
        (a = b <-> (p1 = q1 /\ p2 = q2) \/ (p1 = q2 /\ p2 = q1))) /\
    (forall i : nat,
        (length Vertices <= i < length Vertices')%nat ->
        exists j : nat, found !! j = Some (Z.of_nat i)) /\
    (forall Triangles : list Z,
        Edges = TriangleEdges Triangles ->
        exists Triangles' : list Z,
          SubdivideIcosphere Vertices Triangles = Some (Vertices', Triangles')).
Proof.
  intros Hlen HE.
  destruct (MiddlePoints_pass Vertices Edges HE Vertices ∅
              (PassState_start Vertices))
    as (found & V' & C' & Hrun & [Hpre HV HI HF HM HO] & _ & HF2 & Hin).
  exists found, V', C'. split; [exact Hrun |].
  assert (Hkeys : forall (j : nat) (p1 p2 a : Z),
             Edges !! j = Some (p1, p2) -> found !! j = Some a ->
             C' !! MakeKey p1 p2 = Some a /\
             (0 <= p1 < 2 ^ 31)%Z /\ (0 <= p2 < 2 ^ 31)%Z).
  { intros j p1 p2 a Hj Ha.
    split; [exact (Forall2_lookup_lr _ _ _ _ _ _ HF2 Hj Ha) |].
    destruct (proj1 (Forall_lookup _ _) HE j _ Hj) as [H1 H2].
    cbn [fst snd] in H1, H2. unfold ValidIndex in *. lia. }
  split; [symmetry; exact (Forall2_length _ _ _ HF2) |].
  split; [exact Hpre |].
  split; [| split; [| split]].
  - intros j p1 p2 a Hj Ha.
    destruct (Hkeys j p1 p2 a Hj Ha) as (Hk & Hr1 & Hr2).
    split.
    { pose proof (HV _ _ Hk) as Hv. pose proof (HF _ _ Hk).
      unfold ValidIndex in Hv. lia. }
    split; [rewrite <- MakeKey_value by assumption; exact Hk |].
    split.
    { destruct (HM _ _ Hk) as (p & q & P & Q & Hkey & Hp & Hq & Hmid).
      pose proof (Index_valid _ _ _ Hp) as Hvp.
      pose proof (Index_valid _ _ _ Hq) as Hvq.
      unfold ValidIndex in Hvp, Hvq.
      destruct (MakeKey_inj p1 p2 p q) as [Hmin Hmax];
        [lia | lia | lia | lia | exact Hkey |].
      assert (Hcases : (p = p1 /\ q = p2) \/ (p = p2 /\ q = p1)) by lia.
      destruct Hcases as [[-> ->] | [-> ->]].
      - exists P, Q. split; [exact Hp |]. split; [exact Hq | exact Hmid].
      - exists Q, P. split; [exact Hq |]. split; [exact Hp |].
        fold (MiddleOf Q P). rewrite MiddleOf_comm. exact Hmid. }
    split; [apply GetMiddlePoint_hit; exact Hk |].
    apply GetMiddlePoint_hit. rewrite MakeKey_sym. exact Hk.
  - intros j k p1 p2 q1 q2 a b Hj Hk Ha Hb.
    destruct (Hkeys j p1 p2 a Hj Ha) as (Hka & Hp1 & Hp2).
    destruct (Hkeys k q1 q2 b Hk Hb) as (Hkb & Hq1 & Hq2).
    split.
    + intros <-.
      pose proof (HI _ _ _ Hka Hkb) as Hkey.
      destruct (MakeKey_inj p1 p2 q1 q2 Hp1 Hp2 Hq1 Hq2 Hkey). lia.
    + intros Hsame.
      assert (Hkey : MakeKey p1 p2 = MakeKey q1 q2).
      { destruct Hsame as [[-> ->] | [-> ->]];
          [reflexivity | apply MakeKey_sym]. }
      rewrite Hkey in Hka. congruence.
  - intros i Hi. destruct (HO i Hi) as [key Hkey].
    destruct (Hin key _ Hkey) as [Hold | Hfound].
    + rewrite lookup_empty in Hold. discriminate.
    + apply list_elem_of_lookup_1. exact Hfound.
  - intros Triangles ->.
    exact (SubdivideLoop_requests _ _ _ _ _ [] _ Hrun).
Qed.

(** Three requests on a three-vertex buffer: the edge (0,1), the edge (1,2),
    and the edge (0,1) again with its endpoints swapped. *)
Lemma GetMiddlePoint_shared_midpoint_witness :
  let Vertices := [MkVector 1 0 0; MkVector 0 1 0; MkVector 0 0 1] in
  exists (a b : Z) (Vertices' : list FVector) (Cache' : gmap Z Z),
    MiddlePoints [(0, 1); (1, 2); (1, 0)]%Z Vertices ∅
      = Some ([a; b; a], (Vertices', Cache')) /\
    a <> b.
Proof.
  intros Vertices.
  destruct (GetMiddlePoint_shared_midpoint Vertices [(0, 1); (1, 2); (1, 0)]%Z)
    as (found & V' & C' & Hrun & Hlen & _ & _ & Hsame & _).
  - cbn. lia.
  - repeat (apply Forall_cons; split;
            [split; unfold ValidIndex; cbn; lia |]).
    apply Forall_nil_2.
  - destruct found as [| a [| b [| c [| d rest]]]]; try discriminate Hlen.
    assert (Hac : a = c).
    { apply (Hsame 0%nat 2%nat 0 1 1 0 a c)%Z; try reflexivity.
      right. split; reflexivity. }
    subst c. exists a, b, V', C'. split; [exact Hrun |].
    intros Hab.
    apply (Hsame 0%nat 1%nat 0 1 1 2 a b)%Z in Hab; try reflexivity. lia.
Defined.
